(** * Steam stat card: cache, request de-duplication, library totals and
      the card renderer

    A shallow embedding of the image endpoint (the handler module with
    [ensureFontsLoaded], [getUserData], [getGameData], [getCachedImage],
    [handler] and [createFullCanvas]).

    - JavaScript numbers are IEEE-754 doubles: they are Rocq's primitive
      binary64 floats, so every rounding of the source is the rounding here.
      Quantities that are integers in the source and far below 2^53 (counts,
      minutes, prices in cents, millisecond time stamps) are [Z].
    - The module-level [Map]s ([cache], [pendingRequests], [imageCache]) are
      finite maps with string keys, threaded explicitly.
    - An [async] function runs until its first [await] and is resumed later
      by the event loop: each such function is a start step and resume steps
      on a task table.
    - The 2D context is a log of the property writes and method calls it
      receives; the encoded image is that log. *)

From Stdlib Require Import ZArith NArith Floats Lia List Bool Ascii String.
From stdpp Require Import base option strings gmap list.
Import ListNotations.

#[local] Open Scope string_scope.
#[local] Open Scope list_scope.
#[local] Open Scope Z_scope.

(* ===================================================================== *)
(** ** JavaScript numbers *)
(* ===================================================================== *)

Module JS.

(** The double nearest to an integer (ties to even). *)
Definition Z2F (z : Z) : float :=
  SF2Prim (binary_normalize prec emax z 0 false).

(** The double nearest to the positive rational [n / d] ([d > 0]): the
    quotient is taken with more than [prec + 2] bits and a sticky bit for
    the remainder, then rounded once. *)
Definition Q2F (neg : bool) (n d : Z) : float :=
  if n =? 0 then (if neg then PrimFloat.neg_zero else PrimFloat.zero) else
  let s := Z.max 0 (64 + Z.log2 d - Z.log2 n) in
  let num := Z.shiftl n s in
  let q := num / d in
  let sticky := if num mod d =? 0 then 0 else 1 in
  let m := 2 * q + sticky in
  SF2Prim (binary_normalize prec emax (if neg then - m else m) (- s - 1) false).

(** [Math.floor]. *)
Definition Math_floor (x : float) : float :=
  match Prim2SF x with
  | S754_finite s m e => Z2F (Z.shiftl (cond_Zopp s (Zpos m)) e)
  | _ => x
  end.

(** [Math.min] of two numbers. *)
Definition Math_min (x y : float) : float :=
  if is_nan x || is_nan y then PrimFloat.nan
  else if PrimFloat.ltb y x then y
  else if PrimFloat.ltb x y then x
  else if get_sign x then x else y.

(** Decimal digits of a natural number, most significant first, as
    [Number.prototype.toString] prints an integer below 1e21. *)
Fixpoint digits_fuel (fuel : nat) (n : N) (acc : list ascii) : list ascii :=
  match fuel with
  | O => acc
  | S f =>
      let d := ascii_of_N (48 + n mod 10) :: acc in
      if (n <? 10)%N then d else digits_fuel f (n / 10)%N d
  end.

Definition N_toString (n : N) : string :=
  string_of_list_ascii (digits_fuel (S (N.to_nat (N.log2 n))) n []).

Definition Z_toString (z : Z) : string :=
  match z with
  | Zneg p => "-" +:+ N_toString (Npos p)
  | _ => N_toString (Z.to_N z)
  end.

(** [x.toFixed(0)]: the integer nearest to [x], the larger one on a tie,
    with the sign taken from [x]; [NaN] and the infinities print by name.
    (From 1e21 on JavaScript prints in exponent notation; the percentages
    formatted here are far below.) *)
Definition toFixed0 (x : float) : string :=
  match Prim2SF x with
  | S754_nan => "NaN"
  | S754_infinity s => if s then "-Infinity" else "Infinity"
  | S754_zero _ => "0"
  | S754_finite s m e =>
      let n := if 0 <=? e then Z.shiftl (Zpos m) e
               else Z.shiftr (Zpos m + Z.shiftl 1 (- e - 1)) (- e) in
      (if s then "-" else "") +:+ N_toString (Z.to_N n)
  end.

(** *** Strings to numbers *)

Definition is_ws (c : ascii) : bool :=
  let n := N_of_ascii c in
  ((n =? 9) || (n =? 10) || (n =? 11) || (n =? 12) || (n =? 13) || (n =? 32))%N.

Fixpoint skip_ws (l : list ascii) : list ascii :=
  match l with
  | c :: r => if is_ws c then skip_ws r else l
  | [] => []
  end.

Definition trim_ws (l : list ascii) : list ascii :=
  rev (skip_ws (rev (skip_ws l))).

(** Value of a character as a digit of the given radix. *)
Definition digit_val (radix : N) (c : ascii) : option N :=
  let n := N_of_ascii c in
  let v := if ((48 <=? n) && (n <=? 57))%N then Some (n - 48)%N
           else if ((97 <=? n) && (n <=? 122))%N then Some (n - 87)%N
           else if ((65 <=? n) && (n <=? 90))%N then Some (n - 55)%N
           else None in
  match v with
  | Some d => if (d <? radix)%N then Some d else None
  | None => None
  end.

(** Longest prefix of digits: its value, how many digits, and the rest. *)
Fixpoint take_digits (radix : N) (l : list ascii) (acc : N) (cnt : nat)
  : N * nat * list ascii :=
  match l with
  | c :: r =>
      match digit_val radix c with
      | Some d => take_digits radix r (acc * radix + d)%N (S cnt)
      | None => (acc, cnt, l)
      end
  | [] => (acc, cnt, [])
  end.

Definition is_ch (n : N) (c : ascii) : bool := (N_of_ascii c =? n)%N.

(** [parseInt(s)] without a radix argument. *)
Definition parseInt (s : string) : float :=
  let l := skip_ws (list_ascii_of_string s) in
  let '(neg, l) :=
    match l with
    | c :: r => if is_ch 45 c then (true, r)
                else if is_ch 43 c then (false, r) else (false, l)
    | [] => (false, l)
    end in
  let '(radix, l) :=
    match l with
    | c0 :: c1 :: r =>
        if is_ch 48 c0 && (is_ch 120 c1 || is_ch 88 c1)
        then (16%N, r) else (10%N, l)
    | _ => (10%N, l)
    end in
  let '(v, cnt, _) := take_digits radix l 0%N O in
  match cnt with
  | O => PrimFloat.nan
  | _ => if (v =? 0)%N then (if neg then PrimFloat.neg_zero else PrimFloat.zero)
         else Z2F (if neg then - Z.of_N v else Z.of_N v)
  end.

(** An optional exponent part [e±ddd]; [None] when what follows is not one. *)
Definition take_exponent (l : list ascii) : option (Z * list ascii) :=
  match l with
  | c :: r =>
      if is_ch 101 c || is_ch 69 c then
        let '(eneg, r) :=
          match r with
          | c' :: r' => if is_ch 45 c' then (true, r')
                        else if is_ch 43 c' then (false, r') else (false, r)
          | [] => (false, r)
          end in
        let '(v, cnt, rest) := take_digits 10%N r 0%N O in
        match cnt with
        | O => None
        | _ => Some (if eneg then - Z.of_N v else Z.of_N v, rest)
        end
      else Some (0, l)
  | [] => Some (0, [])
  end.

(** The double denoted by [m * 10^e]. *)
Definition dec2F (neg : bool) (m : N) (e : Z) : float :=
  if 0 <=? e then
    if (m =? 0)%N then (if neg then PrimFloat.neg_zero else PrimFloat.zero)
    else Z2F (cond_Zopp neg (Z.of_N m * 10 ^ e))
  else Q2F neg (Z.of_N m) (10 ^ (- e)).

Definition prefixed_int (radix : N) (l : list ascii) : float :=
  let '(v, cnt, rest) := take_digits radix l 0%N O in
  match cnt, rest with
  | S _, [] => Z2F (Z.of_N v)
  | _, _ => PrimFloat.nan
  end.

(** [Number(s)] on a string (the conversion behind [s >= 10] and
    [isNaN(s)]): white space trimmed, the empty string is 0, then a signed
    decimal literal, [Infinity], or an unsigned 0x / 0o / 0b integer. *)
Definition StringToNumber (s : string) : float :=
  let l := trim_ws (list_ascii_of_string s) in
  match l with
  | [] => PrimFloat.zero
  | c0 :: r0 =>
      let prefixed :=
        match r0 with
        | c1 :: r1 =>
            if is_ch 48 c0 then
              if is_ch 120 c1 || is_ch 88 c1 then Some (prefixed_int 16 r1)
              else if is_ch 111 c1 || is_ch 79 c1 then Some (prefixed_int 8 r1)
              else if is_ch 98 c1 || is_ch 66 c1 then Some (prefixed_int 2 r1)
              else None
            else None
        | [] => None
        end in
      match prefixed with
      | Some f => f
      | None =>
          let '(neg, l) :=
            if is_ch 45 c0 then (true, r0)
            else if is_ch 43 c0 then (false, r0) else (false, l) in
          if String.eqb (string_of_list_ascii l) "Infinity"
          then (if neg then PrimFloat.neg_infinity else PrimFloat.infinity)
          else
            let '(ip, icnt, l) := take_digits 10%N l 0%N O in
            let '(m, fcnt, dot, l) :=
              match l with
              | c :: r =>
                  if is_ch 46 c then
                    let '(fp, fcnt, r') := take_digits 10%N r ip O in
                    (fp, fcnt, true, r')
                  else (ip, O, false, l)
              | [] => (ip, O, false, l)
              end in
            match (icnt + fcnt)%nat with
            | O => PrimFloat.nan
            | _ =>
                match take_exponent l with
                | Some (e, []) => dec2F neg m (e - Z.of_nat fcnt)
                | _ => PrimFloat.nan
                end
            end
      end
  end.

(** [isNaN] on a number and on a string. *)
Definition isNaN (x : float) : bool := is_nan x.
Definition isNaN_str (s : string) : bool := is_nan (StringToNumber s).

End JS.

Import JS.

(* ===================================================================== *)
(** ** Data model *)
(* ===================================================================== *)

(** A thrown value or a promise rejection, by its message.  No [catch] of
    the module looks at it. *)
Definition exn := string.

(** What [sapi.getUserSummary] resolves to (the fields the module reads). *)
Record UserSummary := {
  nickname : string;
  us_visible : bool;
  avatar_large : string;
  lastLogOffTimestamp : option Z;
  createdTimestamp : option Z;
  us_countryCode : option string;
  us_stateCode : option string
}.

(** What [sidr.steamID64ToFullInfo] resolves to: two optional arrays. *)
Record FullInfo := {
  fi_onlineState : option (list string);
  fi_location : option (list string)
}.

Record UserData := {
  steamId : string;
  personaName : string;
  visible : bool;
  avatar : string;
  lastLogOff : option Z;
  createdAt : option Z;
  countryCode : option string;
  stateCode : option string;
  onlineState : option string;
  location : option string
}.

(** An element of the owned-games list: [item.game.id], [item.minutes]. *)
Record Game := { game_id : Z; minutes : Z }.

Record Totals := {
  totalInitialFormatted : string;
  totalFinalFormatted : string;
  averageGamePrice : string;
  totalPlaytimeHours : string;
  averagePlaytime : string;
  totalGames : Z
}.

Record PlayCount := {
  playedCount : Z;
  unplayedCount : Z;
  totalPlaytime : Z
}.

(** The objects the two fetchers hand to the renderer: a profile, library
    totals, or the marker [{ error: msg }]. [DUndefined] is the [data]
    field of a cache entry that has none. *)
Inductive jsdata :=
| DUser (u : UserData)
| DGames (totals : Totals) (playCount : PlayCount)
| DError (error : string)
| DUndefined.

(** Price data of one app in a store response. *)
Record PriceOverview := { final : Z; initial : Z }.
Record AppDetails := { price_overview : option PriceOverview }.
Record AppEntry := { data : option AppDetails }.

(* ===================================================================== *)
(** ** Cache store *)
(* ===================================================================== *)

Definition CACHE_TTL : Z := 60 * 60 * 1000.
Definition AVATAR_CACHE_TTL : Z := 24 * 60 * 60 * 1000.
Definition STEAMID_CACHE_TTL : Z := 7 * 24 * 60 * 60 * 1000.
Definition GAME_DATA_CACHE_TTL : Z := 6 * 60 * 60 * 1000.

(** [isCacheValid(timestamp, ttl)] at the instant [now = Date.now()].  A
    missing time stamp makes the difference [NaN], and the test false. *)
Definition isCacheValid (now : Z) (timestamp : option Z) (ttl : Z) : bool :=
  match timestamp with
  | Some t => now - t <? ttl
  | None => false
  end.

(** The values the one [cache] map holds: a resolved id (a string), the
    [{ timestamp }] record kept beside it, and [{ data, timestamp }]. *)
Inductive cacheval :=
| CSteamId (id : string)
| CMeta (timestamp : Z)
| CEntry (data : jsdata) (timestamp : Z).

Definition truthy (v : option cacheval) : bool :=
  match v with
  | None => false
  | Some (CSteamId id) => negb (String.eqb id "")
  | Some _ => true
  end.

Definition timestamp_of (v : option cacheval) : option Z :=
  match v with
  | Some (CMeta t) | Some (CEntry _ t) => Some t
  | _ => None
  end.

Definition data_of (v : option cacheval) : jsdata :=
  match v with
  | Some (CEntry d _) => d
  | _ => DUndefined
  end.

(** A cached id as the string it is used as (an object prints as
    JavaScript prints objects). *)
Definition id_string (v : option cacheval) : string :=
  match v with
  | Some (CSteamId id) => id
  | Some _ => "[object Object]"
  | None => "undefined"
  end.

(* ===================================================================== *)
(** ** Fetchers: [getUserData] and [getGameData] *)
(* ===================================================================== *)

(** Calls made to the outside, in the order they are issued. *)
Inductive request :=
| ReqResolve (uid : string)
| ReqUserSummary (steamId : string)
| ReqFullInfo (steamId : string)
| ReqOwnedGames (steamId : string)
| ReqPrices (appids : list Z) (cc : string).

(** Where a suspended fetch waits: the [U..] stages are the [await]s of
    [getUserData], the [G..] stages those of [getGameData]. *)
Inductive stage :=
| UResolve (uid : string)
| USummaries (uid : string) (steamId : string)
| GResolve (uid cc : string)
| GOwned (uid cc : string) (steamId : string)
| GPrices (uid cc : string) (userGames : list Game).

Inductive promise :=
| Running (st : stage)
| Settled (result : jsdata).

(** What the event loop delivers to a suspended fetch.  [RespPrices] lists
    the outcomes of the price calls in the order they completed. *)
Inductive response :=
| RespResolve (r : exn + string)
| RespSummaries (summary : exn + UserSummary) (info : exn + FullInfo)
| RespOwned (r : exn + list Game)
| RespPrices (rs : list (exn + list AppEntry)).

Record state := {
  cache : gmap string cacheval;
  pendingRequests : gmap string nat;
  promises : list promise;
  sent : list request
}.

Definition init : state :=
  {| cache := ∅; pendingRequests := ∅; promises := []; sent := [] |}.

(** What a call of a fetcher returns: a value read from the cache, or the
    promise (by its index) of a fetch in flight. *)
Inductive outcome :=
| Now (d : jsdata)
| Later (p : nat).

Definition user_key (uid : string) : string := "user_" +:+ uid.
Definition steamid_key (uid : string) : string := "steamid_" +:+ uid.
Definition steamid_meta_key (uid : string) : string := "steamid_meta_" +:+ uid.
Definition games_key (uid cc : string) : string :=
  "games_" +:+ uid +:+ "_" +:+ cc.

Definition stage_key (s : stage) : string :=
  match s with
  | UResolve uid | USummaries uid _ => user_key uid
  | GResolve uid cc | GOwned uid cc _ | GPrices uid cc _ => games_key uid cc
  end.

Definition set_cache (k : string) (v : cacheval) (st : state) : state :=
  {| cache := <[k := v]> (cache st); pendingRequests := pendingRequests st;
     promises := promises st; sent := sent st |}.

Definition send (rs : list request) (st : state) : state :=
  {| cache := cache st; pendingRequests := pendingRequests st;
     promises := promises st; sent := sent st ++ rs |}.

Definition suspend (p : nat) (s : stage) (st : state) : state :=
  {| cache := cache st; pendingRequests := pendingRequests st;
     promises := <[p := Running s]> (promises st); sent := sent st |}.

(** The end of the [try]: the promise settles and the [finally] block
    deletes the in-flight marker of the key. *)
Definition settle (p : nat) (k : string) (d : jsdata) (st : state) : state :=
  {| cache := cache st; pendingRequests := delete k (pendingRequests st);
     promises := <[p := Settled d]> (promises st); sent := sent st |}.

(** A new promise, registered in [pendingRequests] under the key, with the
    requests its first stretch has issued.  The body of the fetch has
    stopped at an [await] by the time the caller registers it: the calls it
    makes on the way (the resolver, the API client) hand back promises and
    do not throw on the spot. *)
Definition spawn (k : string) (s : stage) (rs : list request) (st : state)
  : outcome * state :=
  let p := length (promises st) in
  (Later p,
   {| cache := cache st; pendingRequests := <[k := p]> (pendingRequests st);
      promises := promises st ++ [Running s]; sent := sent st ++ rs |}).

Definition summary_requests (steamId : string) : list request :=
  [ReqUserSummary steamId; ReqFullInfo steamId].

(** [getUserData(uid)] up to its first [await]. *)
Definition getUserData (uid : string) (now : Z) (st : state) : outcome * state :=
  let cacheKey := user_key uid in
  let cached := cache st !! cacheKey in
  if truthy cached && isCacheValid now (timestamp_of cached) CACHE_TTL
  then (Now (data_of cached), st)
  else
    match pendingRequests st !! cacheKey with
    | Some p => (Later p, st)
    | None =>
        let steamId := cache st !! steamid_key uid in
        let steamIdCached := cache st !! steamid_meta_key uid in
        if negb (truthy steamId) || negb (truthy steamIdCached)
           || negb (isCacheValid now (timestamp_of steamIdCached) STEAMID_CACHE_TTL)
        then spawn cacheKey (UResolve uid) [ReqResolve uid] st
        else spawn cacheKey (USummaries uid (id_string steamId))
                   (summary_requests (id_string steamId)) st
    end.

Definition head_opt (o : option (list string)) : option string :=
  match o with
  | Some (x :: _) => Some x
  | _ => None
  end.

Definition make_userData (steamId : string) (userSummary : UserSummary)
    (sidrSummary : FullInfo) : UserData :=
  {| steamId := steamId;
     personaName := nickname userSummary;
     visible := us_visible userSummary;
     avatar := avatar_large userSummary;
     lastLogOff := lastLogOffTimestamp userSummary;
     createdAt := createdTimestamp userSummary;
     countryCode := us_countryCode userSummary;
     stateCode := us_stateCode userSummary;
     onlineState := head_opt (fi_onlineState sidrSummary);
     location := match fi_location sidrSummary with
                 | Some l => head_opt (Some l)
                 | None => Some "Unknown"
                 end |}.

Definition no_info : FullInfo := {| fi_onlineState := None; fi_location := None |}.

(** *** The owned-games loop *)

Record tally := {
  gameIds : list Z;
  playtime : list Z;
  t_playedCount : Z;
  t_unplayedCount : Z;
  t_totalPlaytime : Z
}.

Definition tally0 : tally :=
  {| gameIds := []; playtime := []; t_playedCount := 0; t_unplayedCount := 0;
     t_totalPlaytime := 0 |}.

(** One turn of [for (const item of userGames)]. *)
Definition tally_step (t : tally) (item : Game) : tally :=
  let ids := gameIds t ++ [game_id item] in
  let t1 :=
    if 0 <? minutes item
    then {| gameIds := ids; playtime := playtime t ++ [minutes item];
            t_playedCount := t_playedCount t + 1;
            t_unplayedCount := t_unplayedCount t;
            t_totalPlaytime := t_totalPlaytime t + minutes item |}
    else {| gameIds := ids; playtime := playtime t;
            t_playedCount := t_playedCount t;
            t_unplayedCount := t_unplayedCount t;
            t_totalPlaytime := t_totalPlaytime t |} in
  if minutes item =? 0
  then {| gameIds := gameIds t1; playtime := playtime t1;
          t_playedCount := t_playedCount t1;
          t_unplayedCount := t_unplayedCount t1 + 1;
          t_totalPlaytime := t_totalPlaytime t1 |}
  else t1.

Definition tally_games (userGames : list Game) : tally :=
  fold_left tally_step userGames tally0.

Definition maxGameIdsPerCall : nat := 200.

(** [gameIds.slice(i, i + 200)] for [i = 0, 200, ...]. *)
Fixpoint chunks_fuel (fuel : nat) (ids : list Z) : list (list Z) :=
  match fuel, ids with
  | S f, _ :: _ =>
      take maxGameIdsPerCall ids :: chunks_fuel f (drop maxGameIdsPerCall ids)
  | _, _ => []
  end.

Definition gameIdChunks (ids : list Z) : list (list Z) :=
  chunks_fuel (length ids) ids.

(** *** Price accumulation *)

Record pricing := {
  prices : list Z;
  totalInitial : Z;
  totalFinal : Z
}.

Definition pricing0 : pricing :=
  {| prices := []; totalInitial := 0; totalFinal := 0 |}.

Definition price_entry (acc : pricing) (gameData : AppEntry) : pricing :=
  match data gameData with
  | Some d =>
      match price_overview d with
      | Some po =>
          let finalPrice := final po in
          let initialPrice := initial po in
          if 0 <? initialPrice
          then {| prices := prices acc ++ [initialPrice];
                  totalInitial := totalInitial acc + initialPrice;
                  totalFinal := totalFinal acc + finalPrice |}
          else acc
      | None => acc
      end
  | None => acc
  end.

(** One settled price call: a failed one adds nothing. *)
Definition price_chunk (acc : pricing) (r : exn + list AppEntry) : pricing :=
  match r with
  | inr entries => fold_left price_entry entries acc
  | inl _ => acc
  end.

Definition price_all (rs : list (exn + list AppEntry)) : pricing :=
  fold_left price_chunk rs pricing0.

Section Fetchers.

(** Helpers of the project's [utils] module and the currency formatter, by
    what they are given and the text they return. *)
Variable formatter_format : float -> string.
Variable getAverage : list Z -> float.
Variable minutesToHoursCompact : Z -> string.
Variable minutesToHoursPrecise : float -> string.

(** The totals object built after the price calls have settled. *)
Definition make_gameData (userGames : list Game)
    (rs : list (exn + list AppEntry)) : jsdata :=
  let t := tally_games userGames in
  let p := price_all rs in
  let totalInitialFormatted := formatter_format (Z2F (totalInitial p) / 100) in
  let totalFinalFormatted := formatter_format (Z2F (totalFinal p) / 100) in
  let averageGamePrice :=
    match prices p with
    | [] => "$0.00"
    | _ => formatter_format (getAverage (prices p) / 100)
    end in
  let totalPlaytimeHours := minutesToHoursCompact (t_totalPlaytime t) in
  let averagePlaytime :=
    match playtime t with
    | [] => "0"
    | _ => minutesToHoursPrecise (getAverage (playtime t))
    end in
  let totalGames := Z.of_nat (length userGames) in
  DGames
    {| totalInitialFormatted := totalInitialFormatted;
       totalFinalFormatted := totalFinalFormatted;
       averageGamePrice := averageGamePrice;
       totalPlaytimeHours := totalPlaytimeHours;
       averagePlaytime := averagePlaytime;
       totalGames := totalGames |}
    {| playedCount := t_playedCount t;
       unplayedCount := t_unplayedCount t;
       totalPlaytime := t_totalPlaytime t |}.

(** [getGameData(uid, countryCode)] up to its first [await]. *)
Definition getGameData (uid countryCode : string) (now : Z) (st : state)
  : outcome * state :=
  let cacheKey := games_key uid countryCode in
  let cached := cache st !! cacheKey in
  if truthy cached && isCacheValid now (timestamp_of cached) GAME_DATA_CACHE_TTL
  then (Now (data_of cached), st)
  else
    match pendingRequests st !! cacheKey with
    | Some p => (Later p, st)
    | None =>
        let steamId := cache st !! steamid_key uid in
        if negb (truthy steamId)
        then spawn cacheKey (GResolve uid countryCode) [ReqResolve uid] st
        else spawn cacheKey (GOwned uid countryCode (id_string steamId))
                   [ReqOwnedGames (id_string steamId)] st
    end.

(** The stretch of a suspended fetch from the [await] it waits at to its
    next [await] or to its end, run when [resp] arrives at time [now].  A
    response that is not the one awaited leaves the state as it is. *)
Definition continue (p : nat) (s : stage) (resp : response) (now : Z)
    (st : state) : state :=
  match s, resp with
  | UResolve uid, RespResolve (inr steamId) =>
      let st := set_cache (steamid_key uid) (CSteamId steamId) st in
      let st := set_cache (steamid_meta_key uid) (CMeta now) st in
      suspend p (USummaries uid steamId) (send (summary_requests steamId) st)
  | UResolve uid, RespResolve (inl _) =>
      settle p (user_key uid) (DError "no user") st
  | USummaries uid steamId, RespSummaries (inr userSummary) info =>
      let sidrSummary := match info with inr i => i | inl _ => no_info end in
      let userData := DUser (make_userData steamId userSummary sidrSummary) in
      settle p (user_key uid) userData
        (set_cache (user_key uid) (CEntry userData now) st)
  | USummaries uid _, RespSummaries (inl _) _ =>
      settle p (user_key uid) (DError "no user") st
  | GResolve uid cc, RespResolve (inr steamId) =>
      let st := set_cache (steamid_key uid) (CSteamId steamId) st in
      suspend p (GOwned uid cc steamId) (send [ReqOwnedGames steamId] st)
  | GResolve uid cc, RespResolve (inl _) =>
      settle p (games_key uid cc) (DError "private games") st
  | GOwned uid cc _, RespOwned (inr userGames) =>
      let ids := gameIds (tally_games userGames) in
      suspend p (GPrices uid cc userGames)
        (send (map (fun chunk => ReqPrices chunk cc) (gameIdChunks ids)) st)
  | GOwned uid cc _, RespOwned (inl _) =>
      settle p (games_key uid cc) (DError "private games") st
  | GPrices uid cc userGames, RespPrices rs =>
      let gameData := make_gameData userGames rs in
      settle p (games_key uid cc) gameData
        (set_cache (games_key uid cc) (CEntry gameData now) st)
  | _, _ => st
  end.

Definition resume (p : nat) (resp : response) (now : Z) (st : state) : state :=
  match promises st !! p with
  | Some (Running s) => continue p s resp now st
  | _ => st
  end.

(** *** Runs of the event loop *)

Inductive event :=
| CallUser (uid : string) (now : Z)
| CallGames (uid cc : string) (now : Z)
| Deliver (p : nat) (resp : response) (now : Z).

Definition step (st : state) (e : event) : state :=
  match e with
  | CallUser uid now => snd (getUserData uid now st)
  | CallGames uid cc now => snd (getGameData uid cc now st)
  | Deliver p resp now => resume p resp now st
  end.

Definition run (st : state) (es : list event) : state :=
  fold_left step es st.

(** What the caller of an event receives. *)
Definition returned (st : state) (e : event) : option outcome :=
  match e with
  | CallUser uid now => Some (fst (getUserData uid now st))
  | CallGames uid cc now => Some (fst (getGameData uid cc now st))
  | Deliver _ _ _ => None
  end.

End Fetchers.

(* ===================================================================== *)
(** ** The canvas *)
(* ===================================================================== *)

(** A decoded image: where it came from and its size. *)
Record image := { src : string; img_width : float; img_height : float }.

(** Property writes and method calls on the 2D context. *)
Inductive cmd :=
| SetFillStyle (v : string)
| SetStrokeStyle (v : string)
| SetFont (v : string)
| SetGlobalAlpha (v : float)
| SetLineWidth (v : float)
| FillRect (x y w h : float)
| StrokeRect (x y w h : float)
| FillText (text : string) (x y : float)
| DrawImage (img : image) (x y : float)
| DrawImageSized (img : image) (x y w h : float)
| BeginPath
| MoveTo (x y : float)
| LineTo (x y : float)
| ArcTo (x1 y1 x2 y2 radius : float)
| ClosePath
| Stroke
| Fill
| Clip
| Save
| Restore.

(** The state a rendering threads: the context's current font (read by
    [measureText]), the calls received so far (latest first), and the
    module-level [imageCache]. *)
Record rstate := {
  font : string;
  log : list cmd;
  imageCache : gmap string (image * Z)
}.

(** Rendering steps: they may throw, and they change the state. *)
Definition M (A : Type) : Type := rstate -> (exn + A) * rstate.

#[global] Instance M_ret : MRet M := fun A (a : A) s => (inr a, s).
#[global] Instance M_bind : MBind M := fun A B (k : A -> M B) (m : M A) s =>
  match m s with
  | (inr a, s') => k a s'
  | (inl e, s') => (inl e, s')
  end.

Definition throw {A} (e : exn) : M A := fun s => (inl e, s).

(** [try { body } catch (error) { handler }] with a handler that does
    nothing. *)
Definition try_catch (body : M unit) : M unit := fun s =>
  match body s with
  | (inr _, s') => (inr tt, s')
  | (inl _, s') => (inr tt, s')
  end.

Definition emit (c : cmd) : M unit := fun s =>
  (inr tt, {| font := font s; log := c :: log s; imageCache := imageCache s |}).

Definition set_font (v : string) : M unit := fun s =>
  (inr tt, {| font := v; log := SetFont v :: log s; imageCache := imageCache s |}).

Definition when (b : bool) (m : M unit) : M unit :=
  if b then m else mret tt.

(** [`${o || d}`] for a string that may be missing or empty. *)
Definition or_default (o : option string) (d : string) : string :=
  match o with
  | Some s => if String.eqb s "" then d else s
  | None => d
  end.

Definition totals_of (g : jsdata) : option Totals :=
  match g with DGames t _ => Some t | _ => None end.

Definition playCount_of (g : jsdata) : option PlayCount :=
  match g with DGames _ p => Some p | _ => None end.

(** [gameData.error], when the object has one. *)
Definition error_of (g : jsdata) : option string :=
  match g with DError e => Some e | _ => None end.

(** The query parameters of a request, [None] for one not given. *)
Record query := {
  q_uid : string;
  country_code : option string;
  bg_color : option string;
  title_color : option string;
  sub_title_color : option string;
  text_color : option string;
  username_color : option string;
  id_color : option string;
  cp_color : option string;
  ip_color : option string;
  div_color : option string;
  border_color : option string;
  border_width : option string;
  progbar_bg : option string;
  progbar_color : option string;
  hide_border : option string;
  theme : option string
}.

(** The colours in force once defaults and theme have been applied. *)
Record palette := {
  p_bg : string;
  p_title : string;
  p_sub_title : string;
  p_text : string;
  p_username : string;
  p_id : string;
  p_cp : string;
  p_ip : string;
  p_div : string;
  p_border : string;
  p_progbar_bg : string;
  p_progbar : string
}.

Definition is_theme (name : string) (theme : option string) : bool :=
  match theme with
  | Some t => String.eqb t name
  | None => false
  end.

(** [if (theme === 'dark') x = c] and [if (theme === 'light') x = c]. *)
Definition if_dark (theme : option string) (c x : string) : string :=
  if is_theme "dark" theme then c else x.

Definition if_light (theme : option string) (c x : string) : string :=
  if is_theme "light" theme then c else x.

(** Parameter defaults, then the theme lines of [createFullCanvas]: each
    colour passes the dark line and the light line written for it;
    [cp_color] and [ip_color] have neither. *)
Definition resolve_palette (q : query) : palette :=
  let th := theme q in
  {| p_bg := if_light th "fff" (if_dark th "0b0b0b" (default "0b0b0b" (bg_color q)));
     p_title := if_light th "000" (if_dark th "fff" (default "fff" (title_color q)));
     p_sub_title :=
       if_light th "000" (if_dark th "adadad" (default "adadad" (sub_title_color q)));
     p_text := if_light th "000" (if_dark th "fff" (default "fff" (text_color q)));
     p_username :=
       if_light th "000" (if_dark th "fff" (default "fff" (username_color q)));
     p_id := if_light th "adadad" (if_dark th "adadad" (default "adadad" (id_color q)));
     p_cp := default "f87171" (cp_color q);
     p_ip := default "4ade80" (ip_color q);
     p_div :=
       if_light th "00000030" (if_dark th "ffffff30" (default "ffffff30" (div_color q)));
     p_border :=
       if_light th "00000030"
         (if_dark th "ffffff30" (default "ffffff30" (border_color q)));
     p_progbar_bg :=
       if_light th "00000050" (if_dark th "ffffff30" (default "313131" (progbar_bg q)));
     p_progbar :=
       if_light th "60a5fa" (if_dark th "006fee" (default "006fee" (progbar_color q))) |}.

(** [border_width] once its default is in: the number 1 or the string of
    the query. *)
Inductive numstr :=
| Num (n : float)
| Str (s : string).

Definition ToNumber (v : numstr) : float :=
  match v with
  | Num n => n
  | Str s => StringToNumber s
  end.

(** [parseInt(v)]: a number is printed first (the numbers that get here
    are the literals 1 and 10, which print as integers). *)
Definition parseInt_of (v : numstr) : float :=
  match v with
  | Num n => parseInt (toFixed0 n)
  | Str s => parseInt s
  end.

(** [parseInt(border_width >= 10 ? 10 : border_width)]. *)
Definition border_lineWidth (border_width : option string) : float :=
  let border_width := match border_width with
                      | Some s => Str s
                      | None => Num 1
                      end in
  parseInt_of (if PrimFloat.leb 10 (ToNumber border_width)
               then Num 10 else border_width).

Section Renderer.

#[local] Open Scope float_scope.

(** The surroundings of a rendering: the text metrics of the canvas (by
    font and text), the image decoder, the working directory, the clock,
    and the time and price helpers. *)
Variable measureText : string -> string -> float.
Variable loadImage : string -> exn + image.
Variable cwd : string.
Variable Date_now : Z.
Variable moment_fromNow : Z -> string.
Variable getRelativeTimeImprecise : Z -> string.
Variable pricePerHour : option string -> option string -> string.

Definition measure (text : string) : M float := fun s =>
  (inr (measureText (font s) text), s).

(** [getCachedImage(imagePath, isAvatar)]. *)
Definition getCachedImage (imagePath : string) (isAvatar : bool) : M image :=
  fun s =>
  let cacheKey := "img_" +:+ imagePath in
  let cached := imageCache s !! cacheKey in
  let ttl := if isAvatar then AVATAR_CACHE_TTL else CACHE_TTL in
  match cached with
  | Some (img, timestamp) =>
      if isCacheValid Date_now (Some timestamp) ttl then (inr img, s)
      else
        match loadImage imagePath with
        | inr img' =>
            (inr img', {| font := font s; log := log s;
                          imageCache := <[cacheKey := (img', Date_now)]> (imageCache s) |})
        | inl error => (inl error, s)
        end
  | None =>
      match loadImage imagePath with
      | inr img' =>
          (inr img', {| font := font s; log := log s;
                        imageCache := <[cacheKey := (img', Date_now)]> (imageCache s) |})
      | inl error => (inl error, s)
      end
  end.

Definition asset (name : string) : string :=
  cwd +:+ "/public/canvas/" +:+ name.

Definition canvas_width : float := 705.
Definition canvas_height : float := 385.

(** The double written [0.4] in the source. *)
Definition watermark_alpha : float := 0x1.999999999999ap-2.

Definition draw_background (bg : string) : M unit :=
  emit (SetFillStyle ("#" +:+ bg));;
  emit (FillRect 0 0 canvas_width canvas_height).

Definition draw_watermark : M unit :=
  emit (SetGlobalAlpha watermark_alpha);;
  emit (SetFillStyle "#737373");;
  set_font "16px Geist";;
  emit (FillText "steeeam.vercel.app" (canvas_width - 155) (canvas_height - 17));;
  watermarkImage ← getCachedImage (asset "steeeam-canvas.png") false;
  emit (DrawImage watermarkImage (canvas_width - 180) (canvas_height - 32));;
  emit (SetGlobalAlpha 1).

(** The loop [for (let i = 0; i < username.length; i++)] from index [i]
    with [remaining] turns left: the value of [truncatedLength] at its
    end. *)
Fixpoint truncate_loop (fnt username : string) (remaining : nat) (i : nat)
    (truncatedLength : nat) : nat :=
  match remaining with
  | O => truncatedLength
  | S r =>
      let truncatedText := substring 0 i username +:+ "..." in
      let textWidth := measureText fnt truncatedText in
      if 180 <? textWidth then truncatedLength
      else truncate_loop fnt username r (S i) i
  end.

(** The text drawn for the name. *)
Definition username_text (fnt username : string) : string :=
  let usernameWidth := measureText fnt username in
  if 180 <? usernameWidth then
    let truncatedLength := truncate_loop fnt username (String.length username) 0 0 in
    substring 0 truncatedLength username +:+ "..."
  else username.

Definition draw_username (pal : palette) (userData : UserData) : M unit :=
  emit (SetFillStyle ("#" +:+ p_username pal));;
  set_font "700 20px Geist";;
  emit (FillText (username_text "700 20px Geist" (personaName userData)) 20 180).

Definition draw_steamid (pal : palette) (userData : UserData) : M unit :=
  emit (SetFillStyle ("#" +:+ p_id pal));;
  set_font "10px Geist";;
  emit (FillText (steamId userData) 20 195).

Definition location_text (userData : UserData) : string :=
  let location := or_default (location userData) "Unknown" in
  if (22 <? String.length location)%nat
  then substring 0 22 location +:+ "..." else location.

Definition draw_location (pal : palette) (userData : UserData) : M unit :=
  locIcon ← getCachedImage (asset "loc-icon.png") false;
  emit (DrawImage locIcon 20 220);;
  emit (SetFillStyle ("#" +:+ p_text pal));;
  set_font "12px Geist";;
  emit (FillText (location_text userData) 43 232).

(** A time stamp is used when it is there and not 0. *)
Definition stamp (t : option Z) : option Z :=
  match t with
  | Some v => if (v =? 0)%Z then None else Some v
  | None => None
  end.

Definition draw_last_seen (pal : palette) (userData : UserData) : M unit :=
  seenIcon ← getCachedImage (asset "seen-icon.png") false;
  emit (DrawImage seenIcon 20 245);;
  emit (SetFillStyle ("#" +:+ p_text pal));;
  set_font "12px Geist";;
  let lastSeen := "Last seen " +:+
    match stamp (lastLogOff userData) with
    | Some t => moment_fromNow t
    | None => "never"
    end in
  emit (FillText lastSeen 43 257).

Definition draw_created_at (pal : palette) (userData : UserData) : M unit :=
  joinIcon ← getCachedImage (asset "join-icon.png") false;
  emit (DrawImage joinIcon 20 270);;
  emit (SetFillStyle ("#" +:+ p_text pal));;
  set_font "12px Geist";;
  let createdAt :=
    match stamp (createdAt userData) with
    | Some t => "Joined " +:+ getRelativeTimeImprecise t +:+ " ago"
    | None => "Unknown"
    end in
  emit (FillText createdAt 43 283).

Definition draw_vertical_divider (pal : palette) : M unit :=
  emit (SetLineWidth 1);;
  emit (SetStrokeStyle ("#" +:+ p_div pal));;
  emit BeginPath;;
  emit (MoveTo 200 15);;
  emit (LineTo 200 (canvas_height - 15));;
  emit Stroke.

Definition draw_stats_header (pal : palette) : M unit :=
  gameStatsIcon ← getCachedImage (asset "game-stats-icon.png") false;
  emit (DrawImage gameStatsIcon 215 20);;
  emit (SetFillStyle ("#" +:+ p_title pal));;
  set_font "600 16px Geist";;
  emit (FillText "Account Statistics" 245 37).

Definition draw_horizontal_divider (pal : palette) : M unit :=
  emit (SetLineWidth 1);;
  emit (SetStrokeStyle ("#" +:+ p_div pal));;
  emit BeginPath;;
  emit (MoveTo 215 50);;
  emit (LineTo (canvas_width - 15) 50);;
  emit Stroke.

(** A caption in the sub-title colour and, below it, a value. *)
Definition stat_block (pal : palette) (caption : string) (colour : string)
    (value : string) (x yc yv : float) : M unit :=
  emit (SetFillStyle ("#" +:+ p_sub_title pal));;
  set_font "16px Geist";;
  emit (FillText caption x yc);;
  emit (SetFillStyle ("#" +:+ colour));;
  set_font "600 26px Geist";;
  emit (FillText value x yv).

(** [roundRect(ctx, x, y, width, height, radius, fill, stroke)]. *)
Definition roundRect (x y width height radius : float) (fill stroke : bool)
  : M unit :=
  emit BeginPath;;
  emit (MoveTo (x + radius) y);;
  emit (LineTo (x + width - radius) y);;
  emit (ArcTo (x + width) y (x + width) (y + radius) radius);;
  emit (LineTo (x + width) (y + height - radius));;
  emit (ArcTo (x + width) (y + height) (x + width - radius) (y + height) radius);;
  emit (LineTo (x + radius) (y + height));;
  emit (ArcTo x (y + height) x (y + height - radius) radius);;
  emit (LineTo x (y + radius));;
  emit (ArcTo x y (x + radius) y radius);;
  emit ClosePath;;
  when stroke (emit Stroke);;
  when fill (emit Fill).

(** The width of the filled part of the bar:
    [Math.floor(barwidth * (progress / 100))]. *)
Definition filled_width (barwidth progress : float) : float :=
  Math_floor (barwidth * (progress / 100)).

(** [createRoundedProgressBar(...)]. *)
Definition createRoundedProgressBar (barwidth barheight progress : float)
    (barColor backgroundColor : string) (borderRadius : float) : M unit :=
  if isNaN progress then mret tt
  else
    emit (SetFillStyle backgroundColor);;
    roundRect 215 330 barwidth barheight borderRadius true false;;
    let barWidth := filled_width barwidth progress in
    emit (SetFillStyle barColor);;
    roundRect 215 330 barWidth barheight borderRadius true true.

(** The strings [playedCount] and [gameCount] of the progress section. *)
Definition playedCount_text (gameData : jsdata) : string :=
  or_default (Z_toString ∘ playedCount <$> playCount_of gameData) "0".

Definition gameCount_text (gameData : jsdata) : string :=
  or_default (Z_toString ∘ totalGames <$> totals_of gameData) "0".

(** [(parseInt(playedCount) / parseInt(gameCount)) * 100]. *)
Definition progress_of (gameData : jsdata) : float :=
  (parseInt (playedCount_text gameData) / parseInt (gameCount_text gameData)) * 100.

(** The line "played / total games played  NN%". *)
Definition draw_progress_line (pal : palette) (gameData : jsdata) : M unit :=
  let playedCount := playedCount_text gameData in
  let gameCount := gameCount_text gameData in
  let progressPercent := toFixed0 (progress_of gameData) in
  if isNaN_str progressPercent then mret tt
  else
    emit (SetFillStyle ("#" +:+ p_progbar pal));;
    set_font "700 14px Geist";;
    emit (FillText playedCount 215 324);;
    emit (SetFillStyle ("#" +:+ p_text pal));;
    set_font "14px Geist";;
    w1 ← measure playedCount;
    emit (FillText "/" ((w1 + 215) + 5) 324);;
    emit (SetFillStyle ("#" +:+ p_progbar pal));;
    set_font "700 14px Geist";;
    w2 ← measure playedCount;
    emit (FillText gameCount ((w2 + 215) + 15) 324);;
    emit (SetFillStyle ("#" +:+ p_text pal));;
    set_font "14px Geist";;
    w3 ← measure playedCount;
    w4 ← measure gameCount;
    emit (FillText "games played" ((w3 + w4) + 215 + 20) 324);;
    set_font "700 14px Geist";;
    emit (FillText (progressPercent +:+ "%") 405 324).

Definition draw_progress_bar (pal : palette) (gameData : jsdata) : M unit :=
  let barwidth := 220 in
  let barheight := 12 in
  let progress := progress_of gameData in
  let barColor := "#" +:+ p_progbar pal in
  let backgroundColor := "#" +:+ p_progbar_bg pal in
  let borderRadius := 6 in
  createRoundedProgressBar barwidth barheight progress barColor backgroundColor
    borderRadius.

(** [`${gameData.totals?.totalGames || '0'}`]. *)
Definition totalGames_text (gameData : jsdata) : string :=
  match totals_of gameData with
  | Some t => if (totalGames t =? 0)%Z then "0" else Z_toString (totalGames t)
  | None => "0"
  end.

(** The six stat blocks, the counter line and the bar. *)
Definition draw_stat_blocks (pal : palette) (gameData : jsdata) : M unit :=
  let totals := totals_of gameData in
  stat_block pal "Current Price" (p_cp pal)
    (or_default (totalFinalFormatted <$> totals) "$0") 215 80 110;;
  stat_block pal "Initial Price" (p_ip pal)
    (or_default (totalInitialFormatted <$> totals) "$0") 370 80 110;;
  stat_block pal "Total Games" (p_text pal) (totalGames_text gameData) 215 160 190;;
  stat_block pal "Avg. Price" (p_text pal)
    (or_default (averageGamePrice <$> totals) "$0") 370 160 190;;
  stat_block pal "Price Per Hour" (p_text pal)
    (or_default (Some (pricePerHour (totalFinalFormatted <$> totals)
                                    (totalPlaytimeHours <$> totals))) "0")
    510 160 190;;
  stat_block pal "Avg. Playtime" (p_text pal)
    (or_default (averagePlaytime <$> totals) "0" +:+ "h") 215 240 270;;
  stat_block pal "Total Playtime" (p_text pal)
    (or_default (totalPlaytimeHours <$> totals) "0" +:+ "h") 370 240 270;;
  draw_progress_line pal gameData;;
  draw_progress_bar pal gameData.

Definition draw_private (pal : palette) : M unit :=
  emit (SetFillStyle ("#" +:+ p_sub_title pal));;
  set_font "16px Geist";;
  emit (FillText "Private Games List" 390 200).

(** [if (!gameData.error) { ... } else { ... }]; reading [error] of
    [undefined] throws. *)
Definition draw_stats (pal : palette) (gameData : jsdata) : M unit :=
  match gameData with
  | DUndefined => throw "TypeError"
  | _ =>
      if String.eqb (or_default (error_of gameData) "") ""
      then draw_stat_blocks pal gameData
      else draw_private pal
  end.

(** [drawCenteredRoundedImage()], whose whole body is in a [try]. *)
Definition drawCenteredRoundedImage (userData : UserData) : M unit :=
  try_catch (
    avatar ← getCachedImage (avatar userData) true;
    let desiredWidth := 130 in
    let desiredHeight := 130 in
    let scaleFactor := Math_min (desiredWidth / img_width avatar)
                                (desiredHeight / img_height avatar) in
    let newWidth := img_width avatar * scaleFactor in
    let newHeight := img_height avatar * scaleFactor in
    emit Save;;
    emit BeginPath;;
    let cornerRadius := newWidth / 2 in
    let x := 35 in
    let y := 20 in
    emit (MoveTo (x + cornerRadius) y);;
    emit (ArcTo (x + newWidth) y (x + newWidth) (y + newHeight) cornerRadius);;
    emit (ArcTo (x + newWidth) (y + newHeight) x (y + newHeight) cornerRadius);;
    emit (ArcTo x (y + newHeight) x y cornerRadius);;
    emit (ArcTo x y (x + newWidth) y cornerRadius);;
    emit ClosePath;;
    emit Clip;;
    emit (DrawImageSized avatar x y newWidth newHeight);;
    emit Restore).

Definition draw_avatar (userData : UserData) : M unit :=
  when (negb (String.eqb (avatar userData) "")) (drawCenteredRoundedImage userData).

Definition draw_border (q : query) (pal : palette) : M unit :=
  when (match hide_border q with
        | Some v => negb (String.eqb v "true")
        | None => true
        end)
    (emit (SetStrokeStyle ("#" +:+ p_border pal));;
     emit (SetLineWidth (border_lineWidth (border_width q)));;
     emit (StrokeRect 0 0 canvas_width canvas_height)).

(** [canvas.toBuffer('image/png')]: the image is what the context was
    told, first call first. *)
Definition toBuffer : M (list cmd) := fun s => (inr (rev (log s)), s).

(** [createFullCanvas(userData, gameData, ...colours, hide_border, theme)]
    with the colour arguments as the query gave them. *)
Definition createFullCanvas (userData : UserData) (gameData : jsdata)
    (q : query) : M (list cmd) :=
  let pal := resolve_palette q in
  draw_background (p_bg pal);;
  draw_watermark;;
  draw_username pal userData;;
  draw_steamid pal userData;;
  draw_location pal userData;;
  draw_last_seen pal userData;;
  draw_created_at pal userData;;
  draw_vertical_divider pal;;
  draw_stats_header pal;;
  draw_horizontal_divider pal;;
  draw_stats pal gameData;;
  draw_avatar userData;;
  draw_border q pal;;
  toBuffer.

(** *** The handler, once both fetches have settled *)

Inductive body :=
| Png (image : list cmd)
| Json (error : string).

Record http_response := {
  status : Z;
  cache_control : string;
  content_type : option string;
  payload : body
}.

Definition cache_control_value : string :=
  "public, max-age=3600, s-maxage=3600, stale-while-revalidate=86400".

(** A fresh canvas: no font chosen yet, nothing drawn. *)
Definition fresh (images : gmap string (image * Z)) : rstate :=
  {| font := "10px sans-serif"; log := []; imageCache := images |}.

(** The part of [handler] after [Promise.all]: render and answer, or
    answer 500 when anything threw.  A profile that is the error marker
    has no name to draw; the canvas refuses the missing text and the
    request ends in the [catch]. *)
Definition handler_respond (userData gameData : jsdata) (q : query)
    (images : gmap string (image * Z)) : http_response * gmap string (image * Z) :=
  let rendering :=
    match userData with
    | DUser u => createFullCanvas u gameData q (fresh images)
    | _ => (inl "TypeError", fresh images)
    end in
  match rendering with
  | (inr canvasBuffer, s) =>
      ({| status := 200; cache_control := cache_control_value;
          content_type := Some "image/png"; payload := Png canvasBuffer |},
       imageCache s)
  | (inl _, s) =>
      ({| status := 500; cache_control := cache_control_value;
          content_type := None; payload := Json "Failed to generate image" |},
       imageCache s)
  end.

End Renderer.

(** The first part of [handler]: both fetchers are called, one after the
    other, before anything is awaited. *)
Definition handler_fetch (q : query) (now : Z) (st : state)
  : outcome * outcome * state :=
  let '(userData, st1) := getUserData (q_uid q) now st in
  let '(gameData, st2) :=
    getGameData (q_uid q) (default "US" (country_code q)) now st1 in
  (userData, gameData, st2).


(* ===================================================================== *)
(** ** Fonts *)
(* ===================================================================== *)

(** The module-level flag [fontsLoaded] and what has been registered with
    [GlobalFonts] so far: the path of a font file and the family name it
    is registered under. *)
Record fonts := {
  fontsLoaded : bool;
  registered : list (string * string)
}.

(** The state when the module has been loaded. *)
Definition no_fonts : fonts := {| fontsLoaded := false; registered := [] |}.

(** [ensureFontsLoaded()]. *)
Definition ensureFontsLoaded (cwd : string) (f : fonts) : fonts :=
  if negb (fontsLoaded f)
  then {| fontsLoaded := true;
          registered :=
            registered f ++
            [(cwd +:+ "/public/GeistVF.woff2", "Geist");
             (cwd +:+ "/public/Elgraine-Black-Italic.ttf", "Elgraine")] |}
  else f.

(* ===================================================================== *)
(** ** Vocabulary of the statements *)
(* ===================================================================== *)

(** A game counts as played when its minutes are above 0. *)
Definition played (g : Game) : bool := 0 <? minutes g.

Definition played_games (l : list Game) : list Game := List.filter played l.

Definition remaining_games (l : list Game) : list Game :=
  List.filter (fun g => negb (played g)) l.

Definition sum_minutes (l : list Game) : Z :=
  fold_right (fun g acc => minutes g + acc) 0 l.


(** A query with only the user given, and single parameters added to it. *)
Definition plain_query (uid : string) : query :=
  {| q_uid := uid; country_code := None; bg_color := None; title_color := None;
     sub_title_color := None; text_color := None; username_color := None;
     id_color := None; cp_color := None; ip_color := None; div_color := None;
     border_color := None; border_width := None; progbar_bg := None;
     progbar_color := None; hide_border := None; theme := None |}.

Definition with_theme (v : string) (q : query) : query :=
  {| q_uid := q_uid q; country_code := country_code q; bg_color := bg_color q;
     title_color := title_color q; sub_title_color := sub_title_color q;
     text_color := text_color q; username_color := username_color q;
     id_color := id_color q; cp_color := cp_color q; ip_color := ip_color q;
     div_color := div_color q; border_color := border_color q;
     border_width := border_width q; progbar_bg := progbar_bg q;
     progbar_color := progbar_color q; hide_border := hide_border q;
     theme := Some v |}.

Definition with_bg_color (v : string) (q : query) : query :=
  {| q_uid := q_uid q; country_code := country_code q; bg_color := Some v;
     title_color := title_color q; sub_title_color := sub_title_color q;
     text_color := text_color q; username_color := username_color q;
     id_color := id_color q; cp_color := cp_color q; ip_color := ip_color q;
     div_color := div_color q; border_color := border_color q;
     border_width := border_width q; progbar_bg := progbar_bg q;
     progbar_color := progbar_color q; hide_border := hide_border q;
     theme := theme q |}.

Definition with_cp_color (v : string) (q : query) : query :=
  {| q_uid := q_uid q; country_code := country_code q; bg_color := bg_color q;
     title_color := title_color q; sub_title_color := sub_title_color q;
     text_color := text_color q; username_color := username_color q;
     id_color := id_color q; cp_color := Some v; ip_color := ip_color q;
     div_color := div_color q; border_color := border_color q;
     border_width := border_width q; progbar_bg := progbar_bg q;
     progbar_color := progbar_color q; hide_border := hide_border q;
     theme := theme q |}.

Definition with_border_width (v : string) (q : query) : query :=
  {| q_uid := q_uid q; country_code := country_code q; bg_color := bg_color q;
     title_color := title_color q; sub_title_color := sub_title_color q;
     text_color := text_color q; username_color := username_color q;
     id_color := id_color q; cp_color := cp_color q; ip_color := ip_color q;
     div_color := div_color q; border_color := border_color q;
     border_width := Some v; progbar_bg := progbar_bg q;
     progbar_color := progbar_color q; hide_border := hide_border q;
     theme := theme q |}.

(** Sample surroundings for concrete runs: every character 10px wide,
    every image a 184px square, helpers returning fixed texts. *)
Module Sample.

Definition measureText (fnt text : string) : float :=
  Z2F (10 * Z.of_nat (String.length text)).

Definition loadImage (path : string) : exn + image :=
  inr {| src := path; img_width := 184; img_height := 184 |}.

(** A decoder on which everything loads but the watermark. *)
Definition loadNoWatermark (path : string) : exn + image :=
  if String.eqb path "/app/public/canvas/steeeam-canvas.png"
  then inl "ENOENT" else loadImage path.

(** A decoder on which everything loads but the avatar. *)
Definition loadStatic (path : string) : exn + image :=
  if String.eqb path "https://avatars.example/full.jpg"
  then inl "unsupported image type" else loadImage path.

(** Coarse text metrics: up to 15 characters measure 100px, more than
    that 200px. *)
Definition stepText (fnt text : string) : float :=
  if (String.length text <=? 15)%nat then 100%float else 200%float.

Definition cwd : string := "/app".
Definition fromNow (t : Z) : string := "a day ago".
Definition relative (t : Z) : string := "2 years".
Definition pricePerHour (value hours : option string) : string := "$0.50".
Definition format (x : float) : string := "$" +:+ toFixed0 x.
Definition average (l : list Z) : float := Z2F (fold_right Z.add 0 l / Z.of_nat (length l)).
Definition compact (m : Z) : string := Z_toString (m / 60).
Definition precise (m : float) : string := toFixed0 (m / 60).

Definition user : UserData :=
  {| steamId := "76561198000000000"; personaName := "gabe";
     visible := true; avatar := "https://avatars.example/full.jpg";
     lastLogOff := Some 1700000000; createdAt := Some 1100000000;
     countryCode := Some "US"; stateCode := None; onlineState := None;
     location := Some "Bellevue" |}.

(** A library of [total] games of which the first [n] have been played. *)
Definition library (n total : nat) : list Game :=
  map (fun i => {| game_id := Z.of_nat i;
                   minutes := if (i <? n)%nat then 90 else 0 |}) (seq 0 total).

Definition games (n total : nat) : jsdata :=
  make_gameData format average compact precise (library n total) [].

Definition render (load : string -> exn + image) (g : jsdata) (q : query)
  : exn + list cmd :=
  fst (createFullCanvas measureText load cwd 1700000500000 fromNow relative
         pricePerHour user g q (fresh ∅)).

(** The answer to a request on a cold image cache. *)
Definition answer (load : string -> exn + image) (g : jsdata) (q : query)
  : http_response :=
  fst (handler_respond measureText load cwd 1700000500000 fromNow relative
         pricePerHour (DUser user) g q ∅).

(** The fetchers with the sample helpers, and a state in which the
    library fetch of one user waits for the owned-games list. *)
Definition run (st : state) (es : list event) : state :=
  run format average compact precise st es.

Definition resume (p : nat) (resp : response) (now : Z) (st : state) : state :=
  resume format average compact precise p resp now st.

Definition awaiting_games : state :=
  run init [CallGames "gabe" "US" 1000; Deliver 0 (RespResolve (inr "7656")) 1500].

End Sample.

(** Tests on single commands. *)
Definition is_SetFillStyle (v : string) (c : cmd) : bool :=
  match c with SetFillStyle v' => String.eqb v v' | _ => false end.

Definition is_SetFont (v : string) (c : cmd) : bool :=
  match c with SetFont v' => String.eqb v v' | _ => false end.

Definition is_Fill (c : cmd) : bool :=
  match c with Fill => true | _ => false end.

(** A rendering came out, and one of its calls passes a test. *)
Definition succeeded {A} (r : exn + A) : bool :=
  match r with inr _ => true | inl _ => false end.

Definition draws (test : cmd -> bool) (r : exn + list cmd) : bool :=
  match r with inr b => existsb test b | inl _ => false end.

(** A rendering step only adds calls to the log, each of them passing the
    test [ok], and it keeps the property [J] of the image cache. *)
Definition emits_only (ok : cmd -> bool) (J : gmap string (image * Z) -> Prop)
    {A} (m : M A) : Prop :=
  forall s r s', m s = (r, s') -> J (imageCache s) ->
    J (imageCache s') /\ exists l, log s' = l ++ log s /\ forallb ok l = true.

(** A rendering step that does not throw. *)
Definition succeeds {A} (m : M A) : Prop :=
  forall s, exists a s', m s = (inr a, s').

(** A rendering step that, when it does not throw, has made the call [c]. *)
Definition emits (c : cmd) {A} (m : M A) : Prop :=
  forall s a s', m s = (inr a, s') -> exists l, log s' = l ++ log s /\ In c l.

Definition any_call (c : cmd) : bool := true.
Definition any_cache (images : gmap string (image * Z)) : Prop := True.

(** No stat block and no progress bar: nothing is filled as a path and the
    font of the stat figures is never chosen. *)
Definition no_stats (c : cmd) : bool :=
  negb (is_Fill c) && negb (is_SetFont "600 26px Geist" c).


(** No avatar: nothing is clipped, no image is drawn to a size. *)
Definition no_avatar (c : cmd) : bool :=
  match c with
  | Clip | Save | Restore | DrawImageSized _ _ _ _ _ => false
  | _ => true
  end.





(** The images shipped with the application. *)
Definition static_assets : list string :=
  ["steeeam-canvas.png"; "loc-icon.png"; "seen-icon.png"; "join-icon.png";
   "game-stats-icon.png"].

(** A rendering step that always throws when the image cache has the
    property [J]. *)
Definition doomed (J : gmap string (image * Z) -> Prop) {A} (m : M A) : Prop :=
  forall s r s', m s = (r, s') -> J (imageCache s) -> exists e, r = inl e.

(** No copy of the image at [path] is in the cache. *)
Definition uncached (path : string) (images : gmap string (image * Z)) : Prop :=
  images !! ("img_" +:+ path) = None.

(** The cache key a call is about, and the time of an event. *)
Definition event_key (e : event) : option string :=
  match e with
  | CallUser uid _ => Some (user_key uid)
  | CallGames uid cc _ => Some (games_key uid cc)
  | Deliver _ _ _ => None
  end.

Definition event_time (e : event) : Z :=
  match e with
  | CallUser _ now | CallGames _ _ now | Deliver _ _ now => now
  end.

(** The in-flight table and the promises agree: a running fetch is the one
    registered under its key, and a registered promise is a running fetch
    of that key. *)
Definition wf (st : state) : Prop :=
  (forall p s, promises st !! p = Some (Running s) ->
               pendingRequests st !! stage_key s = Some p) /\
  (forall k p, pendingRequests st !! k = Some p ->
               exists s, promises st !! p = Some (Running s) /\ stage_key s = k).

(** The promise [p] is a fetch in flight for the key [k]. *)
Definition in_flight (p : nat) (k : string) (st : state) : Prop :=
  exists s, promises st !! p = Some (Running s) /\ stage_key s = k.

(** The time a cached answer to a call stays valid. *)
Definition event_ttl (e : event) : Z :=
  match e with
  | CallGames _ _ _ => GAME_DATA_CACHE_TTL
  | _ => CACHE_TTL
  end.

(** The cache holds a valid answer for the key at the time [now]. *)
Definition answers (st : state) (k : string) (now ttl : Z) : bool :=
  truthy (cache st !! k) && isCacheValid now (timestamp_of (cache st !! k)) ttl.

(** The price data a store entry adds to the totals: none without [data],
    without [price_overview], or with an initial price that is not above
    0. *)
Definition priced (e : AppEntry) : option PriceOverview :=
  match data e with
  | Some d =>
      match price_overview d with
      | Some po => if 0 <? initial po then Some po else None
      | None => None
      end
  | None => None
  end.

(** The entries of the price calls that came back, in their order. *)
Definition delivered (rs : list (exn + list AppEntry)) : list AppEntry :=
  concat (map (fun r => match r with inr entries => entries | inl _ => [] end) rs).

Definition counted (rs : list (exn + list AppEntry)) : list PriceOverview :=
  omap priced (delivered rs).

Definition sum (l : list Z) : Z := fold_right Z.add 0 l.

(** What may be stored under a key: a profile under the key of a profile
    fetch, totals under the key of a library fetch. *)
Definition typed_entry (k : string) (v : cacheval) : Prop :=
  (forall uid, k = user_key uid -> exists u t, v = CEntry (DUser u) t) /\
  (forall uid cc, k = games_key uid cc ->
                  exists totals pc t, v = CEntry (DGames totals pc) t).

Definition typed_cache (st : state) : Prop :=
  forall k v, cache st !! k = Some v -> typed_entry k v.

(** The time a cached image stays valid. *)
Definition image_ttl (isAvatar : bool) : Z :=
  if isAvatar then AVATAR_CACHE_TTL else CACHE_TTL.

(** The secondary lookup has brought a location: it came back, with a
    list of locations whose first element is not empty. *)
Definition has_location (info : exn + FullInfo) : bool :=
  match info with
  | inr i =>
      match fi_location i with
      | Some (l :: _) => negb (String.eqb l "")
      | _ => false
      end
  | inl _ => false
  end.

Definition with_border_color (v : string) (q : query) : query :=
  {| q_uid := q_uid q; country_code := country_code q; bg_color := bg_color q;
     title_color := title_color q; sub_title_color := sub_title_color q;
     text_color := text_color q; username_color := username_color q;
     id_color := id_color q; cp_color := cp_color q; ip_color := ip_color q;
     div_color := div_color q; border_color := Some v;
     border_width := border_width q; progbar_bg := progbar_bg q;
     progbar_color := progbar_color q; hide_border := hide_border q;
     theme := theme q |}.

(** No border: no rectangle is stroked. *)
Definition no_border (c : cmd) : bool :=
  match c with
  | StrokeRect _ _ _ _ => false
  | _ => true
  end.

(** The transparency is left alone. *)
Definition no_alpha (c : cmd) : bool :=
  match c with
  | SetGlobalAlpha _ => false
  | _ => true
  end.

Definition with_hide_border (v : string) (q : query) : query :=
  {| q_uid := q_uid q; country_code := country_code q; bg_color := bg_color q;
     title_color := title_color q; sub_title_color := sub_title_color q;
     text_color := text_color q; username_color := username_color q;
     id_color := id_color q; cp_color := cp_color q; ip_color := ip_color q;
     div_color := div_color q; border_color := border_color q;
     border_width := border_width q; progbar_bg := progbar_bg q;
     progbar_color := progbar_color q; hide_border := Some v;
     theme := theme q |}.

(** The weights and sizes in which the card sets its texts, and the fonts
    they make with a family name. *)
Definition card_sizes : list string :=
  ["16px"; "700 20px"; "10px"; "12px"; "600 16px"; "600 26px"; "700 14px"; "14px"].

Definition fonts_of (family : string) : list string :=
  map (fun size => size +:+ " " +:+ family) card_sizes.

(** A font is chosen only among those of the family. *)
Definition font_in (family : string) (c : cmd) : bool :=
  match c with
  | SetFont v => existsb (String.eqb v) (fonts_of family)
  | _ => true
  end.

(** The calls of the avatar: the clipped drawing of an image between
    [save] and [restore]. *)
Definition avatar_calls (img : image) (x y w h r : float) : list cmd :=
  [Save; BeginPath;
   MoveTo (x + r) y;
   ArcTo (x + w) y (x + w) (y + h) r;
   ArcTo (x + w) (y + h) x (y + h) r;
   ArcTo x (y + h) x y r;
   ArcTo x y (x + w) y r;
   ClosePath; Clip; DrawImageSized img x y w h; Restore]%float.

(** At the height [y] no text is drawn but [t]. *)
Definition text_at (y : float) (t : string) (c : cmd) : bool :=
  match c with
  | FillText t' _ y' => if PrimFloat.eqb y' y then String.eqb t' t else true
  | _ => true
  end.


Definition is_FillText (t : string) (x y : float) (c : cmd) : bool :=
  match c with
  | FillText t' x' y' => String.eqb t' t && PrimFloat.eqb x' x && PrimFloat.eqb y' y
  | _ => false
  end.





(* ===================================================================== *)
(** * Properties *)
(* ===================================================================== *)

(** ** JavaScript conversions on samples *)

Example parseInt_samples :
  (parseInt "5.7", parseInt " 42px", parseInt "-17", parseInt "0x1F",
   isNaN (parseInt "abc"), isNaN (parseInt "")) =
  (5, 42, -17, 31, true, true)%float.
Proof. vm_compute. reflexivity. Qed.

Example StringToNumber_samples :
  (StringToNumber "5.75", StringToNumber " 12 ", StringToNumber "0x1F",
   StringToNumber "1e3", StringToNumber "-.5e1", StringToNumber "",
   StringToNumber "9.99999999999999999999") =
  (5.75, 12, 31, 1000, -5, 0, 10)%float.
Proof. vm_compute. reflexivity. Qed.

Example isNaN_samples :
  (isNaN_str "12px", isNaN_str "NaN", isNaN_str "Infinity", isNaN_str "1.",
   isNaN_str ".", isNaN_str "0x") =
  (true, true, false, false, true, true).
Proof. vm_compute. reflexivity. Qed.

Example toFixed_samples :
  (toFixed0 (Z2F 300 / Z2F 11), toFixed0 0.5, toFixed0 2.5, toFixed0 100,
   toFixed0 (0 / 0), toFixed0 (-1.5), Z_toString 1234, Z_toString 0) =
  ("27", "1", "3", "100", "NaN", "-2", "1234", "0").
Proof. vm_compute. reflexivity. Qed.

Example Math_floor_samples :
  (Math_floor (Z2F 599 / 10), Math_floor (-0.5), Math_floor 220,
   Math_floor (220 * (((Z2F 3 / Z2F 11) * 100) / 100)))%float =
  (59, -1, 220, 59)%float.
Proof. vm_compute. reflexivity. Qed.

(** The decimal reading agrees with the division of doubles where both are
    correctly rounded. *)
Example Q2F_samples :
  (PrimFloat.eqb (Q2F false 1 10) (1 / 10),
   PrimFloat.eqb (Q2F false 57 10) (57 / 10),
   PrimFloat.eqb (Q2F true 1 3) (-1 / 3),
   PrimFloat.eqb (Q2F false 123456789 1000) (123456789 / 1000)) =
  (true, true, true, true).
Proof. vm_compute. reflexivity. Qed.

(** ** Order on doubles *)

Section FloatOrder.

Ltac sf_cases :=
  repeat match goal with s : bool |- _ => destruct s end;
  try (intros; congruence); try reflexivity;
  rewrite ?Pos.compare_cont_spec; simpl.

Lemma SF_lt_le_trans a b c :
  SFltb a b = true -> SFleb b c = true -> SFltb a c = true.
Proof.
  unfold SFltb, SFleb, SFcompare.
  destruct a as [sa| sa| |sa ma ea], b as [sb| sb| |sb mb eb],
    c as [sc| sc| |sc mc ec]; sf_cases;
    destruct (Z.compare_spec ea eb), (Z.compare_spec eb ec), (Z.compare_spec ea ec);
    try lia; try congruence; subst;
    try (destruct (Pos.compare_spec ma mb), (Pos.compare_spec mb mc),
         (Pos.compare_spec ma mc); simpl; try lia; congruence).
Qed.

Lemma SF_not_lt_le a b :
  SFleb a a = true -> SFleb b b = true -> SFltb a b = false -> SFleb b a = true.
Proof.
  unfold SFltb, SFleb, SFcompare.
  destruct a as [sa| sa| |sa ma ea], b as [sb| sb| |sb mb eb]; sf_cases;
    destruct (Z.compare_spec ea eb), (Z.compare_spec eb ea);
    try lia; try congruence; subst;
    try (destruct (Pos.compare_spec ma mb), (Pos.compare_spec mb ma);
         simpl; try lia; congruence).
Qed.

Lemma SF_le_not_lt a b : SFleb b a = true -> SFltb a b = false.
Proof.
  unfold SFltb, SFleb, SFcompare.
  destruct a as [sa| sa| |sa ma ea], b as [sb| sb| |sb mb eb]; sf_cases;
    destruct (Z.compare_spec ea eb), (Z.compare_spec eb ea);
    try lia; try congruence; subst;
    try (destruct (Pos.compare_spec ma mb), (Pos.compare_spec mb ma);
         simpl; try lia; congruence).
Qed.

(** [x < y] and [y <= z] give [x < z]. *)
Lemma float_lt_le_trans (x y z : float) :
  PrimFloat.ltb x y = true -> PrimFloat.leb y z = true -> PrimFloat.ltb x z = true.
Proof. rewrite !ltb_spec, leb_spec. apply SF_lt_le_trans. Qed.

(** For numbers that are not [NaN], not [x < y] is [y <= x]. *)
Lemma float_not_lt_le (x y : float) :
  PrimFloat.leb x x = true -> PrimFloat.leb y y = true ->
  PrimFloat.ltb x y = false -> PrimFloat.leb y x = true.
Proof. rewrite ltb_spec, !leb_spec. apply SF_not_lt_le. Qed.

Lemma float_le_not_lt (x y : float) :
  PrimFloat.leb y x = true -> PrimFloat.ltb x y = false.
Proof. rewrite ltb_spec, leb_spec. apply SF_le_not_lt. Qed.

End FloatOrder.

(** ** Printing an integer and reading it back *)

Section Digits.







End Digits.

(** ** The rendering monad *)

Section Monad.

Lemma bind_ok {A B} (m : M A) (k : A -> M B) s b s' :
  (m ≫= k) s = (inr b, s') ->
  exists a s1, m s = (inr a, s1) /\ k a s1 = (inr b, s').
Proof.
  unfold mbind, M_bind. destruct (m s) as [[e | a] s1]; intros H.
  - discriminate.
  - eauto.
Qed.

Lemma bind_throw {A B} (m : M A) (k : A -> M B) s e s' :
  m s = (inl e, s') -> (m ≫= k) s = (inl e, s').
Proof. unfold mbind, M_bind. now intros ->. Qed.

Lemma bind_step {A B} (m : M A) (k : A -> M B) s a s1 :
  m s = (inr a, s1) -> (m ≫= k) s = k a s1.
Proof. unfold mbind, M_bind. now intros ->. Qed.

End Monad.

(** ** Library totals *)

Section Library.

Lemma tally_step_fields (t : tally) (g : Game) :
  t_playedCount (tally_step t g) =
    t_playedCount t + (if played g then 1 else 0) /\
  t_totalPlaytime (tally_step t g) =
    t_totalPlaytime t + (if played g then minutes g else 0) /\
  t_unplayedCount (tally_step t g) =
    t_unplayedCount t + (if minutes g =? 0 then 1 else 0).
Proof.
  unfold tally_step, played.
  destruct (0 <? minutes g), (minutes g =? 0); cbn; repeat split; lia.
Qed.

Lemma tally_fold (l : list Game) :
  forall t : tally,
    let r := fold_left tally_step l t in
    t_playedCount r = t_playedCount t + Z.of_nat (length (played_games l)) /\
    t_totalPlaytime r = t_totalPlaytime t + sum_minutes (played_games l) /\
    (Forall (fun g => 0 <= minutes g) l ->
     t_unplayedCount r =
       t_unplayedCount t + Z.of_nat (length (remaining_games l))).
Proof.
  induction l as [| g l IH]; intros t; cbn [fold_left]; cbn zeta.
  - cbn. repeat split; intros; lia.
  - destruct (IH (tally_step t g)) as (Hp & Ht & Hu). cbn zeta in Hp, Ht, Hu.
    destruct (tally_step_fields t g) as (Fp & Ft & Fu).
    rewrite Hp, Ht, Fp, Ft.
    unfold played_games, remaining_games in *. cbn [List.filter].
    split; [| split].
    + destruct (played g); cbn [length]; lia.
    + destruct (played g); cbn [sum_minutes fold_right]; fold (sum_minutes (List.filter played l)); lia.
    + intros Hall. inversion Hall as [| ? ? Hg Hl]; subst.
      rewrite (Hu Hl), Fu. unfold played.
      destruct (Z.ltb_spec 0 (minutes g)), (Z.eqb_spec (minutes g) 0);
        cbn [negb length]; lia.
Qed.

Lemma partition_length (l : list Game) :
  (length (played_games l) + length (remaining_games l) = length l)%nat.
Proof.
  unfold played_games, remaining_games.
  induction l as [| g l IH]; [reflexivity |].
  cbn [List.filter]. destruct (played g); cbn [negb length]; lia.
Qed.

End Library.

(** The counts of the totals object built from an owned-games list. *)
Lemma totals_partition
    (formatter_format : float -> string) (getAverage : list Z -> float)
    (minutesToHoursCompact : Z -> string) (minutesToHoursPrecise : float -> string)
    (userGames : list Game) (rs : list (exn + list AppEntry)) :
  Forall (fun g => 0 <= minutes g) userGames ->
  exists totals pc,
    make_gameData formatter_format getAverage minutesToHoursCompact
      minutesToHoursPrecise userGames rs = DGames totals pc /\
    playedCount pc = Z.of_nat (length (played_games userGames)) /\
    unplayedCount pc = Z.of_nat (length (remaining_games userGames)) /\
    totalGames totals = Z.of_nat (length userGames) /\
    totalPlaytime pc = sum_minutes (played_games userGames).
Proof.
  intros Hall. unfold make_gameData. eexists _, _. split; [reflexivity |].
  cbn [playedCount unplayedCount totalPlaytime totalGames].
  destruct (tally_fold userGames tally0) as (Hp & Ht & Hu).
  cbn zeta in Hp, Ht, Hu. specialize (Hu Hall).
  unfold tally_games. rewrite Hp, Ht, Hu. cbn [tally0 t_playedCount
    t_unplayedCount t_totalPlaytime].
  repeat split; lia.
Qed.

(** C8.  Take a library fetch that waits for the owned games, and let the
    list arrive, with minutes that are not negative, and then the outcomes
    of the price calls, whatever they are.  The fetch settles with totals,
    which it also stores under its key, and these totals partition the
    games of the list that arrived: [playedCount] is the number of games
    with more than 0 minutes, [unplayedCount] the number of all the others,
    the two add up to [totalGames], which is the length of the list, and
    [totalPlaytime] is the sum of the minutes of the played games. *)
Theorem library_totals_partition
    (formatter_format : float -> string) (getAverage : list Z -> float)
    (minutesToHoursCompact : Z -> string) (minutesToHoursPrecise : float -> string)
    (st : state) (p : nat) (uid cc steamId : string) (userGames : list Game)
    (rs : list (exn + list AppEntry)) (now1 now2 : Z) :
  promises st !! p = Some (Running (GOwned uid cc steamId)) ->
  Forall (fun g => 0 <= minutes g) userGames ->
  let st1 := resume formatter_format getAverage minutesToHoursCompact
               minutesToHoursPrecise p (RespOwned (inr userGames)) now1 st in
  let st2 := resume formatter_format getAverage minutesToHoursCompact
               minutesToHoursPrecise p (RespPrices rs) now2 st1 in
  exists totals pc,
    promises st2 !! p = Some (Settled (DGames totals pc)) /\
    cache st2 !! games_key uid cc = Some (CEntry (DGames totals pc) now2) /\
    playedCount pc = Z.of_nat (length (played_games userGames)) /\
    unplayedCount pc = Z.of_nat (length (remaining_games userGames)) /\
    playedCount pc + unplayedCount pc = totalGames totals /\
    totalGames totals = Z.of_nat (length userGames) /\
    totalPlaytime pc = sum_minutes (played_games userGames).
Proof.
  intros Hp Hall st1 st2.
  assert (Hlt : (p < length (promises st))%nat) by (eapply lookup_lt_Some, Hp).
  assert (H1 : promises st1 !! p = Some (Running (GPrices uid cc userGames))).
  { subst st1. unfold resume. rewrite Hp. cbn [continue suspend promises].
    now apply list_lookup_insert_eq. }
  destruct (totals_partition formatter_format getAverage minutesToHoursCompact
              minutesToHoursPrecise userGames rs Hall)
    as (totals & pc & E & Hplayed & Hrest & Htotal & Htime).
  exists totals, pc.
  assert (H2 : st2 = settle p (games_key uid cc) (DGames totals pc)
                       (set_cache (games_key uid cc)
                          (CEntry (DGames totals pc) now2) st1)).
  { subst st2. unfold resume. rewrite H1. cbn [continue]. now rewrite E. }
  pose proof (partition_length userGames).
  rewrite H2. cbn [settle set_cache promises cache].
  split; [apply list_lookup_insert_eq; eapply lookup_lt_Some, H1 |].
  split; [apply lookup_insert_eq |].
  repeat split; try assumption; lia.
Qed.

(** The owned games and the prices arrive at the waiting fetch of the
    sample user: three games, two of them played. *)
Lemma library_totals_partition_witness :
  let userGames := Sample.library 2 3 in
  let st1 := Sample.resume 0 (RespOwned (inr userGames)) 2000 Sample.awaiting_games in
  let st2 := Sample.resume 0 (RespPrices []) 2500 st1 in
  promises Sample.awaiting_games !! 0%nat
  = Some (Running (GOwned "gabe" "US" "7656")) /\
  Forall (fun g => 0 <= minutes g) userGames /\
  exists totals pc,
    promises st2 !! 0%nat = Some (Settled (DGames totals pc)) /\
    cache st2 !! games_key "gabe" "US" = Some (CEntry (DGames totals pc) 2500) /\
    playedCount pc = 2 /\ unplayedCount pc = 1 /\ totalGames totals = 3 /\
    totalPlaytime pc = 180.
Proof.
  cbv zeta.
  assert (Hp : promises Sample.awaiting_games !! 0%nat
               = Some (Running (GOwned "gabe" "US" "7656")))
    by (vm_compute; reflexivity).
  assert (H : Forall (fun g => 0 <= minutes g) (Sample.library 2 3)).
  { repeat constructor; cbn; lia. }
  split; [exact Hp |]. split; [exact H |].
  destruct (library_totals_partition Sample.format Sample.average Sample.compact
              Sample.precise Sample.awaiting_games 0 "gabe" "US" "7656"
              (Sample.library 2 3) [] 2000 2500 Hp H)
    as (totals & pc & Hs & Hc & Hplayed & Hrest & _ & Htotal & Htime).
  exists totals, pc.
  split; [exact Hs |]. split; [exact Hc |].
  split; [exact Hplayed |]. split; [exact Hrest |].
  split; [exact Htotal | exact Htime].
Defined.

(** ** Theme and colours *)

Lemma themed_palette (q q' : query) :
  theme q = Some "dark" \/ theme q = Some "light" ->
  theme q' = theme q ->
  cp_color q' = cp_color q ->
  ip_color q' = ip_color q ->
  resolve_palette q' = resolve_palette q.
Proof.
  intros Hth Ht Hcp Hip. unfold resolve_palette.
  rewrite Ht, Hcp, Hip.
  destruct Hth as [-> | ->]; reflexivity.
Qed.

(** C1 (as amended).  With the theme [dark] or [light] the image does not
    depend on the ten colour arguments the theme has a line for: two
    requests that agree on the theme, on [cp_color] and [ip_color] and on
    the border width and switch render alike, whatever [bg_color],
    [title_color], [sub_title_color], [text_color], [username_color],
    [id_color], [div_color], [border_color], [progbar_bg] and
    [progbar_color] they carry.  [cp_color] and [ip_color] are not part of
    a theme: they stay as supplied, or at their defaults. *)
Theorem theme_overrides_themed_colours
    (measureText : string -> string -> float) (loadImage : string -> exn + image)
    (cwd : string) (Date_now : Z) (moment_fromNow : Z -> string)
    (getRelativeTimeImprecise : Z -> string)
    (pricePerHour : option string -> option string -> string)
    (userData : UserData) (gameData : jsdata) (q q' : query) (s : rstate) :
  theme q = Some "dark" \/ theme q = Some "light" ->
  theme q' = theme q ->
  cp_color q' = cp_color q ->
  ip_color q' = ip_color q ->
  border_width q' = border_width q ->
  hide_border q' = hide_border q ->
  createFullCanvas measureText loadImage cwd Date_now moment_fromNow
    getRelativeTimeImprecise pricePerHour userData gameData q' s =
  createFullCanvas measureText loadImage cwd Date_now moment_fromNow
    getRelativeTimeImprecise pricePerHour userData gameData q s /\
  p_cp (resolve_palette q) = default "f87171" (cp_color q) /\
  p_ip (resolve_palette q) = default "4ade80" (ip_color q).
Proof.
  intros Hth Ht Hcp Hip Hbw Hhb. split; [| split; reflexivity].
  unfold createFullCanvas, draw_border.
  rewrite (themed_palette q q' Hth Ht Hcp Hip), Hbw, Hhb. reflexivity.
Qed.

(** Under the dark theme a supplied [bg_color] of [fff] changes nothing. *)
Lemma theme_overrides_themed_colours_witness :
  let q := with_theme "dark" (plain_query "gabe") in
  let q' := with_bg_color "fff" q in
  (theme q = Some "dark" \/ theme q = Some "light") /\
  Sample.render Sample.loadImage (Sample.games 2 3) q' =
  Sample.render Sample.loadImage (Sample.games 2 3) q.
Proof.
  cbv zeta. split; [left; reflexivity |].
  unfold Sample.render. apply (f_equal fst).
  apply theme_overrides_themed_colours; solve [left; reflexivity | reflexivity].
Defined.

(** C1 fails as stated: under the dark theme a supplied [cp_color] still
    colours the current-price figure, so the image differs from the one
    rendered without it. *)
Lemma theme_keeps_cp_color :
  let q := with_theme "dark" (plain_query "gabe") in
  Sample.render Sample.loadImage (Sample.games 2 3) (with_cp_color "000" q) <>
  Sample.render Sample.loadImage (Sample.games 2 3) q.
Proof.
  cbv zeta.
  assert (H1 : draws (is_SetFillStyle "#000")
                 (Sample.render Sample.loadImage (Sample.games 2 3)
                    (with_cp_color "000" (with_theme "dark" (plain_query "gabe"))))
               = true) by (vm_compute; reflexivity).
  assert (H2 : draws (is_SetFillStyle "#000")
                 (Sample.render Sample.loadImage (Sample.games 2 3)
                    (with_theme "dark" (plain_query "gabe")))
               = false) by (vm_compute; reflexivity).
  intros H. rewrite H in H1. congruence.
Qed.

(** ** The border *)

Section Border.

Lemma parseInt_ten : parseInt_of (Num 10) = 10%float.
Proof. vm_compute. reflexivity. Qed.

Lemma parseInt_one : parseInt_of (Num 1) = 1%float.
Proof. vm_compute. reflexivity. Qed.

Lemma border_lineWidth_cases (bw : option string) :
  border_lineWidth bw =
  match bw with
  | Some v => if PrimFloat.leb 10 (StringToNumber v) then 10%float else parseInt v
  | None => 1%float
  end.
Proof.
  unfold border_lineWidth. destruct bw as [v |].
  - cbn [ToNumber]. destruct (PrimFloat.leb 10 (StringToNumber v)).
    + apply parseInt_ten.
    + reflexivity.
  - change (PrimFloat.leb 10 (ToNumber (Num 1))) with false.
    cbv iota. apply parseInt_one.
Qed.

End Border.

(** C6 (as amended).  When the border is not hidden, the last three calls
    of a rendering are the border: stroke style, line width, stroke of the
    whole canvas.  The line width is 10 when the parameter, read as a
    number, is at least 10; otherwise it is [parseInt] of the parameter: an
    integer below 10 as given (negative ones too), a fraction cut to its
    integer part, [NaN] for a text that does not start with digits, and the
    leading integer of a text such as [12px].  Without the parameter it is
    1. *)
Theorem border_stroke_width
    (measureText : string -> string -> float) (loadImage : string -> exn + image)
    (cwd : string) (Date_now : Z) (moment_fromNow : Z -> string)
    (getRelativeTimeImprecise : Z -> string)
    (pricePerHour : option string -> option string -> string)
    (userData : UserData) (gameData : jsdata) (q : query) (s s' : rstate)
    (canvasBuffer : list cmd) :
  hide_border q <> Some "true" ->
  createFullCanvas measureText loadImage cwd Date_now moment_fromNow
    getRelativeTimeImprecise pricePerHour userData gameData q s
    = (inr canvasBuffer, s') ->
  exists earlier,
    canvasBuffer =
      earlier ++
      [SetStrokeStyle ("#" +:+ p_border (resolve_palette q));
       SetLineWidth
         match border_width q with
         | Some v =>
             if PrimFloat.leb 10 (StringToNumber v) then 10%float else parseInt v
         | None => 1%float
         end;
       StrokeRect 0 0 705 385].
Proof.
  intros Hshown H. unfold createFullCanvas in H.
  do 12 (apply bind_ok in H as (? & ? & _ & H)).
  apply bind_ok in H as ([] & s1 & Hb & H).
  unfold toBuffer in H. injection H as <- <-.
  match type of Hb with draw_border _ _ ?s = _ => exists (rev (log s)) end.
  rewrite <- border_lineWidth_cases.
  unfold draw_border in Hb.
  assert (Hw : match hide_border q with
               | Some v => negb (String.eqb v "true")
               | None => true
               end = true).
  { destruct (hide_border q) as [v |]; [| reflexivity].
    destruct (String.eqb_spec v "true") as [-> | Hne]; [congruence | reflexivity]. }
  rewrite Hw in Hb. cbn in Hb. injection Hb as <-.
  cbn [log rev]. rewrite <- !app_assoc. reflexivity.
Qed.

(** The border of a request with [border_width=5.7]. *)
Lemma border_stroke_width_witness :
  let q := with_border_width "5.7" (plain_query "gabe") in
  hide_border q <> Some "true" /\
  exists canvasBuffer earlier,
    Sample.render Sample.loadImage (Sample.games 2 3) q = inr canvasBuffer /\
    canvasBuffer =
      earlier ++
      [SetStrokeStyle ("#" +:+ p_border (resolve_palette q));
       SetLineWidth
         match border_width q with
         | Some v =>
             if PrimFloat.leb 10 (StringToNumber v) then 10%float else parseInt v
         | None => 1%float
         end;
       StrokeRect 0 0 705 385].
Proof.
  cbv zeta.
  assert (Hs : hide_border (with_border_width "5.7" (plain_query "gabe"))
               <> Some "true") by discriminate.
  split; [exact Hs |].
  assert (Hok : succeeded
            (Sample.render Sample.loadImage (Sample.games 2 3)
               (with_border_width "5.7" (plain_query "gabe"))) = true)
    by (vm_compute; reflexivity).
  unfold Sample.render in *.
  destruct (createFullCanvas Sample.measureText Sample.loadImage Sample.cwd
              1700000500000 Sample.fromNow Sample.relative Sample.pricePerHour
              Sample.user (Sample.games 2 3)
              (with_border_width "5.7" (plain_query "gabe")) (fresh ∅))
    as [[e | b] s'] eqn:E.
  - discriminate Hok.
  - destruct (border_stroke_width _ _ _ _ _ _ _ _ _ _ _ _ _ Hs E) as [earlier Hb].
    exists b, earlier. split; [reflexivity | exact Hb].
Defined.

(** C6 fails as stated: the parameter [5.7] is below 10, and the line
    width set is 5, not 5.7. *)
Lemma border_width_fraction_is_cut :
  PrimFloat.ltb (StringToNumber "5.7") 10 = true /\
  border_lineWidth (Some "5.7") = 5%float /\
  border_lineWidth (Some "5.7") <> StringToNumber "5.7".
Proof.
  split; [vm_compute; reflexivity |].
  split; [vm_compute; reflexivity |].
  assert (H1 : PrimFloat.eqb 5 (border_lineWidth (Some "5.7")) = true)
    by (vm_compute; reflexivity).
  assert (H2 : PrimFloat.eqb 5 (StringToNumber "5.7") = false)
    by (vm_compute; reflexivity).
  intros H. rewrite H in H1. congruence.
Qed.

Example border_width_samples :
  (border_lineWidth (Some "3"), border_lineWidth (Some "-2"),
   border_lineWidth (Some "10"), border_lineWidth (Some "250"),
   border_lineWidth (Some "1e3"), border_lineWidth (Some "12px"),
   border_lineWidth None, isNaN (border_lineWidth (Some "wide"))) =
  (3, -2, 10, 10, 10, 12, 1, true)%float.
Proof. vm_compute. reflexivity. Qed.

(** ** What a rendering step adds to the log *)

Section Emits.

Variable ok : cmd -> bool.
Variable J : gmap string (image * Z) -> Prop.

Lemma emits_ret {A} (a : A) : emits_only ok J (mret a).
Proof. intros s r s' [= <- <-] HJ. split; [exact HJ | exists []; auto]. Qed.

Lemma emits_throw {A} (e : exn) : emits_only ok J (@throw A e).
Proof. intros s r s' [= <- <-] HJ. split; [exact HJ | exists []; auto]. Qed.

Lemma emits_emit (c : cmd) : ok c = true -> emits_only ok J (emit c).
Proof.
  intros Hc s r s' [= <- <-] HJ. split; [exact HJ |].
  exists [c]. cbn. now rewrite Hc.
Qed.

Lemma emits_set_font (v : string) :
  ok (SetFont v) = true -> emits_only ok J (set_font v).
Proof.
  intros Hc s r s' [= <- <-] HJ. split; [exact HJ |].
  exists [SetFont v]. cbn. now rewrite Hc.
Qed.

Lemma emits_measure mt (text : string) : emits_only ok J (measure mt text).
Proof. intros s r s' [= <- <-] HJ. split; [exact HJ | exists []; auto]. Qed.

Lemma emits_toBuffer : emits_only ok J toBuffer.
Proof. intros s r s' [= <- <-] HJ. split; [exact HJ | exists []; auto]. Qed.

Lemma emits_image load now (path : string) (isAvatar : bool) :
  (forall c img, J c -> load path = inr img ->
                 J (<["img_" +:+ path := (img, now)]> c)) ->
  emits_only ok J (getCachedImage load now path isAvatar).
Proof.
  intros Hload s r s'. unfold getCachedImage.
  destruct (imageCache s !! _) as [[img t] |];
    [destruct (isCacheValid _ _ _) |];
    try destruct (load path) eqn:E;
    intros [= <- <-] HJ; (split; [| exists []; auto]);
    cbn [imageCache]; auto.
Qed.

Lemma emits_bind {A B} (m : M A) (k : A -> M B) :
  emits_only ok J m -> (forall a, emits_only ok J (k a)) ->
  emits_only ok J (m ≫= k).
Proof.
  intros Hm Hk s r s'. unfold mbind, M_bind.
  destruct (m s) as [[e | a] s1] eqn:E.
  - intros [= <- <-]. exact (Hm _ _ _ E).
  - intros E2 HJ. destruct (Hm _ _ _ E HJ) as (J1 & l1 & L1 & F1).
    destruct (Hk a _ _ _ E2 J1) as (J2 & l2 & L2 & F2).
    split; [exact J2 |].
    exists (l2 ++ l1). rewrite L2, L1, app_assoc. split; [reflexivity |].
    rewrite forallb_app, F1, F2. reflexivity.
Qed.

Lemma emits_when (b : bool) (m : M unit) :
  emits_only ok J m -> emits_only ok J (when b m).
Proof. destruct b; [trivial | intros _; apply emits_ret]. Qed.

Lemma emits_try_catch (m : M unit) :
  emits_only ok J m -> emits_only ok J (try_catch m).
Proof.
  intros Hm s r s'. unfold try_catch.
  destruct (m s) as [[e | a] s1] eqn:E; intros [= <- <-]; exact (Hm _ _ _ E).
Qed.

End Emits.

Section Succeeds.

Lemma succeeds_ret {A} (a : A) : succeeds (mret a).
Proof. intros s. now exists a, s. Qed.

Lemma succeeds_emit (c : cmd) : succeeds (emit c).
Proof. intros s. eexists _, _. reflexivity. Qed.

Lemma succeeds_set_font (v : string) : succeeds (set_font v).
Proof. intros s. eexists _, _. reflexivity. Qed.

Lemma succeeds_measure mt (text : string) : succeeds (measure mt text).
Proof. intros s. eexists _, _. reflexivity. Qed.

Lemma succeeds_toBuffer : succeeds toBuffer.
Proof. intros s. eexists _, _. reflexivity. Qed.

Lemma succeeds_image load now (path : string) (isAvatar : bool) img :
  load path = inr img -> succeeds (getCachedImage load now path isAvatar).
Proof.
  intros E s. unfold getCachedImage. rewrite E.
  destruct (imageCache s !! _) as [[i t] |];
    [destruct (isCacheValid _ _ _) |]; eexists _, _; reflexivity.
Qed.

Lemma succeeds_bind {A B} (m : M A) (k : A -> M B) :
  succeeds m -> (forall a, succeeds (k a)) -> succeeds (m ≫= k).
Proof.
  intros Hm Hk s. destruct (Hm s) as (a & s1 & E).
  unfold mbind, M_bind. rewrite E. apply Hk.
Qed.

Lemma succeeds_when (b : bool) (m : M unit) : succeeds m -> succeeds (when b m).
Proof. destruct b; [trivial | intros _; apply succeeds_ret]. Qed.

Lemma succeeds_try_catch (m : M unit) : succeeds (try_catch m).
Proof.
  intros s. unfold try_catch.
  destruct (m s) as [[e | a] s1]; eexists _, _; reflexivity.
Qed.

End Succeeds.

Section EmitsCall.

Variable c : cmd.

Lemma emits_here : emits c (emit c).
Proof. intros s a s' [= <- <-]. exists [c]. cbn. auto. Qed.

(** The call is made by the first step of a sequence... *)
Lemma emits_first {A B} (m : M A) (k : A -> M B) :
  emits c m -> (forall a, emits_only any_call any_cache (k a)) ->
  emits c (m ≫= k).
Proof.
  intros Hm Hk s b s' H. apply bind_ok in H as (a & s1 & E1 & E2).
  destruct (Hm _ _ _ E1) as (l1 & L1 & I1).
  destruct (Hk a _ _ _ E2 I) as (_ & l2 & L2 & _).
  exists (l2 ++ l1). rewrite L2, L1, app_assoc. split; [reflexivity |].
  apply in_or_app. now right.
Qed.

(** ... or by what follows it. *)
Lemma emits_later {A B} (m : M A) (k : A -> M B) :
  emits_only any_call any_cache m -> (forall a, emits c (k a)) ->
  emits c (m ≫= k).
Proof.
  intros Hm Hk s b s' H. apply bind_ok in H as (a & s1 & E1 & E2).
  destruct (Hm _ _ _ E1 I) as (_ & l1 & L1 & _).
  destruct (Hk a _ _ _ E2) as (l2 & L2 & I2).
  exists (l2 ++ l1). rewrite L2, L1, app_assoc. split; [reflexivity |].
  apply in_or_app. now left.
Qed.

End EmitsCall.

(** Steps built from the primitives: a sequence is split, a primitive is
    closed by its lemma, a test on data is decided both ways. *)
Ltac emits_step tac :=
  first
    [ apply emits_bind; [| intros ?]
    | apply emits_ret
    | apply emits_throw
    | apply emits_emit; reflexivity
    | apply emits_set_font; reflexivity
    | apply emits_measure
    | apply emits_image; tac
    | apply emits_toBuffer
    | apply emits_when
    | apply emits_try_catch
    | match goal with
      | |- emits_only _ _ (if ?b then _ else _) => destruct b
      | |- emits_only _ _ (match ?x with _ => _ end) => destruct x
      end ].

Ltac emits_with tac := repeat (cbv zeta; emits_step tac).

Ltac emits_any := emits_with ltac:(intros; exact I).

Ltac succeeds_with tac :=
  repeat (cbv zeta;
          first
            [ apply succeeds_bind; [| intros ?]
            | apply succeeds_ret
            | apply succeeds_emit
            | apply succeeds_set_font
            | apply succeeds_measure
            | eapply succeeds_image; tac
            | apply succeeds_toBuffer
            | apply succeeds_when
            | apply succeeds_try_catch
            | match goal with
              | |- succeeds (if ?b then _ else _) => destruct b
              | |- succeeds (match ?x with _ => _ end) => destruct x
              end ]).

Ltac unfold_canvas :=
  unfold createFullCanvas, draw_background, draw_watermark, draw_username,
    draw_steamid, draw_location, draw_last_seen, draw_created_at,
    draw_vertical_divider, draw_stats_header, draw_horizontal_divider,
    draw_border, draw_private.

Ltac unfold_blocks :=
  unfold_canvas; unfold draw_avatar, drawCenteredRoundedImage.

Ltac unfold_stats :=
  unfold draw_stat_blocks, stat_block, draw_progress_bar,
    createRoundedProgressBar, roundRect, draw_progress_line.

(** ** The restricted library *)

Section Restricted.

Variable measureText : string -> string -> float.
Variable loadImage : string -> exn + image.
Variable cwd : string.
Variable Date_now : Z.
Variable moment_fromNow : Z -> string.
Variable getRelativeTimeImprecise : Z -> string.
Variable pricePerHour : option string -> option string -> string.

Lemma render_buffer userData gameData q s b s' :
  createFullCanvas measureText loadImage cwd Date_now moment_fromNow
    getRelativeTimeImprecise pricePerHour userData gameData q s = (inr b, s') ->
  b = rev (log s').
Proof.
  intros H. unfold createFullCanvas in H.
  do 13 (apply bind_ok in H as (? & ? & _ & H)).
  unfold toBuffer in H. now injection H as <- <-.
Qed.

Lemma private_emits_no_stats userData q :
  emits_only no_stats any_cache
    (createFullCanvas measureText loadImage cwd Date_now moment_fromNow
       getRelativeTimeImprecise pricePerHour userData (DError "private games") q).
Proof.
  unfold_blocks. change (draw_stats measureText pricePerHour ?pal (DError "private games"))
    with (draw_private pal). unfold draw_private. emits_any.
Qed.

Lemma private_emits_message userData q :
  emits (FillText "Private Games List" 390 200)
    (createFullCanvas measureText loadImage cwd Date_now moment_fromNow
       getRelativeTimeImprecise pricePerHour userData (DError "private games") q).
Proof.
  unfold createFullCanvas.
  do 10 (apply emits_later; [unfold_blocks; emits_any | intros ?]).
  apply emits_first; [| intros ?; unfold_blocks; emits_any].
  change (draw_stats measureText pricePerHour ?pal (DError "private games"))
    with (draw_private pal). unfold draw_private.
  do 2 (apply emits_later; [emits_any | intros ?]).
  apply emits_here.
Qed.

End Restricted.

Lemma settle_lookup (p : nat) (k : string) (d : jsdata) (st : state) (x : promise) :
  promises st !! p = Some x ->
  promises (settle p k d st) !! p = Some (Settled d) /\
  pendingRequests (settle p k d st) !! k = None /\
  cache (settle p k d st) = cache st.
Proof.
  intros H. unfold settle. cbn [promises pendingRequests cache].
  split; [| split; [apply lookup_delete_eq | reflexivity]].
  apply list_lookup_insert_eq. eapply lookup_lt_Some, H.
Qed.

(** C3 (as amended).  When the owned-games fetch is rejected, for whatever
    reason, the library fetch does not throw: its promise settles with the
    one marker [{ error: 'private games' }] and nothing is cached.  On that
    marker a rendering draws the text "Private Games List" and neither stat
    figures nor the progress bar. *)
Theorem restricted_library_marker
    (formatter_format : float -> string) (getAverage : list Z -> float)
    (minutesToHoursCompact : Z -> string) (minutesToHoursPrecise : float -> string)
    (measureText : string -> string -> float) (loadImage : string -> exn + image)
    (cwd : string) (Date_now : Z) (moment_fromNow : Z -> string)
    (getRelativeTimeImprecise : Z -> string)
    (pricePerHour : option string -> option string -> string)
    (st : state) (p : nat) (uid cc steamId : string) (e : exn) (now : Z)
    (userData : UserData) (q : query) (s s' : rstate) (canvasBuffer : list cmd) :
  promises st !! p = Some (Running (GOwned uid cc steamId)) ->
  createFullCanvas measureText loadImage cwd Date_now moment_fromNow
    getRelativeTimeImprecise pricePerHour userData (DError "private games") q s
    = (inr canvasBuffer, s') ->
  let st' := resume formatter_format getAverage minutesToHoursCompact
               minutesToHoursPrecise p (RespOwned (inl e)) now st in
  promises st' !! p = Some (Settled (DError "private games")) /\
  cache st' = cache st /\
  exists drawn,
    canvasBuffer = rev (log s) ++ drawn /\
    In (FillText "Private Games List" 390 200) drawn /\
    forallb no_stats drawn = true.
Proof.
  intros Hp H st'. subst st'. unfold resume. rewrite Hp. cbn [continue].
  destruct (settle_lookup p (games_key uid cc) (DError "private games") st _ Hp)
    as (Hs & _ & Hc).
  split; [exact Hs | split; [exact Hc |]].
  pose proof (render_buffer _ _ _ _ _ _ _ _ _ _ _ _ _ H) as ->.
  destruct (private_emits_no_stats _ _ _ _ _ _ _ _ _ _ _ _ H I) as (_ & l & L & F).
  destruct (private_emits_message _ _ _ _ _ _ _ _ _ _ _ _ H) as (l' & L' & Hin).
  rewrite L in L'. apply app_inv_tail in L'. subst l'.
  exists (rev l). rewrite L, rev_app_distr. split; [reflexivity |].
  split; [now apply in_rev in Hin |].
  apply forallb_forall. intros c Hc'. apply in_rev in Hc'.
  revert c Hc'. now apply forallb_forall.
Qed.

(** A library fetch waiting for the owned games, rejected, and the card
    drawn from its marker. *)
Lemma restricted_library_marker_witness :
  promises Sample.awaiting_games !! O = Some (Running (GOwned "gabe" "US" "7656")) /\
  exists canvasBuffer drawn,
    Sample.render Sample.loadImage (DError "private games") (plain_query "gabe")
      = inr canvasBuffer /\
    promises (Sample.resume 0 (RespOwned (inl "Forbidden")) 2000 Sample.awaiting_games)
      !! O = Some (Settled (DError "private games")) /\
    canvasBuffer = drawn /\
    In (FillText "Private Games List" 390 200) drawn /\
    forallb no_stats drawn = true.
Proof.
  assert (Hp : promises Sample.awaiting_games !! O
               = Some (Running (GOwned "gabe" "US" "7656")))
    by (vm_compute; reflexivity).
  split; [exact Hp |].
  assert (Hok : succeeded (Sample.render Sample.loadImage (DError "private games")
                             (plain_query "gabe")) = true)
    by (vm_compute; reflexivity).
  unfold Sample.render in *.
  destruct (createFullCanvas Sample.measureText Sample.loadImage Sample.cwd
              1700000500000 Sample.fromNow Sample.relative Sample.pricePerHour
              Sample.user (DError "private games") (plain_query "gabe") (fresh ∅))
    as [[x | b] s'] eqn:E.
  - discriminate Hok.
  - destruct (restricted_library_marker Sample.format Sample.average
                Sample.compact Sample.precise _ _ _ _ _ _ _ _ _ _ _ _
                "Forbidden" 2000 _ _ _ _ _ Hp E) as (Hs & _ & drawn & Hb & Hin & Hno).
    exists b, drawn. repeat split; assumption.
Defined.

(** C3 fails as stated: a private library and a network failure of the
    owned-games call end in the same marker, and in the same state. *)
Lemma restricted_is_not_distinct :
  promises Sample.awaiting_games !! O = Some (Running (GOwned "gabe" "US" "7656")) /\
  Sample.resume 0 (RespOwned (inl "Forbidden: profile is private")) 2000
    Sample.awaiting_games =
  Sample.resume 0 (RespOwned (inl "ECONNRESET")) 2000 Sample.awaiting_games /\
  promises (Sample.resume 0 (RespOwned (inl "ECONNRESET")) 2000 Sample.awaiting_games)
    !! O = Some (Settled (DError "private games")).
Proof.
  repeat split; vm_compute; reflexivity.
Qed.

(** ** The image of a rendering *)

Section Buffer.

Variable measureText : string -> string -> float.
Variable loadImage : string -> exn + image.
Variable cwd : string.
Variable Date_now : Z.
Variable moment_fromNow : Z -> string.
Variable getRelativeTimeImprecise : Z -> string.
Variable pricePerHour : option string -> option string -> string.

#[local] Abbreviation createFullCanvas' :=
  (createFullCanvas measureText loadImage cwd Date_now moment_fromNow
     getRelativeTimeImprecise pricePerHour).

Lemma buffer_of_fresh userData gameData q images b s' :
  createFullCanvas' userData gameData q (fresh images) = (inr b, s') ->
  forall ok, emits_only ok any_cache (createFullCanvas' userData gameData q) ->
             forallb ok b = true.
Proof.
  intros H ok Hok. pose proof (render_buffer _ _ _ _ _ _ _ _ _ _ _ _ _ H) as ->.
  destruct (Hok _ _ _ H I) as (_ & l & Hl & Hall).
  rewrite Hl. cbn [fresh log]. rewrite app_nil_r, forallb_forall.
  intros c Hc. apply in_rev in Hc. revert c Hc. now apply forallb_forall.
Qed.

Lemma buffer_has userData gameData q s b s' (c : cmd) :
  createFullCanvas' userData gameData q s = (inr b, s') ->
  emits c (createFullCanvas' userData gameData q) ->
  In c b.
Proof.
  intros H Hc. pose proof (render_buffer _ _ _ _ _ _ _ _ _ _ _ _ _ H) as ->.
  destruct (Hc _ _ _ H) as (l & Hl & Hin).
  rewrite Hl. apply in_rev. rewrite rev_involutive.
  apply in_or_app. now left.
Qed.

End Buffer.

(** One more step of a sequence whose calls so far pass a test. *)
Lemma emits_chain (ok : cmd -> bool) {A} (m : M A) (s0 s1 s2 : rstate) (a : A) :
  emits_only ok any_cache m ->
  m s1 = (inr a, s2) ->
  (exists l, log s1 = l ++ log s0 /\ forallb ok l = true) ->
  exists l, log s2 = l ++ log s0 /\ forallb ok l = true.
Proof.
  intros Hm E (l1 & L1 & F1).
  destruct (Hm _ _ _ E I) as (_ & l2 & L2 & F2).
  exists (l2 ++ l1). rewrite L2, L1, app_assoc. split; [reflexivity |].
  now rewrite forallb_app, F2, F1.
Qed.

Lemma forallb_rev (ok : cmd -> bool) (l : list cmd) :
  forallb ok l = true -> forallb ok (rev l) = true.
Proof.
  rewrite !forallb_forall. intros H c Hc. apply H. now apply in_rev.
Qed.

Section Adds.





End Adds.


(** ** The progress bar *)

Section Progress.








End Progress.

Section ProgressRender.

Variable measureText : string -> string -> float.
Variable loadImage : string -> exn + image.
Variable cwd : string.
Variable Date_now : Z.
Variable moment_fromNow : Z -> string.
Variable getRelativeTimeImprecise : Z -> string.
Variable pricePerHour : option string -> option string -> string.






End ProgressRender.




(** ** Images that do not load *)

Section Assets.

Variable measureText : string -> string -> float.
Variable loadImage : string -> exn + image.
Variable cwd : string.
Variable Date_now : Z.
Variable moment_fromNow : Z -> string.
Variable getRelativeTimeImprecise : Z -> string.
Variable pricePerHour : option string -> option string -> string.

Lemma uncached_insert (bad path : string) (e : exn) (img : image) v images :
  loadImage bad = inl e -> loadImage path = inr img ->
  uncached bad images -> uncached bad (<["img_" +:+ path := v]> images).
Proof.
  intros Hb Hp Hu. unfold uncached.
  rewrite lookup_insert_ne; [exact Hu |].
  intros H. injection H as H. change (path = bad) in H. congruence.
Qed.

Lemma load_fails (bad : string) (e : exn) (isAvatar : bool) s :
  loadImage bad = inl e -> uncached bad (imageCache s) ->
  getCachedImage loadImage Date_now bad isAvatar s = (inl e, s).
Proof.
  intros Hb Hu. unfold getCachedImage. unfold uncached in Hu.
  now rewrite Hu, Hb.
Qed.

Lemma doomed_image (bad : string) (e : exn) (isAvatar : bool) :
  loadImage bad = inl e ->
  doomed (uncached bad) (getCachedImage loadImage Date_now bad isAvatar).
Proof.
  intros Hb s r s' H Hu. rewrite (load_fails bad e isAvatar s Hb Hu) in H.
  injection H as <- _. now exists e.
Qed.

Lemma doomed_first J {A B} (m : M A) (k : A -> M B) :
  doomed J m -> doomed J (m ≫= k).
Proof.
  intros Hm s r s' H HJ. unfold mbind, M_bind in H.
  destruct (m s) as [[e | a] s1] eqn:E.
  - injection H as <- _. now exists e.
  - destruct (Hm _ _ _ E HJ) as [e He]. discriminate He.
Qed.

Lemma doomed_later J {A B} (m : M A) (k : A -> M B) :
  emits_only any_call J m -> (forall a, doomed J (k a)) -> doomed J (m ≫= k).
Proof.
  intros Hm Hk s r s' H HJ. unfold mbind, M_bind in H.
  destruct (m s) as [[e | a] s1] eqn:E.
  - injection H as <- _. now exists e.
  - destruct (Hm _ _ _ E HJ) as (J1 & _). exact (Hk a _ _ _ H J1).
Qed.

(** The avatar step when the avatar does not load: nothing is drawn and
    nothing is thrown. *)
Lemma avatar_skipped (userData : UserData) (e : exn) :
  loadImage (avatar userData) = inl e ->
  emits_only no_avatar (uncached (avatar userData))
    (draw_avatar loadImage Date_now userData).
Proof.
  intros Hb s r s' H Hu. unfold draw_avatar, when in H.
  destruct (negb _).
  - unfold drawCenteredRoundedImage, try_catch in H.
    rewrite (bind_throw _ _ _ _ _ (load_fails _ e true s Hb Hu)) in H.
    injection H as <- <-. split; [exact Hu | exists []; auto].
  - injection H as <- <-. split; [exact Hu | exists []; auto].
Qed.

End Assets.

Ltac doom tac :=
  first
    [ eapply doomed_image; eassumption
    | apply doomed_first; doom tac
    | apply doomed_later; [solve [emits_with tac] | intros ?; doom tac] ].

Ltac keep_uncached := intros; eapply uncached_insert; eassumption.

(** C2 (as amended).  For a request whose profile was fetched, with none of
    the five static images in the image cache yet: the answer is 200 with
    the image exactly when every static image loads, and otherwise it is
    the 500 answer of the handler's [catch], because a static image that
    fails to load makes [createFullCanvas] throw.  The avatar alone is
    recovered from: when it fails to load the answer is still decided by
    the static images only, and a 200 image contains no avatar call. *)
Theorem asset_failures
    (measureText : string -> string -> float) (loadImage : string -> exn + image)
    (cwd : string) (Date_now : Z) (moment_fromNow : Z -> string)
    (getRelativeTimeImprecise : Z -> string)
    (pricePerHour : option string -> option string -> string)
    (userData : UserData) (gameData : jsdata) (q : query)
    (images : gmap string (image * Z)) :
  gameData <> DUndefined ->
  (forall name, In name static_assets -> uncached (asset cwd name) images) ->
  let answer :=
    fst (handler_respond measureText loadImage cwd Date_now moment_fromNow
           getRelativeTimeImprecise pricePerHour (DUser userData) gameData q images) in
  (status answer = 200 <->
   forall name, In name static_assets ->
     exists img, loadImage (asset cwd name) = inr img) /\
  (status answer = 200 \/
   status answer = 500 /\ payload answer = Json "Failed to generate image") /\
  (forall e, loadImage (avatar userData) = inl e ->
     uncached (avatar userData) images ->
     status answer = 200 ->
     exists canvasBuffer,
       payload answer = Png canvasBuffer /\ forallb no_avatar canvasBuffer = true).
Proof.
  intros Hg Hcold. cbv zeta. unfold handler_respond.
  destruct (createFullCanvas measureText loadImage cwd Date_now moment_fromNow
              getRelativeTimeImprecise pricePerHour userData gameData q
              (fresh images)) as [[x | b] s'] eqn:E;
    cbn [fst status payload].
  - (* the rendering threw *)
    split; [split; [discriminate |] | split; [right; split; reflexivity |
                                               intros; discriminate]].
    intros Hall. exfalso.
    destruct (Hall "steeeam-canvas.png" ltac:(simpl; tauto)) as [i1 E1].
    destruct (Hall "loc-icon.png" ltac:(simpl; tauto)) as [i2 E2].
    destruct (Hall "seen-icon.png" ltac:(simpl; tauto)) as [i3 E3].
    destruct (Hall "join-icon.png" ltac:(simpl; tauto)) as [i4 E4].
    destruct (Hall "game-stats-icon.png" ltac:(simpl; tauto)) as [i5 E5].
    assert (Hs : succeeds
              (createFullCanvas measureText loadImage cwd Date_now moment_fromNow
                 getRelativeTimeImprecise pricePerHour userData gameData q)).
    { unfold_blocks. unfold draw_stats. unfold_stats.
      destruct gameData; [| | | congruence];
        succeeds_with eassumption. }
    destruct (Hs (fresh images)) as (b & s1 & Hb). congruence.
  - (* the rendering came out *)
    split; [split; [intros _ | reflexivity] | split; [left; reflexivity |]].
    + intros name Hin.
      destruct (loadImage (asset cwd name)) as [e | img] eqn:El; [| now exists img].
      exfalso.
      assert (Hd : doomed (uncached (asset cwd name))
                (createFullCanvas measureText loadImage cwd Date_now moment_fromNow
                   getRelativeTimeImprecise pricePerHour userData gameData q)).
      { simpl in Hin.
        repeat (destruct Hin as [<- | Hin]; [unfold_canvas; doom keep_uncached |]).
        contradiction. }
      destruct (Hd _ _ _ E (Hcold name Hin)) as [e' He']. discriminate He'.
    + intros e Hav Hun _. exists b. split; [reflexivity |].
      pose proof (render_buffer _ _ _ _ _ _ _ _ _ _ _ _ _ E) as ->.
      assert (He : emits_only no_avatar (uncached (avatar userData))
                (createFullCanvas measureText loadImage cwd Date_now moment_fromNow
                   getRelativeTimeImprecise pricePerHour userData gameData q)).
      { unfold_canvas. unfold draw_stats. unfold_stats.
        repeat (cbv zeta;
                first [ match goal with
                        | |- emits_only _ _ (draw_avatar _ _ _) =>
                            eapply avatar_skipped; eassumption
                        end
                      | emits_step keep_uncached ]). }
      destruct (He _ _ _ E Hun) as (_ & l & L & F).
      cbn [fresh log] in L. rewrite app_nil_r in L. rewrite L.
      apply forallb_forall. intros c Hc. apply in_rev in Hc.
      revert c Hc. now apply forallb_forall.
Qed.

(** The static images load, the avatar does not: a 200 image without
    avatar calls. *)
Lemma asset_failures_witness :
  Sample.games 2 3 <> DUndefined /\
  (forall name, In name static_assets ->
     uncached (asset Sample.cwd name) (∅ : gmap string (image * Z))) /\
  Sample.loadStatic (avatar Sample.user) = inl "unsupported image type" /\
  status (Sample.answer Sample.loadStatic (Sample.games 2 3) (plain_query "gabe"))
    = 200 /\
  exists canvasBuffer,
    payload (Sample.answer Sample.loadStatic (Sample.games 2 3) (plain_query "gabe"))
      = Png canvasBuffer /\
    forallb no_avatar canvasBuffer = true.
Proof.
  assert (Hg : Sample.games 2 3 <> DUndefined) by discriminate.
  assert (Hcold : forall name, In name static_assets ->
            uncached (asset Sample.cwd name) (∅ : gmap string (image * Z)))
    by (intros; apply lookup_empty).
  assert (Hav : Sample.loadStatic (avatar Sample.user) = inl "unsupported image type")
    by reflexivity.
  destruct (asset_failures Sample.measureText Sample.loadStatic Sample.cwd
              1700000500000 Sample.fromNow Sample.relative Sample.pricePerHour
              Sample.user (Sample.games 2 3) (plain_query "gabe") ∅ Hg Hcold)
    as (Hiff & _ & Hskip).
  assert (H200 : status (Sample.answer Sample.loadStatic (Sample.games 2 3)
                           (plain_query "gabe")) = 200).
  { apply Hiff. intros name Hin. simpl in Hin.
    repeat (destruct Hin as [<- | Hin]; [eexists; reflexivity |]).
    contradiction. }
  repeat (split; [assumption |]).
  exact (Hskip _ Hav (lookup_empty _) H200).
Defined.

(** C2 fails as stated: when the watermark image does not load, with every
    other image and the avatar loading, the request ends in the 500 answer. *)
Lemma static_image_failure_is_fatal :
  Sample.loadNoWatermark (asset Sample.cwd "steeeam-canvas.png") = inl "ENOENT" /\
  Sample.answer Sample.loadNoWatermark (Sample.games 2 3) (plain_query "gabe") =
  {| status := 500; cache_control := cache_control_value; content_type := None;
     payload := Json "Failed to generate image" |}.
Proof. split; vm_compute; reflexivity. Qed.

(** ** The name that does not fit *)

Section Strings.

Lemma append_cons (c : ascii) (s t : string) :
  String c s +:+ t = String c (s +:+ t).
Proof. reflexivity. Qed.

Lemma append_nil_r (s : string) : s +:+ "" = s.
Proof.
  induction s as [| c s IH]; [reflexivity |].
  now rewrite append_cons, IH.
Qed.

Lemma append_assoc (s t u : string) : (s +:+ t) +:+ u = s +:+ (t +:+ u).
Proof.
  induction s as [| c s IH]; [reflexivity |].
  now rewrite !append_cons, IH.
Qed.

Lemma substring_0_0 (s : string) : substring 0 0 s = "".
Proof. destruct s; reflexivity. Qed.

Lemma substring_empty (n m : nat) : substring n m "" = "".
Proof. destruct n, m; reflexivity. Qed.

Lemma substring_all (s : string) : substring 0 (String.length s) s = s.
Proof.
  induction s as [| c s IH]; [reflexivity |].
  cbn [String.length substring]. now rewrite IH.
Qed.

(** A longer prefix is a shorter one with a piece of the string after it. *)
Lemma substring_split (s : string) :
  forall i d : nat,
    substring 0 (i + d) s = substring 0 i s +:+ substring i d s.
Proof.
  induction s as [| c s IH]; intros i d.
  - now rewrite !substring_empty.
  - destruct i as [| i].
    + now rewrite substring_0_0.
    + cbn [Nat.add substring]. now rewrite append_cons, IH.
Qed.

End Strings.

Section Truncation.

Variable measureText : string -> string -> float.
Variable fnt : string.
Variable username : string.

#[local] Abbreviation width := (measureText fnt).
#[local] Abbreviation cut k := (substring 0 k username +:+ "...").
#[local] Abbreviation fits k := (PrimFloat.ltb 180 (width (cut k)) = false).

(** Where the loop stops: at the first index [b] from [i] on whose
    truncated text is too wide, or at the end. *)
Lemma truncate_loop_stops (r : nat) :
  forall i tl : nat,
    exists b : nat,
      (i <= b <= i + r)%nat /\
      (forall j : nat, (i <= j < b)%nat -> fits j) /\
      ((b < i + r)%nat -> PrimFloat.ltb 180 (width (cut b)) = true) /\
      truncate_loop measureText fnt username r i tl
      = if (b =? i)%nat then tl else (b - 1)%nat.
Proof.
  induction r as [| r IH]; intros i tl.
  - exists i. rewrite Nat.eqb_refl. repeat split; intros; lia.
  - cbn [truncate_loop]. cbv zeta.
    destruct (PrimFloat.ltb 180 (width (cut i))) eqn:E.
    + exists i. rewrite Nat.eqb_refl. repeat split; intros; auto; lia.
    + destruct (IH (S i) i) as (b & Hb & Hfit & Hstop & Hres).
      exists b. repeat split; try lia.
      * intros j Hj. destruct (Nat.eq_dec j i) as [-> | Hne]; [exact E |].
        apply Hfit. lia.
      * intros Hlt. apply Hstop. lia.
      * rewrite Hres.
        destruct (Nat.eqb_spec b (S i)) as [Heq | Hne], (Nat.eqb_spec b i); lia.
Qed.

End Truncation.

Section TruncatedName.

Lemma SF_le_lt_trans a b c :
  SFleb a b = true -> SFltb b c = true -> SFltb a c = true.
Proof.
  unfold SFltb, SFleb, SFcompare.
  destruct a as [sa| sa| |sa ma ea], b as [sb| sb| |sb mb eb],
    c as [sc| sc| |sc mc ec];
    repeat match goal with s : bool |- _ => destruct s end;
    try (intros; congruence); try reflexivity;
    rewrite ?Pos.compare_cont_spec; simpl;
    destruct (Z.compare_spec ea eb), (Z.compare_spec eb ec), (Z.compare_spec ea ec);
    try lia; try congruence; subst;
    try (destruct (Pos.compare_spec ma mb), (Pos.compare_spec mb mc),
         (Pos.compare_spec ma mc); simpl; try lia; congruence).
Qed.

(** [x <= y] and [y < z] give [x < z]. *)
Lemma float_le_lt_trans (x y z : float) :
  PrimFloat.leb x y = true -> PrimFloat.ltb y z = true -> PrimFloat.ltb x z = true.
Proof. rewrite !ltb_spec, leb_spec. apply SF_le_lt_trans. Qed.

Variable measureText : string -> string -> float.
Variable fnt : string.
Variable username : string.

#[local] Abbreviation width := (measureText fnt).
#[local] Abbreviation cut k := (substring 0 k username +:+ "...").

(** The text of a name, for metrics under which the truncated texts of the
    name do not get narrower with the length of the prefix. *)
Lemma username_text_spec :
  (forall i j : nat,
     (i <= j <= String.length username)%nat ->
     PrimFloat.leb (width (cut i)) (width (cut j)) = true) ->
  (PrimFloat.ltb 180 (width username) = true ->
   exists n : nat,
     (n <= String.length username)%nat /\
     username_text measureText fnt username = cut n /\
     (forall k : nat,
        (k <= String.length username)%nat ->
        PrimFloat.leb (width (cut k)) 180 = true ->
        PrimFloat.leb (width (cut n)) 180 = true /\
        ((k <= n)%nat \/
         (k = String.length username /\
          PrimFloat.ltb (width (username +:+ "...")) (width username) = true))) /\
     ((forall k : nat,
         (k <= String.length username)%nat ->
         PrimFloat.leb (width (cut k)) 180 = false) ->
      n = 0%nat)) /\
  (PrimFloat.leb (width username) 180 = true ->
   username_text measureText fnt username = username).
Proof.
  intros Hcut. split.
  - intros Hwide. unfold username_text. rewrite Hwide.
    destruct (truncate_loop_stops measureText fnt username
                (String.length username) 0 0) as (b & Hb & Hfit & Hstop & Hres).
    assert (Hn : truncate_loop measureText fnt username (String.length username) 0 0
                 = (b - 1)%nat).
    { rewrite Hres. destruct (Nat.eqb_spec b 0%nat); [subst; reflexivity | reflexivity]. }
    rewrite Hn. exists (b - 1)%nat. split; [lia |]. split; [reflexivity |].
    assert (Hle : forall j, (j <= String.length username)%nat ->
                    PrimFloat.ltb 180 (width (cut j)) = false ->
                    PrimFloat.leb (width (cut j)) 180 = true).
    { intros j Hj. apply float_not_lt_le; [reflexivity | apply Hcut; lia]. }
    split.
    + intros k Hk Hkfit.
      assert (Hdots : PrimFloat.leb (width (cut 0)) 180 = true).
      { apply Hle; [lia |].
        destruct (PrimFloat.ltb 180 (width (cut 0))) eqn:E; [| reflexivity].
        apply float_le_not_lt in Hkfit.
        rewrite (float_lt_le_trans _ _ _ E (Hcut 0%nat k ltac:(lia))) in Hkfit.
        discriminate Hkfit. }
      split.
      * destruct (Nat.eq_dec b 0%nat) as [-> | Hb0]; [exact Hdots |].
        apply Hle; [lia | apply Hfit; lia].
      * destruct (Nat.le_gt_cases k (b - 1)) as [| Hgt]; [now left |].
        destruct (Nat.eq_dec b (String.length username)) as [Heq | Hne].
        -- right. assert (k = String.length username) by lia. subst k.
           split; [reflexivity |].
           rewrite substring_all in Hkfit.
           exact (float_le_lt_trans _ _ _ Hkfit Hwide).
        -- exfalso. specialize (Hstop ltac:(lia)).
           assert (Hbk : PrimFloat.leb (width (cut b)) (width (cut k)) = true)
             by (apply Hcut; lia).
           apply float_le_not_lt in Hkfit.
           rewrite (float_lt_le_trans _ _ _ Hstop Hbk) in Hkfit.
           discriminate Hkfit.
    + intros Hnone.
      destruct (Nat.eq_dec b 0%nat) as [-> | Hb0]; [reflexivity |].
      exfalso. specialize (Hnone 0%nat ltac:(lia)).
      rewrite (Hle 0%nat ltac:(lia) (Hfit 0%nat ltac:(lia))) in Hnone.
      discriminate Hnone.
  - intros Hok. unfold username_text.
    now rewrite (float_le_not_lt _ _ Hok).
Qed.

End TruncatedName.

Lemma text_at_here (y : float) (t : string) (x : float) :
  PrimFloat.eqb y y = true -> text_at y t (FillText t x y) = true.
Proof. intros H. cbn [text_at]. rewrite H. apply String.eqb_refl. Qed.

(** The one text of a card at a height: the step closes the call that
    draws it, and any other call passes the test by its own height. *)
Ltac emits_text :=
  repeat (cbv zeta;
          first [ match goal with
                  | |- emits_only (text_at ?y ?t) _ (emit (FillText ?t _ ?y)) =>
                      apply emits_emit, text_at_here; reflexivity
                  end
                | emits_step ltac:(intros; exact I) ]).

Section NameOnCard.

Variable measureText : string -> string -> float.
Variable loadImage : string -> exn + image.
Variable cwd : string.
Variable Date_now : Z.
Variable moment_fromNow : Z -> string.
Variable getRelativeTimeImprecise : Z -> string.
Variable pricePerHour : option string -> option string -> string.

#[local] Abbreviation createFullCanvas' :=
  (createFullCanvas measureText loadImage cwd Date_now moment_fromNow
     getRelativeTimeImprecise pricePerHour).

(** The name is drawn at (20, 180), in the font it was measured in... *)
Lemma name_is_drawn userData gameData q :
  emits (FillText (username_text measureText "700 20px Geist" (personaName userData))
           20 180)
    (createFullCanvas' userData gameData q).
Proof.
  unfold createFullCanvas.
  do 2 (apply emits_later; [unfold_blocks; emits_any | intros ?]).
  apply emits_first;
    [| intros ?; unfold_blocks; unfold draw_stats; unfold_stats; emits_any].
  unfold draw_username.
  do 2 (apply emits_later; [emits_any | intros ?]).
  apply emits_here.
Qed.

(** ... and no other text is drawn at that height. *)
Lemma name_is_alone userData gameData q :
  emits_only
    (text_at 180 (username_text measureText "700 20px Geist" (personaName userData)))
    any_cache (createFullCanvas' userData gameData q).
Proof. unfold_blocks. unfold draw_stats. unfold_stats. emits_text. Qed.

End NameOnCard.

(** C4.  Take any successful rendering, and metrics of the font of the
    name ('700 20px Geist') under which the truncated texts of the name,
    a prefix followed by three dots, do not get narrower as the prefix
    gets longer.  The image has one text at the place of the name,
    (20, 180).  For a name wider than 180px it is a prefix of the name
    followed by the three dots; whenever some prefix followed by the dots
    measures at most 180px, the text drawn does so, and no longer prefix
    of the name does with the dots after it (but for the whole name,
    which the loop never tries, should the dots make it narrower than it
    is without them); when none does, the three dots alone are drawn.  A
    name of at most 180px is drawn as it is. *)
Theorem username_truncation
    (measureText : string -> string -> float) (loadImage : string -> exn + image)
    (cwd : string) (Date_now : Z) (moment_fromNow : Z -> string)
    (getRelativeTimeImprecise : Z -> string)
    (pricePerHour : option string -> option string -> string)
    (userData : UserData) (gameData : jsdata) (q : query)
    (images : gmap string (image * Z)) (canvasBuffer : list cmd) (s' : rstate) :
  let username := personaName userData in
  let width := measureText "700 20px Geist" in
  let cut := fun k : nat => substring 0 k username +:+ "..." in
  createFullCanvas measureText loadImage cwd Date_now moment_fromNow
    getRelativeTimeImprecise pricePerHour userData gameData q (fresh images)
    = (inr canvasBuffer, s') ->
  (forall i j : nat,
     (i <= j <= String.length username)%nat ->
     PrimFloat.leb (width (cut i)) (width (cut j)) = true) ->
  exists drawn : string,
    In (FillText drawn 20 180) canvasBuffer /\
    forallb (text_at 180 drawn) canvasBuffer = true /\
    (PrimFloat.ltb 180 (width username) = true ->
     exists n : nat,
       (n <= String.length username)%nat /\
       drawn = cut n /\
       (forall k : nat,
          (k <= String.length username)%nat ->
          PrimFloat.leb (width (cut k)) 180 = true ->
          PrimFloat.leb (width drawn) 180 = true /\
          ((k <= n)%nat \/
           (k = String.length username /\
            PrimFloat.ltb (width (username +:+ "...")) (width username) = true))) /\
       ((forall k : nat,
           (k <= String.length username)%nat ->
           PrimFloat.leb (width (cut k)) 180 = false) ->
        drawn = "...")) /\
    (PrimFloat.leb (width username) 180 = true -> drawn = username).
Proof.
  cbv zeta. intros H Hcut.
  exists (username_text measureText "700 20px Geist" (personaName userData)).
  split; [eapply buffer_has; [exact H | apply name_is_drawn] |].
  split; [eapply buffer_of_fresh; [exact H | apply name_is_alone] |].
  destruct (username_text_spec measureText "700 20px Geist" (personaName userData)
              Hcut) as [Hwide Hfits].
  split; [| exact Hfits].
  intros Hw. destruct (Hwide Hw) as (n & Hn & Htext & Hmax & Hnone).
  exists n. rewrite Htext. split; [exact Hn |]. split; [reflexivity |].
  split; [exact Hmax |].
  intros Hno. rewrite (Hnone Hno). now rewrite substring_0_0.
Qed.

Lemma length_append (s t : string) :
  String.length (s +:+ t) = (String.length s + String.length t)%nat.
Proof.
  induction s as [| c s IH]; [reflexivity |].
  rewrite append_cons. cbn [String.length]. now rewrite IH.
Qed.

Lemma stepText_monotone (fnt a b c : string) :
  PrimFloat.leb (Sample.stepText fnt (a +:+ c)) (Sample.stepText fnt (a +:+ b +:+ c))
  = true.
Proof.
  unfold Sample.stepText. rewrite !length_append.
  destruct (Nat.leb_spec (String.length a + String.length c) 15),
    (Nat.leb_spec (String.length a + (String.length b + String.length c)) 15);
    try reflexivity.
  lia.
Qed.

(** A name of 26 characters under the coarse metrics: the card shows its
    first 12 characters and the dots. *)
Lemma username_truncation_witness :
  let name := "abcdefghijklmnopqrstuvwxyz" in
  let width := Sample.stepText "700 20px Geist" in
  let cut := fun k : nat => substring 0 k name +:+ "..." in
  let user :=
    {| steamId := "76561198000000000"; personaName := name; visible := true;
       avatar := ""; lastLogOff := None; createdAt := None; countryCode := None;
       stateCode := None; onlineState := None; location := None |} in
  (forall i j : nat,
     (i <= j <= String.length name)%nat ->
     PrimFloat.leb (width (cut i)) (width (cut j)) = true) /\
  PrimFloat.ltb 180 (width name) = true /\
  exists canvasBuffer s',
    createFullCanvas Sample.stepText Sample.loadImage Sample.cwd 1700000500000
      Sample.fromNow Sample.relative Sample.pricePerHour user
      (DError "private games") (plain_query "gabe") (fresh ∅)
    = (inr canvasBuffer, s') /\
    In (FillText "abcdefghijkl..." 20 180) canvasBuffer /\
    forallb (text_at 180 "abcdefghijkl...") canvasBuffer = true /\
    PrimFloat.leb (width "abcdefghijkl...") 180 = true.
Proof.
  cbv zeta.
  match goal with |- ?P /\ _ => assert (H1 : P) end.
  { intros i j Hij. replace j with (i + (j - i))%nat by lia.
    rewrite substring_split, append_assoc. apply stepText_monotone. }
  split; [exact H1 |].
  match goal with |- ?P /\ _ => assert (H3 : P) by reflexivity end.
  split; [exact H3 |].
  match goal with
  | |- exists b s', ?r = _ /\ _ =>
      assert (Hok : draws (is_FillText "abcdefghijkl..." 20 180) (fst r) = true)
        by (vm_compute; reflexivity);
      destruct r as [[x | b] s'] eqn:E; [discriminate Hok |]
  end.
  destruct (username_truncation _ _ _ _ _ _ _ _ _ _ _ _ _ E H1)
    as (drawn & Hin & Honly & Hwide & _).
  destruct (Hwide H3) as (n & _ & _ & Hmax & _).
  destruct (Hmax 0%nat ltac:(cbn; lia) eq_refl) as [Hfit _].
  assert (Hsame : drawn = "abcdefghijkl...").
  { cbn [draws fst] in Hok. apply existsb_exists in Hok as (c & Hc & Htest).
    rewrite forallb_forall in Honly. specialize (Honly c Hc).
    destruct c; try discriminate Htest.
    cbn [is_FillText text_at] in Htest, Honly.
    apply andb_true_iff in Htest as [Htest Hy].
    apply andb_true_iff in Htest as [Ht _].
    rewrite Hy in Honly.
    apply String.eqb_eq in Ht, Honly. congruence. }
  eexists _, _. split; [reflexivity |]. rewrite <- Hsame. auto.
Defined.

Example username_truncation_sample :
  username_text Sample.stepText "700 20px Geist" "abcdefghijklmnopqrstuvwxyz"
  = "abcdefghijkl...".
Proof. vm_compute. reflexivity. Qed.

(** ** Fetches in flight *)

Section InFlight.

Variable formatter_format : float -> string.
Variable getAverage : list Z -> float.
Variable minutesToHoursCompact : Z -> string.
Variable minutesToHoursPrecise : float -> string.

#[local] Abbreviation continue' :=
  (continue formatter_format getAverage minutesToHoursCompact minutesToHoursPrecise).
#[local] Abbreviation resume' :=
  (resume formatter_format getAverage minutesToHoursCompact minutesToHoursPrecise).
#[local] Abbreviation step' :=
  (step formatter_format getAverage minutesToHoursCompact minutesToHoursPrecise).
#[local] Abbreviation run' :=
  (run formatter_format getAverage minutesToHoursCompact minutesToHoursPrecise).

(** The keys of resolved ids are no keys of fetches. *)
Lemma steamid_key_not_stage (uid : string) (s : stage) :
  steamid_key uid <> stage_key s /\ steamid_meta_key uid <> stage_key s.
Proof. destruct s; split; intros H; discriminate H. Qed.

(** What one stretch of a fetch does to the state: nothing, or it moves
    to its next stage under the same key, or it settles. *)
Lemma continue_cases (p : nat) (s : stage) (resp : response) (now : Z) (st : state) :
  continue' p s resp now st = st \/
  (exists s' c' sent',
     stage_key s' = stage_key s /\
     (forall k, (exists s0, k = stage_key s0) -> c' !! k = cache st !! k) /\
     continue' p s resp now st =
     {| cache := c'; pendingRequests := pendingRequests st;
        promises := <[p := Running s']> (promises st); sent := sent' |}) \/
  (exists d c',
     (forall k, (exists s0, k = stage_key s0) -> k <> stage_key s ->
                c' !! k = cache st !! k) /\
     ((exists m, d = DError m) -> c' = cache st) /\
     continue' p s resp now st =
     {| cache := c'; pendingRequests := delete (stage_key s) (pendingRequests st);
        promises := <[p := Settled d]> (promises st); sent := sent st |}).
Proof.
  destruct s, resp as [[e | id] | [e | summary] info | [e | games] | rs];
    cbn [continue];
    first
      [ left; reflexivity
      | right; left; eexists _, _, _;
        (split; [| split]); cycle 2;
        [ reflexivity | reflexivity
        | intros k [s0 ->]; cbn [cache set_cache send];
          try (destruct (steamid_key_not_stage uid s0));
          rewrite ?lookup_insert_ne by auto; reflexivity ]
      | right; right; eexists _, _;
        (split; [| split]); cycle 2;
        [ reflexivity
        | intros k _ Hk; cbn [cache set_cache stage_key] in Hk |- *;
          rewrite ?lookup_insert_ne by congruence; reflexivity
        | first [ intros [m Hm]; discriminate Hm | intros _; reflexivity ] ] ].
Qed.


(** What a call does: it answers from the cache, or hands out the promise
    in flight, or starts a fetch and registers it. *)
Lemma call_cases (e : event) (k : string) (st : state) :
  event_key e = Some k ->
  (answers st k (event_time e) (event_ttl e) = true /\
   returned st e = Some (Now (data_of (cache st !! k))) /\ step' st e = st) \/
  (answers st k (event_time e) (event_ttl e) = false /\
   exists p, pendingRequests st !! k = Some p /\
             returned st e = Some (Later p) /\ step' st e = st) \/
  (answers st k (event_time e) (event_ttl e) = false /\
   pendingRequests st !! k = None /\
   exists s rs,
     stage_key s = k /\ rs <> [] /\
     returned st e = Some (Later (length (promises st))) /\
     step' st e =
     {| cache := cache st;
        pendingRequests := <[k := length (promises st)]> (pendingRequests st);
        promises := promises st ++ [Running s]; sent := sent st ++ rs |}).
Proof.
  destruct e as [uid now | uid cc now | p resp now]; intros [= <-];
    cbn [event_time event_ttl returned step]; unfold answers.
  - unfold getUserData.
    destruct (truthy _ && isCacheValid _ _ CACHE_TTL); [left; auto |].
    right. destruct (pendingRequests st !! user_key uid) as [p |]; [left; eauto |].
    right. split; [reflexivity | split; [reflexivity |]].
    destruct (negb _ || negb _ || negb _); unfold spawn; cbn [fst snd];
      eexists _, _; (repeat split; [reflexivity | discriminate]).
  - unfold getGameData.
    destruct (truthy _ && isCacheValid _ _ GAME_DATA_CACHE_TTL); [left; auto |].
    right. destruct (pendingRequests st !! games_key uid cc) as [p |]; [left; eauto |].
    right. split; [reflexivity | split; [reflexivity |]].
    destruct (negb _); unfold spawn; cbn [fst snd];
      eexists _, _; (repeat split; [reflexivity | discriminate]).
Qed.

Lemma wf_init : wf init.
Proof.
  split.
  - intros p s H. cbn in H. rewrite lookup_nil in H. discriminate H.
  - intros k p H. cbn in H. rewrite lookup_empty in H. discriminate H.
Qed.


(** A delivery to a promise that is not running changes nothing. *)
Lemma deliver_cases (p : nat) (resp : response) (now : Z) (st : state) :
  resume' p resp now st = st \/
  exists s, promises st !! p = Some (Running s) /\
            resume' p resp now st = continue' p s resp now st.
Proof.
  unfold resume. destruct (promises st !! p) as [[s | d] |]; eauto.
Qed.

Lemma wf_spawn (st : state) (k : string) (s : stage) (rs : list request) :
  wf st -> pendingRequests st !! k = None -> stage_key s = k ->
  wf {| cache := cache st;
        pendingRequests := <[k := length (promises st)]> (pendingRequests st);
        promises := promises st ++ [Running s]; sent := sent st ++ rs |}.
Proof.
  intros [W1 W2] Hnone Hk. split; cbn [promises pendingRequests].
  - intros p s' H. apply lookup_snoc_Some in H as [[Hlt H] | [Hp Heq]].
    + pose proof (W1 _ _ H) as Hp.
      rewrite lookup_insert_ne; [exact Hp |]. intros Heq. congruence.
    + simplify_eq. apply lookup_insert_eq.
  - intros k' p H. destruct (decide (k' = k)) as [-> | Hne].
    + rewrite lookup_insert_eq in H. injection H as <-.
      exists s. split; [| exact Hk]. apply lookup_snoc_Some. right. auto.
    + rewrite lookup_insert_ne in H by congruence.
      destruct (W2 _ _ H) as (s' & Hs' & Hk'). exists s'.
      split; [| exact Hk']. apply lookup_app_l_Some. exact Hs'.
Qed.

Lemma wf_step (st : state) (e : event) : wf st -> wf (step' st e).
Proof.
  intros W.
  destruct e as [uid now | uid cc now | p resp now].
  - destruct (call_cases (CallUser uid now) _ st eq_refl)
      as [(_ & _ & ->) | [(_ & p & _ & _ & ->) | (_ & Hnone & s & rs & Hk & _ & _ & ->)]];
      [exact W | exact W | now apply wf_spawn].
  - destruct (call_cases (CallGames uid cc now) _ st eq_refl)
      as [(_ & _ & ->) | [(_ & p & _ & _ & ->) | (_ & Hnone & s & rs & Hk & _ & _ & ->)]];
      [exact W | exact W | now apply wf_spawn].
  - cbn [step]. destruct W as [W1 W2].
    destruct (deliver_cases p resp now st) as [-> | (s & Hp & ->)]; [now split |].
    pose proof (W1 _ _ Hp) as Hpend.
    assert (Hlt : (p < length (promises st))%nat) by (eapply lookup_lt_Some, Hp).
    destruct (continue_cases p s resp now st)
      as [-> | [(s' & c' & sent' & Hk & _ & ->) | (d & c' & _ & _ & ->)]];
      [now split | |]; split; cbn [promises pendingRequests].
    + intros q sq H. destruct (decide (q = p)) as [-> | Hne].
      * rewrite list_lookup_insert_eq in H by exact Hlt. injection H as <-.
        now rewrite Hk.
      * rewrite list_lookup_insert_ne in H by congruence. now apply W1.
    + intros k q H. destruct (W2 _ _ H) as (sq & Hsq & Hkq).
      destruct (decide (q = p)) as [-> | Hne].
      * exists s'. rewrite list_lookup_insert_eq by exact Hlt.
        split; [reflexivity |]. rewrite Hk. congruence.
      * exists sq. rewrite list_lookup_insert_ne by congruence. now split.
    + intros q sq H. destruct (decide (q = p)) as [-> | Hne].
      * rewrite list_lookup_insert_eq in H by exact Hlt. discriminate H.
      * rewrite list_lookup_insert_ne in H by congruence.
        pose proof (W1 _ _ H) as Hq.
        rewrite lookup_delete_ne; [exact Hq |].
        intros Heq. rewrite Heq in Hpend. congruence.
    + intros k q H.
      destruct (decide (k = stage_key s)) as [-> | Hne];
        [rewrite lookup_delete_eq in H; discriminate H |].
      rewrite lookup_delete_ne in H by congruence.
      destruct (W2 _ _ H) as (sq & Hsq & Hkq). exists sq.
      split; [| exact Hkq].
      rewrite list_lookup_insert_ne; [exact Hsq |].
      intros <-. congruence.
Qed.

Lemma run_snoc (st : state) (es : list event) (e : event) :
  run' st (es ++ [e]) = step' (run' st es) e.
Proof. unfold run. now rewrite fold_left_app. Qed.

Lemma wf_run (st : state) (es : list event) : wf st -> wf (run' st es).
Proof.
  revert st. induction es as [| e es IH]; intros st W; [exact W |].
  cbn [run fold_left]. apply IH, wf_step, W.
Qed.


(** A settled promise keeps its value. *)
Lemma settled_step (st : state) (e : event) (p : nat) (d : jsdata) :
  promises st !! p = Some (Settled d) ->
  promises (step' st e) !! p = Some (Settled d).
Proof.
  intros Hp. destruct e as [uid now | uid cc now | q resp now].
  - destruct (call_cases (CallUser uid now) _ st eq_refl)
      as [(_ & _ & ->) | [(_ & p' & _ & _ & ->) | (_ & _ & s & rs & _ & _ & _ & ->)]];
      try exact Hp.
    now apply lookup_app_l_Some.
  - destruct (call_cases (CallGames uid cc now) _ st eq_refl)
      as [(_ & _ & ->) | [(_ & p' & _ & _ & ->) | (_ & _ & s & rs & _ & _ & _ & ->)]];
      try exact Hp.
    now apply lookup_app_l_Some.
  - cbn [step].
    destruct (deliver_cases q resp now st) as [-> | (s & Hq & ->)]; [exact Hp |].
    assert (q <> p) by congruence.
    destruct (continue_cases q s resp now st)
      as [-> | [(s' & c' & sent' & _ & _ & ->) | (d' & c' & _ & _ & ->)]];
      [exact Hp | |]; cbn [promises]; now rewrite list_lookup_insert_ne.
Qed.

Lemma settled_run (es : list event) :
  forall (st : state) (p : nat) (d : jsdata),
    promises st !! p = Some (Settled d) ->
    promises (run' st es) !! p = Some (Settled d).
Proof.
  induction es as [| e es IH]; intros st p d Hp; [exact Hp |].
  cbn [run fold_left]. apply IH, settled_step, Hp.
Qed.

(** One event while a fetch is in flight: the fetch stays in flight and
    the cache entry of its key stays as it is, or the event is the delivery
    that settles it. *)
Lemma flight_step (st : state) (e : event) (p : nat) (k : string) :
  wf st -> in_flight p k st ->
  (in_flight p k (step' st e) /\ cache (step' st e) !! k = cache st !! k) \/
  (exists d resp now,
     e = Deliver p resp now /\
     promises (step' st e) !! p = Some (Settled d) /\
     pendingRequests (step' st e) !! k = None /\
     ((exists m, d = DError m) -> cache (step' st e) = cache st)).
Proof.
  intros [W1 W2] (s & Hp & Hk).
  destruct e as [uid now | uid cc now | q resp now].
  - left.
    destruct (call_cases (CallUser uid now) _ st eq_refl)
      as [(_ & _ & ->) | [(_ & p' & _ & _ & ->) | (_ & _ & s' & rs & _ & _ & _ & ->)]];
      (split; [exists s; split; [| exact Hk] | reflexivity]); try exact Hp.
    now apply lookup_app_l_Some.
  - left.
    destruct (call_cases (CallGames uid cc now) _ st eq_refl)
      as [(_ & _ & ->) | [(_ & p' & _ & _ & ->) | (_ & _ & s' & rs & _ & _ & _ & ->)]];
      (split; [exists s; split; [| exact Hk] | reflexivity]); try exact Hp.
    now apply lookup_app_l_Some.
  - cbn [step].
    destruct (deliver_cases q resp now st) as [-> | (sq & Hq & ->)];
      [left; split; [exists s; auto | reflexivity] |].
    assert (Hlt : (q < length (promises st))%nat) by (eapply lookup_lt_Some, Hq).
    assert (Hstage : exists s0, k = stage_key s0) by (exists s; auto).
    destruct (continue_cases q sq resp now st)
      as [-> | [(s' & c' & sent' & Hk' & Hc & ->) | (d & c' & Hc & He & ->)]].
    + left; split; [exists s; auto | reflexivity].
    + left. unfold in_flight. cbn [promises cache]. split; [| now apply Hc].
      destruct (decide (q = p)) as [-> | Hne].
      * exists s'. rewrite list_lookup_insert_eq by exact Hlt.
        split; [reflexivity |]. rewrite Hk'. congruence.
      * exists s. now rewrite list_lookup_insert_ne by congruence.
    + destruct (decide (q = p)) as [-> | Hne].
      * right. exists d, resp, now. cbn [promises pendingRequests cache].
        assert (sq = s) by congruence. subst sq.
        split; [reflexivity |].
        split; [now apply list_lookup_insert_eq |].
        split; [rewrite Hk; apply lookup_delete_eq | exact He].
      * left. unfold in_flight. cbn [promises cache]. split.
        -- exists s. now rewrite list_lookup_insert_ne by congruence.
        -- apply Hc; [exact Hstage |].
           intros Heq. pose proof (W1 _ _ Hp) as H1. pose proof (W1 _ _ Hq) as H2.
           rewrite Hk, Heq in H1. congruence.
Qed.

(** A run of events while a fetch is in flight. *)
Lemma flight_run (es : list event) :
  forall (st : state) (p : nat) (k : string),
    wf st -> in_flight p k st ->
    (wf (run' st es) /\ in_flight p k (run' st es) /\
     cache (run' st es) !! k = cache st !! k) \/
    (exists d, promises (run' st es) !! p = Some (Settled d)).
Proof.
  induction es as [| e es IH]; intros st p k W F; [left; auto |].
  change (run' st (e :: es)) with (run' (step' st e) es).
  destruct (flight_step st e p k W F) as [[F' Hc] | (d & resp & now & _ & Hs & _)].
  - destruct (IH (step' st e) p k (wf_step st e W) F') as [(W' & F'' & Hc') | Hd].
    + left. split; [exact W' | split; [exact F'' | now rewrite Hc']].
    + right. exact Hd.
  - right. exists d. now apply settled_run.
Qed.

Lemma flight_running (es : list event) (st : state) (p : nat) (k : string) :
  wf st -> in_flight p k st ->
  (exists s, promises (run' st es) !! p = Some (Running s)) ->
  wf (run' st es) /\ in_flight p k (run' st es) /\
  cache (run' st es) !! k = cache st !! k.
Proof.
  intros W F [s Hs].
  destruct (flight_run es st p k W F) as [H | [d Hd]]; [exact H | congruence].
Qed.

Lemma run_app (st : state) (es1 es2 : list event) :
  run' st (es1 ++ es2) = run' (run' st es1) es2.
Proof. unfold run. apply fold_left_app. Qed.

(** If the fetch is still running after a run, it was after each part. *)
Lemma flight_prefix (es1 es2 : list event) (st : state) (p : nat) (k : string) :
  wf st -> in_flight p k st ->
  (exists s, promises (run' st (es1 ++ es2)) !! p = Some (Running s)) ->
  wf (run' st es1) /\ in_flight p k (run' st es1) /\
  cache (run' st es1) !! k = cache st !! k.
Proof.
  intros W F [s Hs].
  destruct (flight_run es1 st p k W F) as [H | [d Hd]]; [exact H |].
  rewrite run_app in Hs.
  rewrite (settled_run es2 _ _ _ Hd) in Hs. discriminate Hs.
Qed.

(** An entry that is not valid does not become valid later. *)
Lemma stays_invalid (st st' : state) (k : string) (now now' ttl : Z) :
  cache st' !! k = cache st !! k -> now <= now' ->
  answers st k now ttl = false -> answers st' k now' ttl = false.
Proof.
  unfold answers. intros -> Hle H.
  destruct (truthy (cache st !! k)); [| reflexivity].
  cbn [andb] in *. unfold isCacheValid in *.
  destruct (timestamp_of (cache st !! k)) as [t |]; [| reflexivity].
  apply Z.ltb_ge in H. apply Z.ltb_ge. lia.
Qed.

(** Calls about one key are calls of one fetcher. *)
Lemma same_key_same_ttl (e e' : event) (k : string) :
  event_key e = Some k -> event_key e' = Some k -> event_ttl e' = event_ttl e.
Proof.
  destruct e, e'; cbn; intros [= <-] [= H]; try reflexivity; discriminate H.
Qed.

(** The call that starts a fetch. *)
Lemma first_call (st : state) (e : event) (k : string) (p : nat) :
  wf st -> event_key e = Some k -> pendingRequests st !! k = None ->
  returned st e = Some (Later p) ->
  p = length (promises st) /\
  answers st k (event_time e) (event_ttl e) = false /\
  wf (step' st e) /\ in_flight p k (step' st e) /\
  cache (step' st e) = cache st.
Proof.
  intros W Hk Hnone Hret.
  destruct (call_cases e k st Hk)
    as [(_ & Hr & _) | [(_ & p' & Hp' & _) | (Hv & _ & s & rs & Hs & _ & Hr & Hst)]];
    try congruence.
  assert (p = length (promises st)) by congruence. subst p.
  split; [reflexivity |]. split; [exact Hv |].
  split; [apply wf_step, W |].
  rewrite Hst. unfold in_flight. cbn [promises cache]. split; [| reflexivity].
  exists s. split; [| exact Hs]. apply lookup_snoc_Some. right. auto.
Qed.


(** C9.  Take the call that starts a fetch for a key (nothing was in flight
    for it), and any events after it up to a moment at which that fetch has
    not settled, with a clock that does not run backwards.  Then every call
    for the same key among them receives the promise of that one fetch and
    leaves the state as it is, so that no second fetch is started, and the
    key stays registered for that promise.  When the fetch settles, with a
    profile, totals or the error marker, the in-flight marker of the key is
    gone and the promise keeps the one value for all who hold it. *)
Theorem concurrent_requests_share_one_fetch
    (history during : list event) (first : event) (k : string) (p : nat) :
  let st0 := run' init history in
  let st1 := step' st0 first in
  event_key first = Some k ->
  pendingRequests st0 !! k = None ->
  returned st0 first = Some (Later p) ->
  (forall e, In e during -> event_key e = Some k ->
             event_time first <= event_time e) ->
  (exists s, promises (run' st1 during) !! p = Some (Running s)) ->
  (forall es1 e es2,
     during = es1 ++ e :: es2 -> event_key e = Some k ->
     returned (run' st1 es1) e = Some (Later p) /\
     step' (run' st1 es1) e = run' st1 es1) /\
  pendingRequests (run' st1 during) !! k = Some p /\
  (forall resp now d,
     let st2 := step' (run' st1 during) (Deliver p resp now) in
     promises st2 !! p = Some (Settled d) ->
     pendingRequests st2 !! k = None /\
     forall es, promises (run' st2 es) !! p = Some (Settled d)).
Proof.
  intros st0 st1 Hk Hnone Hret Htime Hrun.
  assert (W0 : wf st0) by (apply wf_run, wf_init).
  destruct (first_call st0 first k p W0 Hk Hnone Hret)
    as (Hp & Hinv & W1 & F1 & Hc1).
  fold st1 in W1, F1, Hc1.
  split; [| split].
  - intros es1 e es2 -> Hke.
    destruct (flight_prefix es1 (e :: es2) st1 p k W1 F1 Hrun)
      as (W & (s & Hs & Hsk) & Hc).
    assert (Hpend : pendingRequests
                      (run' st1 es1)
                    !! k = Some p).
    { rewrite <- Hsk. now apply W. }
    assert (Hno : answers
                    (run' st1 es1)
                    k (event_time e) (event_ttl e) = false).
    { rewrite (same_key_same_ttl first e k Hk Hke).
      apply (stays_invalid st0 (run' st1 es1) k (event_time first)); [| | exact Hinv].
      - now rewrite Hc, Hc1.
      - apply Htime; [| exact Hke]. apply in_or_app. right. now left. }
    destruct (call_cases e k (run' st1 es1) Hke)
      as [(Hv & _) | [(_ & p' & Hp' & Hr & Hst) | (_ & Hn & _)]];
      [congruence | | congruence].
    assert (p' = p) by congruence. subst p'. now split.
  - destruct (flight_running during st1 p k W1 F1 Hrun)
      as (W & (s & Hs & Hsk) & _).
    rewrite <- Hsk. now apply W.
  - intros resp now d st2 Hd. subst st2.
    destruct (flight_running during st1 p k W1 F1 Hrun) as (W & F & _).
    destruct (flight_step (run' st1 during) (Deliver p resp now) p k W F)
      as [[(s & Hs & _) _] | (d' & _ & _ & _ & Hs & Hpend & _)];
      [congruence |].
    split; [exact Hpend |].
    intros es. now apply settled_run.
Qed.


(** C10.  Take the call that starts a fetch for a key and any events after
    it up to the delivery that settles that fetch with the error marker.
    Then the cache entry of the key is what it was before the call (the
    marker is stored nowhere), the in-flight marker of the key is gone, and
    a later call for the key, with a clock that has not run backwards, is
    not answered from the cache: it starts a new fetch and sends upstream
    requests. *)
Theorem failed_fetch_is_not_cached
    (history during : list event) (first : event) (k : string) (p : nat)
    (resp : response) (now : Z) (m : string) :
  let st0 := run' init history in
  let st1 := step' st0 first in
  let st2 := step' (run' st1 during) (Deliver p resp now) in
  event_key first = Some k ->
  pendingRequests st0 !! k = None ->
  returned st0 first = Some (Later p) ->
  (exists s, promises (run' st1 during) !! p = Some (Running s)) ->
  promises st2 !! p = Some (Settled (DError m)) ->
  cache st2 !! k = cache st0 !! k /\
  pendingRequests st2 !! k = None /\
  (forall e, event_key e = Some k -> event_time first <= event_time e ->
     exists rs,
       rs <> [] /\
       returned st2 e = Some (Later (length (promises st2))) /\
       sent (step' st2 e) = sent st2 ++ rs).
Proof.
  intros st0 st1 st2 Hk Hnone Hret Hrun Hd.
  assert (W0 : wf st0) by (apply wf_run, wf_init).
  destruct (first_call st0 first k p W0 Hk Hnone Hret)
    as (Hp & Hinv & W1 & F1 & Hc1).
  fold st1 in W1, F1, Hc1.
  destruct (flight_running during st1 p k W1 F1 Hrun) as (W & F & Hc).
  destruct (flight_step (run' st1 during) (Deliver p resp now) p k W F)
    as [[(s & Hs & _) _] | (d' & _ & _ & _ & Hs & Hpend & Herr)];
    fold st2 in Hs; [congruence | fold st2 in Hpend, Herr].
  assert (d' = DError m) by congruence. subst d'.
  assert (Hcache : cache st2 !! k = cache st0 !! k).
  { rewrite Herr by eauto. now rewrite Hc, Hc1. }
  split; [exact Hcache | split; [exact Hpend |]].
  intros e Hke Hle.
  assert (Hno : answers st2 k (event_time e) (event_ttl e) = false).
  { rewrite (same_key_same_ttl first e k Hk Hke).
    now apply (stays_invalid st0 st2 k (event_time first)). }
  destruct (call_cases e k st2 Hke)
    as [(Hv & _) | [(_ & p' & Hp' & _) | (_ & _ & s & rs & _ & Hrs & Hr & Hst)]];
    [congruence | congruence |].
  exists rs. split; [exact Hrs | split; [exact Hr |]].
  now rewrite Hst.
Qed.

(** A value answered from the cache is one whose age is below the time to
    live of its kind: one hour for a profile, six hours for library totals. *)
Lemma cached_answer_is_valid (st : state) (e : event) (k : string) (d : jsdata) :
  event_key e = Some k ->
  returned st e = Some (Now d) ->
  exists t,
    timestamp_of (cache st !! k) = Some t /\
    event_time e - t < event_ttl e /\ d = data_of (cache st !! k).
Proof.
  intros Hk Hr.
  destruct (call_cases e k st Hk)
    as [(Hv & Hr' & _) | [(_ & p' & _ & Hr' & _) | (_ & _ & s & rs & _ & _ & Hr' & _)]];
    try congruence.
  unfold answers in Hv. apply andb_true_iff in Hv as [_ Hv].
  unfold isCacheValid in Hv.
  destruct (timestamp_of (cache st !! k)) as [t |]; [| discriminate Hv].
  exists t. split; [reflexivity |]. split; [now apply Z.ltb_lt | congruence].
Qed.

End InFlight.

(** A cached image is handed out only below its time to live: 24 hours for
    the avatar, one hour for the static images; otherwise it is loaded. *)
Lemma cached_image_is_valid
    (loadImage : string -> exn + image) (Date_now : Z) (imagePath : string)
    (isAvatar : bool) (s s' : rstate) (img : image) :
  getCachedImage loadImage Date_now imagePath isAvatar s = (inr img, s') ->
  loadImage imagePath = inr img \/
  exists t,
    imageCache s !! ("img_" +:+ imagePath) = Some (img, t) /\
    Date_now - t < (if isAvatar then AVATAR_CACHE_TTL else CACHE_TTL).
Proof.
  unfold getCachedImage.
  destruct (imageCache s !! _) as [[i t] |] eqn:E.
  - destruct (isCacheValid _ _ _) eqn:V.
    + intros [= <- <-]. right. exists t. split; [reflexivity |].
      now apply Z.ltb_lt.
    + destruct (loadImage imagePath) as [x | i']; intros [= <- <-]. now left.
  - destruct (loadImage imagePath) as [x | i']; intros [= <- <-]. now left.
Qed.

(** Three more calls while the first profile fetch of a user waits for
    the resolver. *)
Lemma concurrent_requests_share_one_fetch_witness :
  let first := CallUser "gabe" 1000 in
  let during := [CallUser "gabe" 1001; CallGames "gabe" "US" 1002;
                 CallUser "gabe" 1003] in
  let k := user_key "gabe" in
  let st1 := Sample.run init [first] in
  event_key first = Some k /\
  pendingRequests (Sample.run init []) !! k = None /\
  returned (Sample.run init []) first = Some (Later 0%nat) /\
  (forall e, In e during -> event_key e = Some k ->
             event_time first <= event_time e) /\
  (exists s, promises (Sample.run st1 during) !! 0%nat = Some (Running s)) /\
  returned (Sample.run st1 [CallUser "gabe" 1001; CallGames "gabe" "US" 1002])
    (CallUser "gabe" 1003) = Some (Later 0%nat) /\
  pendingRequests (Sample.run st1 during) !! k = Some 0%nat.
Proof.
  cbv zeta.
  assert (H1 : event_key (CallUser "gabe" 1000) = Some (user_key "gabe"))
    by reflexivity.
  assert (H2 : pendingRequests (Sample.run init []) !! user_key "gabe" = None)
    by (vm_compute; reflexivity).
  assert (H3 : returned (Sample.run init []) (CallUser "gabe" 1000)
               = Some (Later 0%nat)) by (vm_compute; reflexivity).
  assert (H4 : forall e,
             In e [CallUser "gabe" 1001; CallGames "gabe" "US" 1002;
                   CallUser "gabe" 1003] ->
             event_key e = Some (user_key "gabe") ->
             event_time (CallUser "gabe" 1000) <= event_time e).
  { intros e He _. simpl in He.
    repeat (destruct He as [<- | He]; [cbn; lia |]). contradiction. }
  assert (H5 : exists s,
             promises (Sample.run (Sample.run init [CallUser "gabe" 1000])
                         [CallUser "gabe" 1001; CallGames "gabe" "US" 1002;
                          CallUser "gabe" 1003]) !! 0%nat = Some (Running s))
    by (eexists; vm_compute; reflexivity).
  split; [exact H1 |]. split; [exact H2 |]. split; [exact H3 |].
  split; [exact H4 |]. split; [exact H5 |].
  destruct (concurrent_requests_share_one_fetch Sample.format Sample.average
              Sample.compact Sample.precise [] _ _ _ _ H1 H2 H3 H4 H5)
    as (HA & HB & _).
  split; [| exact HB].
  exact (proj1 (HA [CallUser "gabe" 1001; CallGames "gabe" "US" 1002]
                   (CallUser "gabe" 1003) [] eq_refl eq_refl)).
Defined.

(** A library fetch that ends in the marker, and the call after it. *)
Lemma failed_fetch_is_not_cached_witness :
  let first := CallGames "gabe" "US" 1000 in
  let during := [Deliver 0 (RespResolve (inr "7656")) 1500;
                 CallGames "gabe" "US" 1600] in
  let k := games_key "gabe" "US" in
  let st1 := Sample.run init [first] in
  let st2 := Sample.run st1 (during ++ [Deliver 0 (RespOwned (inl "Forbidden")) 2000]) in
  event_key first = Some k /\
  pendingRequests (Sample.run init []) !! k = None /\
  returned (Sample.run init []) first = Some (Later 0%nat) /\
  (exists s, promises (Sample.run st1 during) !! 0%nat = Some (Running s)) /\
  promises st2 !! 0%nat = Some (Settled (DError "private games")) /\
  cache st2 !! k = None /\
  pendingRequests st2 !! k = None /\
  exists rs,
    rs <> [] /\
    returned st2 (CallGames "gabe" "US" 3000) = Some (Later (length (promises st2))) /\
    sent (Sample.run st2 [CallGames "gabe" "US" 3000]) = sent st2 ++ rs.
Proof.
  cbv zeta.
  assert (H1 : event_key (CallGames "gabe" "US" 1000)
               = Some (games_key "gabe" "US")) by reflexivity.
  assert (H2 : pendingRequests (Sample.run init []) !! games_key "gabe" "US" = None)
    by (vm_compute; reflexivity).
  assert (H3 : returned (Sample.run init []) (CallGames "gabe" "US" 1000)
               = Some (Later 0%nat)) by (vm_compute; reflexivity).
  assert (H4 : exists s,
             promises (Sample.run (Sample.run init [CallGames "gabe" "US" 1000])
                         [Deliver 0 (RespResolve (inr "7656")) 1500;
                          CallGames "gabe" "US" 1600]) !! 0%nat
             = Some (Running s)) by (eexists; vm_compute; reflexivity).
  assert (H5 : promises
                 (Sample.run (Sample.run init [CallGames "gabe" "US" 1000])
                    ([Deliver 0 (RespResolve (inr "7656")) 1500;
                      CallGames "gabe" "US" 1600]
                     ++ [Deliver 0 (RespOwned (inl "Forbidden")) 2000])) !! 0%nat
               = Some (Settled (DError "private games")))
    by (vm_compute; reflexivity).
  split; [exact H1 |]. split; [exact H2 |]. split; [exact H3 |].
  split; [exact H4 |]. split; [exact H5 |].
  destruct (failed_fetch_is_not_cached Sample.format Sample.average
              Sample.compact Sample.precise [] _ _ _ _ _ _ _ H1 H2 H3 H4 H5)
    as (HA & HB & HC).
  split; [exact HA |]. split; [exact HB |].
  exact (HC (CallGames "gabe" "US" 3000) eq_refl ltac:(cbn; lia)).
Defined.

(** C7, at the failing input.  A resolved id stored at time 0 is more than
    seven days old at day 8, and [getUserData] resolves the name again, but
    [getGameData] takes the stale id from the cache and asks for the games
    of that id without resolving anything. *)
Lemma stale_resolved_id_is_used :
  let day := 24 * 60 * 60 * 1000 in
  let st := Sample.run init
              [CallUser "gabe" 0;
               Deliver 0 (RespResolve (inr "7656")) 0;
               Deliver 0 (RespSummaries (inl "unavailable") (inl "unavailable")) 0] in
  cache st !! steamid_key "gabe" = Some (CSteamId "7656") /\
  cache st !! steamid_meta_key "gabe" = Some (CMeta 0) /\
  isCacheValid (8 * day) (Some 0) STEAMID_CACHE_TTL = false /\
  sent (snd (getUserData "gabe" (8 * day) st)) = sent st ++ [ReqResolve "gabe"] /\
  sent (snd (getGameData "gabe" "US" (8 * day) st))
  = sent st ++ [ReqOwnedGames "7656"].
Proof. cbv zeta. repeat split; vm_compute; reflexivity. Qed.

(** ** Price calls: chunks and totals *)

Section Chunks.

Lemma chunks_fuel_spec (fuel : nat) :
  forall ids : list Z,
    (length ids <= fuel)%nat ->
    concat (chunks_fuel fuel ids) = ids /\
    Forall (fun c => c <> [] /\ (length c <= maxGameIdsPerCall)%nat)
           (chunks_fuel fuel ids) /\
    (length ids <= maxGameIdsPerCall * length (chunks_fuel fuel ids)
     < length ids + maxGameIdsPerCall)%nat /\
    (forall i, (i < length (chunks_fuel fuel ids))%nat ->
               chunks_fuel fuel ids !! i
               = Some (take maxGameIdsPerCall (drop (maxGameIdsPerCall * i) ids))).
Proof.
  induction fuel as [| f IH]; intros ids Hlen.
  - destruct ids as [| x ids]; [| cbn in Hlen; lia].
    cbn. unfold maxGameIdsPerCall. repeat split; try lia. constructor.
  - destruct ids as [| x ids].
    + cbn. unfold maxGameIdsPerCall. repeat split; try lia. constructor.
    + cbn [chunks_fuel].
      set (l := x :: ids) in *.
      assert (Hl : (0 < length l)%nat) by (subst l; cbn; lia).
      assert (Hdrop : (length (drop maxGameIdsPerCall l) <= f)%nat).
      { rewrite length_drop. unfold maxGameIdsPerCall. cbn in Hlen. subst l.
        cbn [length] in *. lia. }
      destruct (IH _ Hdrop) as (Hc & Hf & Hn & Hi).
      split; [| split; [| split]].
      * cbn [concat]. rewrite Hc. apply take_drop.
      * constructor; [| exact Hf]. split.
        -- subst l. unfold maxGameIdsPerCall. cbn. discriminate.
        -- rewrite length_take. lia.
      * cbn [length]. rewrite length_drop in Hn.
        unfold maxGameIdsPerCall in *. lia.
      * intros [| i] Hlt.
        -- rewrite Nat.mul_0_r, drop_0. reflexivity.
        -- cbn [length] in Hlt. cbn [lookup list_lookup].
           change ((take maxGameIdsPerCall l :: chunks_fuel f (drop maxGameIdsPerCall l)) !! S i)
             with (chunks_fuel f (drop maxGameIdsPerCall l) !! i).
           rewrite Hi by lia. rewrite drop_drop.
           do 3 f_equal. lia.
Qed.

Lemma tally_ids (l : list Game) :
  forall t : tally, gameIds (fold_left tally_step l t) = gameIds t ++ map game_id l.
Proof.
  induction l as [| g l IH]; intros t; cbn [fold_left map].
  - now rewrite app_nil_r.
  - rewrite IH. unfold tally_step.
    destruct (0 <? minutes g), (minutes g =? 0); cbn [gameIds];
      now rewrite <- app_assoc.
Qed.

End Chunks.

(** X1.  The ids of a library are cut into price calls without loss: the
    chunks put together are the ids in their order, no chunk is empty or
    longer than 200 ids, chunk [i] is the slice from [200 * i] of 200 ids,
    and there are just as many chunks as 200 ids each need (none for an
    empty library). *)
Theorem gameIdChunks_partition (ids : list Z) :
  concat (gameIdChunks ids) = ids /\
  Forall (fun c => c <> [] /\ (length c <= 200)%nat) (gameIdChunks ids) /\
  (length ids <= 200 * length (gameIdChunks ids) < length ids + 200)%nat /\
  (forall i, (i < length (gameIdChunks ids))%nat ->
             gameIdChunks ids !! i = Some (take 200 (drop (200 * i) ids))).
Proof. apply chunks_fuel_spec. reflexivity. Qed.

Section Prices.

Lemma price_entry_fields (acc : pricing) (e : AppEntry) :
  prices (price_entry acc e)
    = prices acc ++ map initial (from_option (fun po => [po]) [] (priced e)) /\
  totalInitial (price_entry acc e)
    = totalInitial acc + sum (map initial (from_option (fun po => [po]) [] (priced e))) /\
  totalFinal (price_entry acc e)
    = totalFinal acc + sum (map final (from_option (fun po => [po]) [] (priced e))).
Proof.
  unfold price_entry, priced.
  destruct (data e) as [d |]; [destruct (price_overview d) as [po |];
                               [destruct (0 <? initial po) |] |];
    cbn; rewrite ?app_nil_r; repeat split; lia.
Qed.

Lemma sum_app (l1 l2 : list Z) : sum (l1 ++ l2) = sum l1 + sum l2.
Proof. unfold sum. induction l1 as [| x l1 IH]; cbn; [reflexivity | lia]. Qed.

Lemma price_entries_fold (entries : list AppEntry) :
  forall acc : pricing,
    let r := fold_left price_entry entries acc in
    prices r = prices acc ++ map initial (omap priced entries) /\
    totalInitial r = totalInitial acc + sum (map initial (omap priced entries)) /\
    totalFinal r = totalFinal acc + sum (map final (omap priced entries)).
Proof.
  induction entries as [| e entries IH]; intros acc; cbn [fold_left]; cbn zeta.
  - cbn. rewrite app_nil_r. repeat split; lia.
  - destruct (IH (price_entry acc e)) as (Hp & Hi & Hf). cbn zeta in Hp, Hi, Hf.
    destruct (price_entry_fields acc e) as (Fp & Fi & Ff).
    rewrite Hp, Hi, Hf, Fp, Fi, Ff. cbn [omap list_omap].
    destruct (priced e) as [po |]; cbn [from_option map];
      rewrite <- ?app_assoc; cbn [app sum fold_right];
      fold (sum (map initial (omap priced entries)));
      fold (sum (map final (omap priced entries)));
      repeat split; try lia; now rewrite app_nil_r.
Qed.

Lemma price_chunks_fold (rs : list (exn + list AppEntry)) :
  forall acc : pricing,
    let r := fold_left price_chunk rs acc in
    prices r = prices acc ++ map initial (counted rs) /\
    totalInitial r = totalInitial acc + sum (map initial (counted rs)) /\
    totalFinal r = totalFinal acc + sum (map final (counted rs)).
Proof.
  unfold counted, delivered.
  induction rs as [| r rs IH]; intros acc; cbn [fold_left]; cbn zeta.
  - cbn. rewrite app_nil_r. repeat split; lia.
  - destruct (IH (price_chunk acc r)) as (Hp & Hi & Hf). cbn zeta in Hp, Hi, Hf.
    rewrite Hp, Hi, Hf. cbn [map concat].
    destruct r as [e | entries]; cbn [price_chunk app]; [repeat split |].
    destruct (price_entries_fold entries acc) as (Fp & Fi & Ff).
    cbn zeta in Fp, Fi, Ff. rewrite Fp, Fi, Ff.
    rewrite omap_app, !map_app, !sum_app, <- app_assoc.
    repeat split; lia.
Qed.

Lemma priced_positive (e : AppEntry) (po : PriceOverview) :
  priced e = Some po -> 0 < initial po.
Proof.
  unfold priced.
  destruct (data e) as [d |]; [| discriminate].
  destruct (price_overview d) as [po' |]; [| discriminate].
  destruct (Z.ltb_spec 0 (initial po')); [| discriminate].
  now intros [= <-].
Qed.

Lemma sum_Permutation (l l' : list Z) : l ≡ₚ l' -> sum l = sum l'.
Proof.
  unfold sum. induction 1; cbn; lia.
Qed.

End Prices.

(** X2.  The price totals count the entries of the price calls that came
    back and have a price overview with an initial price above 0, and
    nothing else: a failed call, an entry without data or without a price
    overview and a free game add nothing to either total.  The list of
    prices (the base of the average) holds the initial prices of the
    counted entries in their order, each above 0, and the two totals are
    the sums of their initial and of their final prices. *)
Theorem price_totals (rs : list (exn + list AppEntry)) :
  prices (price_all rs) = map initial (counted rs) /\
  totalInitial (price_all rs) = sum (prices (price_all rs)) /\
  totalFinal (price_all rs) = sum (map final (counted rs)) /\
  Forall (fun x => 0 < x) (prices (price_all rs)).
Proof.
  destruct (price_chunks_fold rs pricing0) as (Hp & Hi & Hf).
  cbn zeta in Hp, Hi, Hf. cbn [pricing0 prices totalInitial totalFinal app] in *.
  unfold price_all. rewrite Hp, Hi, Hf.
  repeat split; try lia.
  apply Forall_forall. intros x Hx.
  apply list_elem_of_In, in_map_iff in Hx as (po & <- & Hpo).
  apply list_elem_of_In, list_elem_of_omap in Hpo as (e & _ & He).
  exact (priced_positive e po He).
Qed.

(** X3.  The order in which the price calls complete does not matter to
    the totals: when the same outcomes arrive in another order, the two
    totals are the same and the prices are the same up to their order. *)
Theorem price_totals_any_order (rs rs' : list (exn + list AppEntry)) :
  rs ≡ₚ rs' ->
  totalInitial (price_all rs') = totalInitial (price_all rs) /\
  totalFinal (price_all rs') = totalFinal (price_all rs) /\
  prices (price_all rs') ≡ₚ prices (price_all rs).
Proof.
  intros Hperm.
  destruct (price_chunks_fold rs pricing0) as (Hp & Hi & Hf).
  destruct (price_chunks_fold rs' pricing0) as (Hp' & Hi' & Hf').
  cbn zeta in *. cbn [pricing0 prices totalInitial totalFinal app] in *.
  unfold price_all. rewrite Hp, Hi, Hf, Hp', Hi', Hf'.
  assert (Hc : counted rs' ≡ₚ counted rs).
  { unfold counted, delivered. now rewrite Hperm. }
  repeat split.
  - f_equal. apply sum_Permutation. now rewrite Hc.
  - f_equal. apply sum_Permutation. now rewrite Hc.
  - now rewrite Hc.
Qed.

(** Two price calls that complete in either order. *)
Lemma price_totals_any_order_witness :
  let a : exn + list AppEntry :=
    inr [{| data := Some {| price_overview := Some {| final := 499; initial := 999 |} |} |}] in
  let b : exn + list AppEntry := inl "timeout of 10000ms exceeded" in
  let c : exn + list AppEntry :=
    inr [{| data := None |};
         {| data := Some {| price_overview := Some {| final := 0; initial := 0 |} |} |};
         {| data := Some {| price_overview := Some {| final := 1999; initial := 1999 |} |} |}] in
  [a; b; c] ≡ₚ [c; a; b] /\
  totalInitial (price_all [c; a; b]) = totalInitial (price_all [a; b; c]) /\
  totalFinal (price_all [c; a; b]) = totalFinal (price_all [a; b; c]) /\
  prices (price_all [c; a; b]) ≡ₚ prices (price_all [a; b; c]).
Proof.
  cbv zeta.
  match goal with
  | |- ?P /\ _ => assert (H : P)
  end.
  { apply Permutation_sym.
    etransitivity; [apply Permutation_swap |].
    apply Permutation_skip, Permutation_swap. }
  split; [exact H |].
  exact (price_totals_any_order _ _ H).
Defined.

(** ** Stretches of the two fetches *)

Section Stretches.

Variable formatter_format : float -> string.
Variable getAverage : list Z -> float.
Variable minutesToHoursCompact : Z -> string.
Variable minutesToHoursPrecise : float -> string.

#[local] Abbreviation make_gameData' :=
  (make_gameData formatter_format getAverage minutesToHoursCompact
     minutesToHoursPrecise).
#[local] Abbreviation resume' :=
  (resume formatter_format getAverage minutesToHoursCompact minutesToHoursPrecise).
#[local] Abbreviation step' :=
  (step formatter_format getAverage minutesToHoursCompact minutesToHoursPrecise).
#[local] Abbreviation run' :=
  (run formatter_format getAverage minutesToHoursCompact minutesToHoursPrecise).

(** X4.  When the owned-games list arrives, the fetch asks for the prices
    of every game of the list, played or not: it sends one price request
    per chunk, each with the country code of the call and with 1 to 200
    ids, the ids of the requests put together are the ids of the list in
    its order, and the fetch then waits for the price calls.  Nothing is
    written to the cache and the key stays registered. *)
Theorem price_requests_cover_library
    (p : nat) (uid cc steamId : string) (userGames : list Game) (now : Z)
    (st : state) :
  promises st !! p = Some (Running (GOwned uid cc steamId)) ->
  let st' := resume' p (RespOwned (inr userGames)) now st in
  exists chunks,
    sent st' = sent st ++ map (fun chunk => ReqPrices chunk cc) chunks /\
    concat chunks = map game_id userGames /\
    Forall (fun c => c <> [] /\ (length c <= 200)%nat) chunks /\
    promises st' !! p = Some (Running (GPrices uid cc userGames)) /\
    cache st' = cache st /\
    pendingRequests st' = pendingRequests st.
Proof.
  intros Hp st'. subst st'. unfold resume. rewrite Hp. cbn [continue].
  exists (gameIdChunks (gameIds (tally_games userGames))).
  destruct (chunks_fuel_spec _ (gameIds (tally_games userGames)) (Nat.le_refl _))
    as (Hc & Hf & _).
  cbn [sent send suspend promises cache pendingRequests].
  split; [reflexivity |].
  split; [unfold gameIdChunks; rewrite Hc; unfold tally_games; now rewrite tally_ids |].
  split; [exact Hf |].
  split; [| auto].
  apply list_lookup_insert_eq. eapply lookup_lt_Some, Hp.
Qed.

(** The totals object when no price is counted. *)
Lemma gameData_without_prices
    (userGames : list Game) (rs : list (exn + list AppEntry)) :
  counted rs = [] ->
  exists totals pc,
    make_gameData' userGames rs = DGames totals pc /\
    totalInitialFormatted totals = formatter_format 0%float /\
    totalFinalFormatted totals = formatter_format 0%float /\
    averageGamePrice totals = "$0.00" /\
    totalGames totals = Z.of_nat (length userGames) /\
    make_gameData' userGames [] = DGames totals pc.
Proof.
  intros Hnone. unfold make_gameData.
  destruct (price_chunks_fold rs pricing0) as (Hp & Hi & Hf).
  destruct (price_chunks_fold [] pricing0) as (Hp0 & Hi0 & Hf0).
  cbn zeta in *. rewrite Hnone in Hp, Hi, Hf.
  cbn [pricing0 prices totalInitial totalFinal app map sum fold_right counted
       delivered concat omap list_omap] in *.
  unfold price_all. rewrite Hp, Hi, Hf, Hp0, Hi0, Hf0.
  assert (Hz : (Z2F (0 + 0) / 100)%float = 0%float) by (vm_compute; reflexivity).
  rewrite Hz. eexists _, _. repeat split.
Qed.

(** X5.  When the price calls of a library fetch have settled and no
    price is counted (every call failed, or no entry has data with an
    initial price above 0), the fetch does not end in the error marker: its
    promise settles with totals, stored under its key, in which both price
    totals are the formatted 0, the average price is the fixed text
    '$0.00' and the number of games is that of the owned-games list; the
    key is no longer registered as in flight, and the fetch ends as it
    would have with no price call at all. *)
Theorem totals_without_prices
    (p : nat) (uid cc : string) (userGames : list Game)
    (rs : list (exn + list AppEntry)) (now : Z) (st : state) :
  promises st !! p = Some (Running (GPrices uid cc userGames)) ->
  counted rs = [] ->
  let st' := resume' p (RespPrices rs) now st in
  exists totals pc,
    promises st' !! p = Some (Settled (DGames totals pc)) /\
    cache st' !! games_key uid cc = Some (CEntry (DGames totals pc) now) /\
    pendingRequests st' !! games_key uid cc = None /\
    totalInitialFormatted totals = formatter_format 0%float /\
    totalFinalFormatted totals = formatter_format 0%float /\
    averageGamePrice totals = "$0.00" /\
    totalGames totals = Z.of_nat (length userGames) /\
    st' = resume' p (RespPrices []) now st.
Proof.
  intros Hp Hnone st'.
  destruct (gameData_without_prices userGames rs Hnone)
    as (totals & pc & E & Hi & Hf & Ha & Hn & E0).
  exists totals, pc.
  assert (H : st' = settle p (games_key uid cc) (DGames totals pc)
                      (set_cache (games_key uid cc)
                         (CEntry (DGames totals pc) now) st)).
  { subst st'. unfold resume. rewrite Hp. cbn [continue]. now rewrite E. }
  rewrite H. cbn [settle set_cache promises cache pendingRequests].
  split; [apply list_lookup_insert_eq; eapply lookup_lt_Some, Hp |].
  split; [apply lookup_insert_eq |].
  split; [apply lookup_delete_eq |].
  do 4 (split; [assumption |]).
  unfold resume. rewrite Hp. cbn [continue]. now rewrite E0.
Qed.

End Stretches.

(** The owned-games list of three games arrives at the waiting fetch. *)
Lemma price_requests_cover_library_witness :
  let st := Sample.awaiting_games in
  let st' := Sample.resume 0 (RespOwned (inr (Sample.library 2 3))) 2000 st in
  promises st !! 0%nat = Some (Running (GOwned "gabe" "US" "7656")) /\
  exists chunks,
    sent st' = sent st ++ map (fun chunk => ReqPrices chunk "US") chunks /\
    concat chunks = map game_id (Sample.library 2 3) /\
    Forall (fun c => c <> [] /\ (length c <= 200)%nat) chunks /\
    promises st' !! 0%nat = Some (Running (GPrices "gabe" "US" (Sample.library 2 3))) /\
    cache st' = cache st /\
    pendingRequests st' = pendingRequests st.
Proof.
  cbv zeta.
  assert (H : promises Sample.awaiting_games !! 0%nat
              = Some (Running (GOwned "gabe" "US" "7656")))
    by (vm_compute; reflexivity).
  split; [exact H |].
  exact (price_requests_cover_library Sample.format Sample.average Sample.compact
           Sample.precise 0 "gabe" "US" "7656" (Sample.library 2 3) 2000
           Sample.awaiting_games H).
Defined.

(** One price call timed out, the other brought a free game only. *)
Lemma totals_without_prices_witness :
  let rs : list (exn + list AppEntry) :=
    [inl "timeout of 10000ms exceeded";
     inr [{| data := Some {| price_overview := Some {| final := 0; initial := 0 |} |} |}]] in
  let st := Sample.resume 0 (RespOwned (inr (Sample.library 2 3))) 2000
              Sample.awaiting_games in
  let st' := Sample.resume 0 (RespPrices rs) 2500 st in
  promises st !! 0%nat = Some (Running (GPrices "gabe" "US" (Sample.library 2 3))) /\
  counted rs = [] /\
  exists totals pc,
    promises st' !! 0%nat = Some (Settled (DGames totals pc)) /\
    cache st' !! games_key "gabe" "US" = Some (CEntry (DGames totals pc) 2500) /\
    totalInitialFormatted totals = Sample.format 0%float /\
    averageGamePrice totals = "$0.00" /\
    totalGames totals = 3.
Proof.
  cbv zeta.
  match goal with |- ?P /\ _ => assert (H1 : P) by (vm_compute; reflexivity) end.
  split; [exact H1 |].
  match goal with |- ?P /\ _ => assert (H2 : P) by reflexivity end.
  split; [exact H2 |].
  destruct (totals_without_prices Sample.format Sample.average Sample.compact
              Sample.precise _ _ _ _ _ 2500 _ H1 H2)
    as (totals & pc & Hs & Hc & _ & Hi & _ & Ha & Hn & _).
  exists totals, pc. auto.
Defined.

(** ** Answers from the cache *)

Section Answers.

Variable formatter_format : float -> string.
Variable getAverage : list Z -> float.
Variable minutesToHoursCompact : Z -> string.
Variable minutesToHoursPrecise : float -> string.

#[local] Abbreviation continue' :=
  (continue formatter_format getAverage minutesToHoursCompact minutesToHoursPrecise).
#[local] Abbreviation resume' :=
  (resume formatter_format getAverage minutesToHoursCompact minutesToHoursPrecise).
#[local] Abbreviation step' :=
  (step formatter_format getAverage minutesToHoursCompact minutesToHoursPrecise).
#[local] Abbreviation call_cases' :=
  (call_cases formatter_format getAverage minutesToHoursCompact minutesToHoursPrecise).

(** A stretch that settles a fetch with something else than the error
    marker has stored that value under the key, with the time of the
    stretch. *)
Lemma settled_value_is_cached (p : nat) (s : stage) (resp : response) (now : Z)
    (st : state) (d : jsdata) :
  promises st !! p = Some (Running s) ->
  promises (continue' p s resp now st) !! p = Some (Settled d) ->
  (forall m, d <> DError m) ->
  cache (continue' p s resp now st) !! stage_key s = Some (CEntry d now) /\
  pendingRequests (continue' p s resp now st) !! stage_key s = None.
Proof.
  intros Hp Hd Hne.
  assert (Hlt : (p < length (promises st))%nat) by (eapply lookup_lt_Some, Hp).
  destruct s, resp as [[e | id] | [e | summary] info | [e | games] | rs];
    cbn [continue] in Hd |- *;
    cbn [promises settle suspend send set_cache] in Hd;
    rewrite ?list_lookup_insert_eq in Hd by exact Hlt;
    try congruence;
    try (injection Hd as <-; exfalso; eapply Hne; reflexivity);
    injection Hd as <-;
    cbn [cache pendingRequests settle set_cache stage_key];
    (split; [apply lookup_insert_eq | apply lookup_delete_eq]).
Qed.

(** X6.  A fetch that settles at time [t] with a profile or with totals
    answers the calls for its key from the cache for as long as its time to
    live (one hour for a profile, six hours for totals): a call whose clock
    is less than that after [t] gets the very value, starts nothing and
    sends nothing; a call at or after the end of that time starts a new
    fetch. *)
Theorem settled_value_is_served
    (p : nat) (s : stage) (resp : response) (t : Z) (st : state) (d : jsdata) :
  promises st !! p = Some (Running s) ->
  let st' := resume' p resp t st in
  promises st' !! p = Some (Settled d) ->
  (forall m, d <> DError m) ->
  forall e, event_key e = Some (stage_key s) ->
    (event_time e - t < event_ttl e ->
     returned st' e = Some (Now d) /\ step' st' e = st') /\
    (event_ttl e <= event_time e - t ->
     exists rs, rs <> [] /\
       returned st' e = Some (Later (length (promises st'))) /\
       sent (step' st' e) = sent st' ++ rs).
Proof.
  intros Hp st' Hd Hne e Hk. subst st'. unfold resume in *. rewrite Hp in *.
  destruct (settled_value_is_cached p s resp t st d Hp Hd Hne) as (Hc & Hpend).
  set (st' := continue' p s resp t st) in *.
  assert (Hans : answers st' (stage_key s) (event_time e) (event_ttl e)
                 = (event_time e - t <? event_ttl e)).
  { unfold answers. rewrite Hc. reflexivity. }
  split; intros Ht.
  - apply Z.ltb_lt in Ht. rewrite Ht in Hans.
    destruct (call_cases' e _ st' Hk)
      as [(_ & Hr & Hs) | [(Hv & _) | (Hv & _)]]; [| congruence | congruence].
    rewrite Hc in Hr. now split.
  - apply Z.ltb_ge in Ht. rewrite Ht in Hans.
    destruct (call_cases' e _ st' Hk)
      as [(Hv & _) | [(_ & p' & Hp' & _) | (_ & _ & s' & rs & _ & Hrs & Hr & Hs)]];
      [congruence | congruence |].
    exists rs. rewrite Hs. auto.
Qed.

Lemma steamid_keys_differ (uid : string) :
  steamid_meta_key uid <> steamid_key uid.
Proof.
  intros H. cbv [steamid_meta_key steamid_key String.append] in H.
  repeat (injection H as H).
  apply (f_equal String.length) in H. cbn [String.length] in H. lia.
Qed.

(** X7.  A name resolved by [getUserData] at time [t] to an id that is not
    empty is kept for seven days: when the profile fetch then fails and a
    later call starts a new fetch, that fetch asks for the two summaries of
    the kept id without resolving the name again if its clock is less than
    seven days after [t], and resolves the name again otherwise. *)
Theorem resolved_id_is_kept
    (p : nat) (uid id : string) (e : exn) (info : exn + FullInfo)
    (t t' now : Z) (st : state) :
  promises st !! p = Some (Running (UResolve uid)) ->
  id <> "" ->
  answers st (user_key uid) now CACHE_TTL = false ->
  let st1 := resume' p (RespResolve (inr id)) t st in
  let st2 := resume' p (RespSummaries (inl e) info) t' st1 in
  promises st2 !! p = Some (Settled (DError "no user")) /\
  (now - t < STEAMID_CACHE_TTL ->
   sent (snd (getUserData uid now st2))
   = sent st2 ++ [ReqUserSummary id; ReqFullInfo id]) /\
  (STEAMID_CACHE_TTL <= now - t ->
   sent (snd (getUserData uid now st2)) = sent st2 ++ [ReqResolve uid]).
Proof.
  intros Hp Hid Hans st1 st2.
  assert (Hlt : (p < length (promises st))%nat) by (eapply lookup_lt_Some, Hp).
  assert (H1 : promises st1 !! p = Some (Running (USummaries uid id))).
  { subst st1. unfold resume. rewrite Hp. cbn [continue suspend promises].
    now apply list_lookup_insert_eq. }
  assert (H2 : st2 = settle p (user_key uid) (DError "no user") st1).
  { subst st2. unfold resume. rewrite H1. reflexivity. }
  assert (Hc : cache st2 = <[steamid_meta_key uid := CMeta t]>
                             (<[steamid_key uid := CSteamId id]> (cache st))).
  { rewrite H2. subst st1. unfold resume. rewrite Hp. reflexivity. }
  assert (Hs : promises st2 !! p = Some (Settled (DError "no user"))).
  { rewrite H2. cbn [settle promises]. apply list_lookup_insert_eq.
    eapply lookup_lt_Some, H1. }
  assert (Hpend : pendingRequests st2 !! user_key uid = None).
  { rewrite H2. cbn [settle pendingRequests]. apply lookup_delete_eq. }
  assert (Hu : cache st2 !! user_key uid = cache st !! user_key uid).
  { rewrite Hc. rewrite !lookup_insert_ne by discriminate. reflexivity. }
  assert (Hi : cache st2 !! steamid_key uid = Some (CSteamId id)).
  { rewrite Hc. rewrite lookup_insert_ne by apply steamid_keys_differ.
    apply lookup_insert_eq. }
  assert (Hm : cache st2 !! steamid_meta_key uid = Some (CMeta t)).
  { rewrite Hc. apply lookup_insert_eq. }
  assert (Ht : truthy (Some (CSteamId id)) = true).
  { cbn. destruct (String.eqb_spec id ""); [contradiction | reflexivity]. }
  split; [exact Hs |].
  unfold getUserData. unfold answers in Hans. rewrite Hu, Hans, Hpend, Hi, Hm, Ht.
  cbn [negb orb truthy timestamp_of isCacheValid id_string].
  split; intros Hage.
  - apply Z.ltb_lt in Hage. rewrite Hage. reflexivity.
  - apply Z.ltb_ge in Hage. rewrite Hage. reflexivity.
Qed.

End Answers.

(** A profile fetched at second 2 is served until one hour later. *)
Lemma settled_value_is_served_witness :
  let summary :=
    {| nickname := "gabe"; us_visible := true;
       avatar_large := "https://avatars.example/full.jpg";
       lastLogOffTimestamp := Some 1700000000; createdTimestamp := Some 1100000000;
       us_countryCode := Some "US"; us_stateCode := None |} in
  let st := Sample.run init
              [CallUser "gabe" 1000; Deliver 0 (RespResolve (inr "7656")) 1500] in
  let resp := RespSummaries (inr summary) (inl "unavailable") in
  let st' := Sample.resume 0 resp 2000 st in
  let d := DUser (make_userData "7656" summary no_info) in
  promises st !! 0%nat = Some (Running (USummaries "gabe" "7656")) /\
  promises st' !! 0%nat = Some (Settled d) /\
  (forall m, d <> DError m) /\
  returned st' (CallUser "gabe" 3601999) = Some (Now d) /\
  exists rs, rs <> [] /\
    returned st' (CallUser "gabe" 3602000) = Some (Later (length (promises st'))) /\
    sent (Sample.run st' [CallUser "gabe" 3602000]) = sent st' ++ rs.
Proof.
  cbv zeta.
  match goal with |- ?P /\ _ => assert (H1 : P) by (vm_compute; reflexivity) end.
  split; [exact H1 |].
  match goal with |- ?P /\ _ => assert (H2 : P) by (vm_compute; reflexivity) end.
  split; [exact H2 |].
  match goal with |- ?P /\ _ => assert (H3 : P) by (intros m; discriminate) end.
  split; [exact H3 |].
  split.
  - destruct (settled_value_is_served Sample.format Sample.average
                Sample.compact Sample.precise _ _ _ _ _ _ H1 H2 H3
                (CallUser "gabe" 3601999) eq_refl) as [Hin _].
    apply Hin. vm_compute. reflexivity.
  - destruct (settled_value_is_served Sample.format Sample.average
                Sample.compact Sample.precise _ _ _ _ _ _ H1 H2 H3
                (CallUser "gabe" 3602000) eq_refl) as [_ Hout].
    apply Hout. vm_compute. discriminate.
Defined.

(** A name resolved at time 0, asked for again after six days and after
    seven. *)
Lemma resolved_id_is_kept_witness :
  let day := 24 * 60 * 60 * 1000 in
  let st := Sample.run init [CallUser "gabe" 0] in
  let st2 := Sample.resume 0 (RespSummaries (inl "unavailable") (inl "unavailable")) 5
               (Sample.resume 0 (RespResolve (inr "7656")) 0 st) in
  promises st !! 0%nat = Some (Running (UResolve "gabe")) /\
  "7656" <> "" /\
  answers st (user_key "gabe") (6 * day) CACHE_TTL = false /\
  answers st (user_key "gabe") (7 * day) CACHE_TTL = false /\
  sent (snd (getUserData "gabe" (6 * day) st2))
  = sent st2 ++ [ReqUserSummary "7656"; ReqFullInfo "7656"] /\
  sent (snd (getUserData "gabe" (7 * day) st2)) = sent st2 ++ [ReqResolve "gabe"].
Proof.
  cbv zeta.
  match goal with |- ?P /\ _ => assert (H1 : P) by (vm_compute; reflexivity) end.
  split; [exact H1 |].
  match goal with |- ?P /\ _ => assert (H2 : P) by discriminate end.
  split; [exact H2 |].
  match goal with |- ?P /\ _ => assert (H3 : P) by (vm_compute; reflexivity) end.
  split; [exact H3 |].
  match goal with |- ?P /\ _ => assert (H4 : P) by (vm_compute; reflexivity) end.
  split; [exact H4 |].
  split.
  - destruct (resolved_id_is_kept Sample.format Sample.average
                Sample.compact Sample.precise 0 "gabe" "7656" "unavailable"
                (inl "unavailable") 0 5 _ _ H1 H2 H3) as (_ & Hin & _).
    apply Hin. vm_compute. reflexivity.
  - destruct (resolved_id_is_kept Sample.format Sample.average
                Sample.compact Sample.precise 0 "gabe" "7656" "unavailable"
                (inl "unavailable") 0 5 _ _ H1 H2 H4) as (_ & _ & Hout).
    apply Hout. vm_compute. discriminate.
Defined.

(** ** Reachable states *)

Section Reachable.

Variable formatter_format : float -> string.
Variable getAverage : list Z -> float.
Variable minutesToHoursCompact : Z -> string.
Variable minutesToHoursPrecise : float -> string.

#[local] Abbreviation continue' :=
  (continue formatter_format getAverage minutesToHoursCompact minutesToHoursPrecise).
#[local] Abbreviation resume' :=
  (resume formatter_format getAverage minutesToHoursCompact minutesToHoursPrecise).
#[local] Abbreviation step' :=
  (step formatter_format getAverage minutesToHoursCompact minutesToHoursPrecise).
#[local] Abbreviation run' :=
  (run formatter_format getAverage minutesToHoursCompact minutesToHoursPrecise).
#[local] Abbreviation call_cases' :=
  (call_cases formatter_format getAverage minutesToHoursCompact minutesToHoursPrecise).
#[local] Abbreviation wf_run' :=
  (wf_run formatter_format getAverage minutesToHoursCompact minutesToHoursPrecise).

(** X8.  In every state the event loop can reach there is at most one
    running fetch per key, and the in-flight table holds just the running
    fetches: a key is registered for a promise exactly when that promise is
    a running fetch of the key. *)
Theorem one_fetch_per_key (es : list event) :
  let st := run' init es in
  (forall p q s s',
     promises st !! p = Some (Running s) ->
     promises st !! q = Some (Running s') ->
     stage_key s = stage_key s' -> p = q) /\
  (forall k p,
     pendingRequests st !! k = Some p <->
     exists s, promises st !! p = Some (Running s) /\ stage_key s = k).
Proof.
  intros st. destruct (wf_run' init es wf_init) as [W1 W2]. fold st in W1, W2.
  split.
  - intros p q s s' Hp Hq Hk.
    pose proof (W1 _ _ Hp) as H1. pose proof (W1 _ _ Hq) as H2.
    rewrite Hk in H1. congruence.
  - intros k p. split; [apply W2 |].
    intros (s & Hs & <-). now apply W1.
Qed.

Lemma typed_insert (k : string) (v : cacheval) (st : state) :
  typed_cache st -> typed_entry k v -> typed_cache (set_cache k v st).
Proof.
  intros Hst Hv k' v' H. cbn [cache set_cache] in H.
  apply lookup_insert_Some in H as [[<- <-] | [_ H]]; [exact Hv | now apply Hst].
Qed.

Lemma typed_steamid (uid : string) (v : cacheval) :
  typed_entry (steamid_key uid) v /\ typed_entry (steamid_meta_key uid) v.
Proof. repeat split; intros; discriminate. Qed.

Lemma typed_user (uid : string) (u : UserData) (t : Z) :
  typed_entry (user_key uid) (CEntry (DUser u) t).
Proof. split; [eauto | intros; discriminate]. Qed.

Lemma typed_games (uid cc : string) (userGames : list Game)
    (rs : list (exn + list AppEntry)) (t : Z) :
  typed_entry (games_key uid cc)
    (CEntry (make_gameData formatter_format getAverage minutesToHoursCompact
               minutesToHoursPrecise userGames rs) t).
Proof. split; [intros; discriminate | intros _ _ _; unfold make_gameData; eauto]. Qed.

Lemma typed_same (st st' : state) :
  cache st' = cache st -> typed_cache st -> typed_cache st'.
Proof. unfold typed_cache. now intros ->. Qed.

Lemma typed_continue (p : nat) (s : stage) (resp : response) (now : Z) (st : state) :
  typed_cache st -> typed_cache (continue' p s resp now st).
Proof.
  intros Hst.
  destruct s as [uid | uid sid | uid cc | uid cc sid | uid cc userGames],
           resp as [[e | id] | [e | summary] info | [e | games] | rs];
    cbn [continue]; try exact Hst;
    try (apply (typed_same st); [reflexivity | exact Hst]).
  - apply (typed_same (set_cache (steamid_meta_key uid) (CMeta now)
                         (set_cache (steamid_key uid) (CSteamId id) st)));
      [reflexivity |].
    apply typed_insert; [apply typed_insert; [exact Hst |] |]; apply typed_steamid.
  - apply (typed_same (set_cache (user_key uid)
                         (CEntry (DUser (make_userData sid summary
                            match info with inr i => i | inl _ => no_info end)) now) st));
      [reflexivity |].
    apply typed_insert; [exact Hst | apply typed_user].
  - apply (typed_same (set_cache (steamid_key uid) (CSteamId id) st)); [reflexivity |].
    apply typed_insert; [exact Hst | apply typed_steamid].
  - eapply typed_same; [| apply typed_insert; [exact Hst | apply typed_games]].
    reflexivity.
Qed.

Lemma typed_step (st : state) (e : event) : typed_cache st -> typed_cache (step' st e).
Proof.
  intros Hst. destruct e as [uid now | uid cc now | p resp now].
  - destruct (call_cases' (CallUser uid now) _ st eq_refl)
      as [(_ & _ & ->) | [(_ & p & _ & _ & ->) | (_ & _ & s & rs & _ & _ & _ & ->)]];
      exact Hst.
  - destruct (call_cases' (CallGames uid cc now) _ st eq_refl)
      as [(_ & _ & ->) | [(_ & p & _ & _ & ->) | (_ & _ & s & rs & _ & _ & _ & ->)]];
      exact Hst.
  - cbn [step]. unfold resume.
    destruct (promises st !! p) as [[s | d] |]; [| exact Hst | exact Hst].
    now apply typed_continue.
Qed.

Lemma typed_run (es : list event) :
  forall st, typed_cache st -> typed_cache (run' st es).
Proof.
  induction es as [| e es IH]; intros st Hst; [exact Hst |].
  cbn [run fold_left]. apply IH, typed_step, Hst.
Qed.

Lemma typed_init : typed_cache init.
Proof. intros k v H. cbn in H. rewrite lookup_empty in H. discriminate H. Qed.

(** X9.  Whatever has happened before, a call that is answered from the
    cache is answered with a value of its kind: [getUserData] with a
    profile and [getGameData] with totals, never with the error marker,
    with a missing value or with what the other fetcher stored. *)
Theorem cached_answers_are_data (es : list event) (e : event) (d : jsdata) :
  returned (run' init es) e = Some (Now d) ->
  match e with
  | CallUser _ _ => exists u, d = DUser u
  | CallGames _ _ _ => exists totals pc, d = DGames totals pc
  | Deliver _ _ _ => False
  end.
Proof.
  intros Hr. pose proof (typed_run es init typed_init) as Hst.
  set (st := run' init es) in *.
  destruct e as [uid now | uid cc now | p resp now]; [| | discriminate Hr].
  - destruct (call_cases' (CallUser uid now) _ st eq_refl)
      as [(Hv & Hr' & _) | [(_ & p & _ & Hr' & _) | (_ & _ & s & rs & _ & _ & Hr' & _)]];
      [| congruence | congruence].
    unfold answers in Hv. apply andb_true_iff in Hv as [Hv _].
    destruct (cache st !! user_key uid) as [v |] eqn:E; [| discriminate Hv].
    destruct (Hst _ _ E) as [Hu _]. destruct (Hu uid eq_refl) as (u & t & ->).
    exists u. cbn [data_of] in Hr'. congruence.
  - destruct (call_cases' (CallGames uid cc now) _ st eq_refl)
      as [(Hv & Hr' & _) | [(_ & p & _ & Hr' & _) | (_ & _ & s & rs & _ & _ & Hr' & _)]];
      [| congruence | congruence].
    unfold answers in Hv. apply andb_true_iff in Hv as [Hv _].
    destruct (cache st !! games_key uid cc) as [v |] eqn:E; [| discriminate Hv].
    destruct (Hst _ _ E) as [_ Hg]. destruct (Hg uid cc eq_refl) as (totals & pc & t & ->).
    exists totals, pc. cbn [data_of] in Hr'. congruence.
Qed.

End Reachable.

(** X10.  The two fetchers do not share the resolution of a name.  When no
    id of the user is cached, no valid answer is cached and nothing is in
    flight for either key, the two calls of one request start two fetches,
    and each of them asks the resolver for the same name. *)
Theorem cold_request_resolves_twice (q : query) (now : Z) (st : state) :
  let uid := q_uid q in
  let cc := default "US" (country_code q) in
  truthy (cache st !! steamid_key uid) = false ->
  answers st (user_key uid) now CACHE_TTL = false ->
  answers st (games_key uid cc) now GAME_DATA_CACHE_TTL = false ->
  pendingRequests st !! user_key uid = None ->
  pendingRequests st !! games_key uid cc = None ->
  exists st',
    handler_fetch q now st
    = (Later (length (promises st)), Later (S (length (promises st))), st') /\
    sent st' = sent st ++ [ReqResolve uid; ReqResolve uid] /\
    promises st' = promises st ++ [Running (UResolve uid); Running (GResolve uid cc)].
Proof.
  intros uid cc Hid Hu Hg Pu Pg. unfold handler_fetch, answers in *.
  fold uid. fold cc.
  unfold getUserData. rewrite Hu, Pu, Hid. cbn [negb orb spawn].
  unfold getGameData. cbn [cache pendingRequests].
  rewrite Hg, lookup_insert_ne, Pg, Hid by discriminate. cbn [negb spawn].
  eexists. split; [| split].
  - cbn [promises]. rewrite length_app. cbn [length].
    rewrite Nat.add_1_r. reflexivity.
  - cbn [sent]. now rewrite <- app_assoc.
  - cbn [promises]. now rewrite <- app_assoc.
Qed.

(** Two fetches wait, one for each key of a user. *)
Lemma one_fetch_per_key_witness :
  let st := Sample.run init [CallUser "gabe" 1000; CallGames "gabe" "US" 1000;
                             CallUser "gabe" 1001] in
  promises st !! 0%nat = Some (Running (UResolve "gabe")) /\
  pendingRequests st !! user_key "gabe" = Some 0%nat.
Proof.
  cbv zeta.
  match goal with |- ?P /\ _ => assert (H : P) by (vm_compute; reflexivity) end.
  split; [exact H |].
  apply (proj2 (one_fetch_per_key Sample.format Sample.average Sample.compact
                  Sample.precise
                  [CallUser "gabe" 1000; CallGames "gabe" "US" 1000;
                   CallUser "gabe" 1001])).
  eexists. split; [exact H | reflexivity].
Defined.

(** A profile answered from the cache half an hour after its fetch. *)
Lemma cached_answers_are_data_witness :
  let summary :=
    {| nickname := "gabe"; us_visible := true;
       avatar_large := "https://avatars.example/full.jpg";
       lastLogOffTimestamp := Some 1700000000; createdTimestamp := Some 1100000000;
       us_countryCode := Some "US"; us_stateCode := None |} in
  let es := [CallUser "gabe" 1000; Deliver 0 (RespResolve (inr "7656")) 1500;
             Deliver 0 (RespSummaries (inr summary) (inl "unavailable")) 2000] in
  let d := DUser (make_userData "7656" summary no_info) in
  returned (Sample.run init es) (CallUser "gabe" 1800000) = Some (Now d) /\
  exists u, d = DUser u.
Proof.
  cbv zeta.
  match goal with |- ?P /\ _ => assert (H : P) by (vm_compute; reflexivity) end.
  split; [exact H |].
  exact (cached_answers_are_data Sample.format Sample.average Sample.compact
           Sample.precise _ (CallUser "gabe" 1800000) _ H).
Defined.

(** The first request after the start of the server. *)
Lemma cold_request_resolves_twice_witness :
  let q := plain_query "gabe" in
  truthy (cache init !! steamid_key "gabe") = false /\
  answers init (user_key "gabe") 1000 CACHE_TTL = false /\
  answers init (games_key "gabe" "US") 1000 GAME_DATA_CACHE_TTL = false /\
  pendingRequests init !! user_key "gabe" = None /\
  pendingRequests init !! games_key "gabe" "US" = None /\
  exists st',
    handler_fetch q 1000 init = (Later 0%nat, Later 1%nat, st') /\
    sent st' = [ReqResolve "gabe"; ReqResolve "gabe"] /\
    promises st' = [Running (UResolve "gabe"); Running (GResolve "gabe" "US")].
Proof.
  cbv zeta.
  match goal with |- ?P /\ _ => assert (H1 : P) by (vm_compute; reflexivity) end.
  split; [exact H1 |].
  match goal with |- ?P /\ _ => assert (H2 : P) by (vm_compute; reflexivity) end.
  split; [exact H2 |].
  match goal with |- ?P /\ _ => assert (H3 : P) by (vm_compute; reflexivity) end.
  split; [exact H3 |].
  match goal with |- ?P /\ _ => assert (H4 : P) by (vm_compute; reflexivity) end.
  split; [exact H4 |].
  match goal with |- ?P /\ _ => assert (H5 : P) by (vm_compute; reflexivity) end.
  split; [exact H5 |].
  exact (cold_request_resolves_twice (plain_query "gabe") 1000 init H1 H2 H3 H4 H5).
Defined.

(** ** The image cache *)

(** X11.  A successful [getCachedImage] leaves a copy of the image in the
    image cache, and later calls for the same path are answered with that
    copy, without the decoder being asked and without a change of the
    cache, as long as their clock is less than the time to live after the
    time of the copy (24 hours for the avatar, one hour for the others). *)
Theorem loaded_image_is_reused
    (loadImage : string -> exn + image) (now : Z) (imagePath : string)
    (isAvatar : bool) (s s' : rstate) (img : image) :
  getCachedImage loadImage now imagePath isAvatar s = (inr img, s') ->
  exists t,
    imageCache s' !! ("img_" +:+ imagePath) = Some (img, t) /\
    now - t < image_ttl isAvatar /\
    forall (loadImage' : string -> exn + image) (now' : Z),
      now' - t < image_ttl isAvatar ->
      getCachedImage loadImage' now' imagePath isAvatar s' = (inr img, s').
Proof.
  unfold getCachedImage, image_ttl.
  assert (Hpos : 0 < (if isAvatar then AVATAR_CACHE_TTL else CACHE_TTL))
    by (destruct isAvatar; reflexivity).
  destruct (imageCache s !! _) as [[i t] |] eqn:E;
    [destruct (isCacheValid now _ _) eqn:V |];
    try (destruct (loadImage imagePath) as [x | i']; [discriminate |]);
    intros [= <- <-].
  - exists t. split; [exact E |]. split; [now apply Z.ltb_lt in V |].
    intros load' now' Hage. rewrite E. cbn [isCacheValid].
    apply Z.ltb_lt in Hage. now rewrite Hage.
  - exists now. cbn [imageCache]. rewrite lookup_insert_eq.
    split; [reflexivity |]. split; [lia |].
    intros load' now' Hage. cbn [isCacheValid].
    apply Z.ltb_lt in Hage. now rewrite Hage.
  - exists now. cbn [imageCache]. rewrite lookup_insert_eq.
    split; [reflexivity |]. split; [lia |].
    intros load' now' Hage. cbn [isCacheValid].
    apply Z.ltb_lt in Hage. now rewrite Hage.
Qed.

(** X12.  When [getCachedImage] throws, it throws the error of the
    decoder, the image cache and the canvas are as they were, and no valid
    copy was in the cache: a copy that has expired is not handed out in
    place of an image that fails to load, and it stays in the cache. *)
Theorem failed_load_changes_nothing
    (loadImage : string -> exn + image) (now : Z) (imagePath : string)
    (isAvatar : bool) (s s' : rstate) (error : exn) :
  getCachedImage loadImage now imagePath isAvatar s = (inl error, s') ->
  s' = s /\
  loadImage imagePath = inl error /\
  forall img t, imageCache s !! ("img_" +:+ imagePath) = Some (img, t) ->
                image_ttl isAvatar <= now - t.
Proof.
  unfold getCachedImage, image_ttl.
  destruct (imageCache s !! _) as [[i t] |] eqn:E;
    [destruct (isCacheValid now _ _) eqn:V |];
    try (destruct (loadImage imagePath) as [x | i'] eqn:L; [| discriminate]);
    intros [= <- <-]; (split; [reflexivity | split; [reflexivity |]]).
  - intros img t' [= <- <-]. now apply Z.ltb_ge in V.
  - intros img t' H. discriminate H.
Qed.

(** An avatar loaded at time 0 and asked for again with a decoder that
    fails. *)
Lemma loaded_image_is_reused_witness :
  let path := "https://avatars.example/full.jpg" in
  let img := {| src := path; img_width := 184; img_height := 184 |} in
  let s' := {| font := "10px sans-serif"; log := [];
               imageCache := {[ "img_" +:+ path := (img, 0) ]} |} in
  getCachedImage Sample.loadImage 0 path true (fresh ∅) = (inr img, s') /\
  getCachedImage Sample.loadStatic 86399999 path true s' = (inr img, s').
Proof.
  cbv zeta.
  match goal with |- ?P /\ _ => assert (H : P) by (vm_compute; reflexivity) end.
  split; [exact H |].
  destruct (loaded_image_is_reused _ _ _ _ _ _ _ H) as (t & Ht & _ & Hre).
  assert (t = 0) as -> by (vm_compute in Ht; congruence).
  apply Hre. vm_compute. reflexivity.
Defined.

(** The avatar fails to load on a cold cache. *)
Lemma failed_load_changes_nothing_witness :
  let path := "https://avatars.example/full.jpg" in
  getCachedImage Sample.loadStatic 0 path true (fresh ∅)
  = (inl "unsupported image type", fresh ∅) /\
  Sample.loadStatic path = inl "unsupported image type".
Proof.
  cbv zeta.
  match goal with |- ?P /\ _ => assert (H : P) by (vm_compute; reflexivity) end.
  split; [exact H |].
  exact (proj1 (proj2 (failed_load_changes_nothing _ _ _ _ _ _ _ H))).
Defined.

(** ** The location line *)

Lemma length_substring_le (n : nat) :
  forall s : string, (String.length (substring 0 n s) <= n)%nat.
Proof.
  induction n as [| n IH]; intros [| c s]; cbn; try lia.
  specialize (IH s). lia.
Qed.

(** The text of the location line. *)
Lemma location_text_cases (userData : UserData) :
  (String.length (location_text userData) <= 25)%nat /\
  (forall l, location userData = Some l -> l <> "" ->
     location_text userData
     = if (22 <? String.length l)%nat then substring 0 22 l +:+ "..." else l) /\
  (location userData = None \/ location userData = Some "" ->
   location_text userData = "Unknown").
Proof.
  unfold location_text, or_default. split; [| split].
  - destruct (location userData) as [l |];
      [destruct (String.eqb l "") |]; try (cbn; lia).
    destruct (Nat.ltb_spec 22 (String.length l)); [| lia].
    rewrite length_append. pose proof (length_substring_le 22 l).
    cbn [String.length]. lia.
  - intros l -> Hl. destruct (String.eqb_spec l ""); [contradiction | reflexivity].
  - intros [-> | ->]; reflexivity.
Qed.

(** What the secondary lookup leaves of the location when it brings
    none. *)
Lemma no_location_text
    (steamId : string) (userSummary : UserSummary) (info : exn + FullInfo) :
  has_location info = false ->
  location_text
    (make_userData steamId userSummary
       match info with inr i => i | inl _ => no_info end) = "Unknown".
Proof.
  unfold has_location, location_text, make_userData, or_default.
  cbn [location].
  destruct info as [e | [os [[| l ls] |]]]; cbn [fi_location no_info head_opt];
    try reflexivity.
  destruct (String.eqb l ""); [reflexivity | discriminate].
Qed.

Section LocationOnCard.

Variable measureText : string -> string -> float.
Variable loadImage : string -> exn + image.
Variable cwd : string.
Variable Date_now : Z.
Variable moment_fromNow : Z -> string.
Variable getRelativeTimeImprecise : Z -> string.
Variable pricePerHour : option string -> option string -> string.

#[local] Abbreviation createFullCanvas' :=
  (createFullCanvas measureText loadImage cwd Date_now moment_fromNow
     getRelativeTimeImprecise pricePerHour).

(** The location is drawn at (43, 232)... *)
Lemma location_is_drawn userData gameData q :
  emits (FillText (location_text userData) 43 232)
    (createFullCanvas' userData gameData q).
Proof.
  unfold createFullCanvas.
  do 4 (apply emits_later; [unfold_blocks; emits_any | intros ?]).
  apply emits_first;
    [| intros ?; unfold_blocks; unfold draw_stats; unfold_stats; emits_any].
  unfold draw_location.
  do 4 (apply emits_later; [emits_any | intros ?]).
  apply emits_here.
Qed.

(** ... and no other text is drawn at that height. *)
Lemma location_is_alone userData gameData q :
  emits_only (text_at 232 (location_text userData)) any_cache
    (createFullCanvas' userData gameData q).
Proof. unfold_blocks. unfold draw_stats. unfold_stats. emits_text. Qed.

(** X13.  Every image has one text at the place of the location,
    (43, 232), and it never has more than 25 characters: a location of up
    to 22 characters is drawn as it is, a longer one as its first 22
    characters and three dots, and for a profile without a location, or
    with an empty one, the text is "Unknown".  (A character is a code unit
    of the text; the strings of the model hold the code units below
    256.) *)
Theorem location_text_bound
    (userData : UserData) (gameData : jsdata) (q : query)
    (images : gmap string (image * Z)) (canvasBuffer : list cmd) (s' : rstate) :
  createFullCanvas' userData gameData q (fresh images) = (inr canvasBuffer, s') ->
  exists drawn : string,
    In (FillText drawn 43 232) canvasBuffer /\
    forallb (text_at 232 drawn) canvasBuffer = true /\
    (String.length drawn <= 25)%nat /\
    (forall l, location userData = Some l -> l <> "" ->
       drawn = if (22 <? String.length l)%nat
               then substring 0 22 l +:+ "..." else l) /\
    (location userData = None \/ location userData = Some "" ->
     drawn = "Unknown").
Proof.
  intros H. exists (location_text userData).
  split; [eapply buffer_has; [exact H | apply location_is_drawn] |].
  split; [eapply buffer_of_fresh; [exact H | apply location_is_alone] |].
  apply location_text_cases.
Qed.

End LocationOnCard.

(** X14.  When the summary of a user arrives at a profile fetch and the
    secondary lookup has failed, or has brought no list of locations, an
    empty list or an empty first element, the fetch still ends in a
    profile, stored under its key, and every image drawn from that profile
    has the text "Unknown", and no other, at the place of the location. *)
Theorem missing_location_is_unknown
    (formatter_format : float -> string) (getAverage : list Z -> float)
    (minutesToHoursCompact : Z -> string) (minutesToHoursPrecise : float -> string)
    (p : nat) (uid steamId : string) (userSummary : UserSummary)
    (info : exn + FullInfo) (now : Z) (st : state) :
  promises st !! p = Some (Running (USummaries uid steamId)) ->
  has_location info = false ->
  let st' := resume formatter_format getAverage minutesToHoursCompact
               minutesToHoursPrecise p (RespSummaries (inr userSummary) info) now st in
  exists userData : UserData,
    promises st' !! p = Some (Settled (DUser userData)) /\
    cache st' !! user_key uid = Some (CEntry (DUser userData) now) /\
    forall measureText loadImage cwd Date_now moment_fromNow
           getRelativeTimeImprecise pricePerHour gameData q images canvasBuffer s',
      createFullCanvas measureText loadImage cwd Date_now moment_fromNow
        getRelativeTimeImprecise pricePerHour userData gameData q (fresh images)
      = (inr canvasBuffer, s') ->
      In (FillText "Unknown" 43 232) canvasBuffer /\
      forallb (text_at 232 "Unknown") canvasBuffer = true.
Proof.
  intros Hp Hnone st'.
  exists (make_userData steamId userSummary
            match info with inr i => i | inl _ => no_info end).
  subst st'. unfold resume. rewrite Hp. cbn [continue].
  cbn [settle set_cache promises cache].
  split; [apply list_lookup_insert_eq; eapply lookup_lt_Some, Hp |].
  split; [apply lookup_insert_eq |].
  intros mt load cwd now' fromNow relative pph gameData q images b s' H.
  rewrite <- (no_location_text steamId userSummary info Hnone).
  split.
  - eapply buffer_has; [exact H | apply location_is_drawn].
  - eapply buffer_of_fresh; [exact H | apply location_is_alone].
Qed.

(** A location of 30 characters on the card. *)
Lemma location_text_bound_witness :
  let user :=
    {| steamId := "76561198000000000"; personaName := "gabe"; visible := true;
       avatar := ""; lastLogOff := None; createdAt := None; countryCode := None;
       stateCode := None; onlineState := None;
       location := Some "Bellevue, Washington, United S" |} in
  exists canvasBuffer s',
    createFullCanvas Sample.measureText Sample.loadImage Sample.cwd 1700000500000
      Sample.fromNow Sample.relative Sample.pricePerHour user
      (DError "private games") (plain_query "gabe") (fresh ∅)
    = (inr canvasBuffer, s') /\
    In (FillText "Bellevue, Washington, ..." 43 232) canvasBuffer /\
    forallb (text_at 232 "Bellevue, Washington, ...") canvasBuffer = true.
Proof.
  cbv zeta.
  match goal with
  | |- exists b s', ?r = _ /\ _ =>
      assert (Hok : succeeded (fst r) = true) by (vm_compute; reflexivity);
      destruct r as [[x | b] s'] eqn:E; [discriminate Hok |]
  end.
  destruct (location_text_bound _ _ _ _ _ _ _ _ _ _ _ _ _ E)
    as (drawn & Hin & Honly & _ & Hcut & _).
  rewrite (Hcut _ eq_refl ltac:(discriminate)) in Hin, Honly.
  eexists _, _. split; [reflexivity |]. split; [exact Hin | exact Honly].
Defined.

(** The secondary lookup has failed; the card of the profile. *)
Lemma missing_location_is_unknown_witness :
  let summary :=
    {| nickname := "gabe"; us_visible := true;
       avatar_large := "https://avatars.example/full.jpg";
       lastLogOffTimestamp := None; createdTimestamp := None;
       us_countryCode := None; us_stateCode := None |} in
  let st := Sample.run init
              [CallUser "gabe" 1000; Deliver 0 (RespResolve (inr "7656")) 1500] in
  let st' := Sample.resume 0 (RespSummaries (inr summary) (inl "unavailable")) 2000 st in
  promises st !! 0%nat = Some (Running (USummaries "gabe" "7656")) /\
  has_location (inl "unavailable") = false /\
  exists userData canvasBuffer s',
    promises st' !! 0%nat = Some (Settled (DUser userData)) /\
    createFullCanvas Sample.measureText Sample.loadImage Sample.cwd 1700000500000
      Sample.fromNow Sample.relative Sample.pricePerHour userData
      (DError "private games") (plain_query "gabe") (fresh ∅)
    = (inr canvasBuffer, s') /\
    In (FillText "Unknown" 43 232) canvasBuffer.
Proof.
  intros summary st st'.
  assert (H1 : promises st !! 0%nat = Some (Running (USummaries "gabe" "7656")))
    by (vm_compute; reflexivity).
  assert (H2 : has_location (inl "unavailable") = false) by reflexivity.
  split; [exact H1 |]. split; [exact H2 |].
  destruct (missing_location_is_unknown Sample.format Sample.average Sample.compact
              Sample.precise 0 "gabe" "7656" summary (inl "unavailable") 2000 st
              H1 H2)
    as (u & Hs & Hc & Hcard).
  assert (Hs' : promises st' !! 0%nat
                = Some (Settled (DUser (make_userData "7656" summary no_info))))
    by (vm_compute; reflexivity).
  assert (Hu : u = make_userData "7656" summary no_info).
  { unfold st', Sample.resume in Hs'. congruence. }
  subst u.
  exists (make_userData "7656" summary no_info).
  match goal with
  | |- exists b s', _ /\ ?r = _ /\ _ =>
      assert (Hok : succeeded (fst r) = true) by (vm_compute; reflexivity);
      destruct r as [[x | b] s'] eqn:E; [discriminate Hok |]
  end.
  eexists _, _. split; [exact Hs' |]. split; [reflexivity |].
  exact (proj1 (Hcard _ _ _ _ _ _ _ _ _ _ _ _ E)).
Defined.

(** ** Cache keys *)

Lemma append_same_length (s s' t t' : string) :
  s +:+ t = s' +:+ t' -> String.length t = String.length t' -> s = s' /\ t = t'.
Proof.
  revert s'. induction s as [| c s IH]; intros [| c' s'] H Hlen.
  - auto.
  - apply (f_equal String.length) in H. rewrite !length_append in H.
    cbn [String.length] in H. lia.
  - apply (f_equal String.length) in H. rewrite !length_append in H.
    cbn [String.length] in H. lia.
  - rewrite !append_cons in H. injection H as -> H.
    destruct (IH s' H Hlen) as [-> ->]. auto.
Qed.

(** X15.  Different users never share a profile entry, and a profile entry
    is never a totals entry.  Two library requests share a totals entry
    only if they agree in user and country code, provided the two country
    codes have the same length (as two-letter codes have). *)
Theorem cache_keys_are_separate (uid uid' cc cc' : string) :
  (user_key uid = user_key uid' -> uid = uid') /\
  user_key uid <> games_key uid' cc' /\
  (String.length cc = String.length cc' ->
   games_key uid cc = games_key uid' cc' -> uid = uid' /\ cc = cc').
Proof.
  split; [| split].
  - intros H. cbv [user_key String.append] in H. now repeat (injection H as H).
  - discriminate.
  - intros Hlen H. unfold games_key in H.
    change ("games_" +:+ uid +:+ "_" +:+ cc)
      with ("games_" +:+ (uid +:+ "_" +:+ cc)) in H.
    change ("games_" +:+ uid' +:+ "_" +:+ cc')
      with ("games_" +:+ (uid' +:+ "_" +:+ cc')) in H.
    cbv [String.append] in H. repeat (injection H as H).
    fold String.append in H.
    apply append_same_length in H as [Hu Hc].
    + split; [exact Hu |]. now injection Hc.
    + cbn [String.length String.append]. now rewrite Hlen.
Qed.

(** Without the condition on the country codes two requests can share an
    entry. *)
Example games_key_collision : games_key "a_b" "c" = games_key "a" "b_c".
Proof. reflexivity. Qed.

(** ** Border, theme and texts of the card *)

Section Card.

Variable measureText : string -> string -> float.
Variable loadImage : string -> exn + image.
Variable cwd : string.
Variable Date_now : Z.
Variable moment_fromNow : Z -> string.
Variable getRelativeTimeImprecise : Z -> string.
Variable pricePerHour : option string -> option string -> string.

#[local] Abbreviation createFullCanvas' :=
  (createFullCanvas measureText loadImage cwd Date_now moment_fromNow
     getRelativeTimeImprecise pricePerHour).

Lemma hidden_border_emits userData gameData q :
  hide_border q = Some "true" ->
  emits_only no_border any_cache (createFullCanvas' userData gameData q).
Proof.
  intros H. unfold_blocks. rewrite H. cbn [String.eqb Ascii.eqb Bool.eqb negb].
  unfold draw_stats. unfold_stats. emits_any.
Qed.

(** X16.  With [hide_border=true] no border is drawn: the image holds no
    stroked rectangle, and it is the same image whatever [border_width] and
    [border_color] are given. *)
Theorem hidden_border_is_not_drawn
    (userData : UserData) (gameData : jsdata) (q : query)
    (images : gmap string (image * Z)) :
  hide_border q = Some "true" ->
  (forall b s',
     createFullCanvas' userData gameData q (fresh images) = (inr b, s') ->
     forallb no_border b = true) /\
  (forall w c,
     createFullCanvas' userData gameData (with_border_width w (with_border_color c q))
     = createFullCanvas' userData gameData q).
Proof.
  intros H. split.
  - intros b s' Hb. eapply buffer_of_fresh; [exact Hb |].
    now apply hidden_border_emits.
  - intros w c. unfold_blocks. unfold draw_stats. unfold_stats.
    cbn [hide_border with_border_width with_border_color]. rewrite H.
    cbn [String.eqb Ascii.eqb Bool.eqb negb when].
    cbn [resolve_palette p_bg p_title p_sub_title p_text p_username p_id p_cp
         p_ip p_div p_progbar_bg p_progbar theme bg_color title_color
         sub_title_color text_color username_color id_color cp_color ip_color
         div_color progbar_bg progbar_color with_border_width with_border_color].
    reflexivity.
Qed.

Lemma unknown_theme_palette (q : query) (t : string) :
  theme q = None -> t <> "dark" -> t <> "light" ->
  resolve_palette (with_theme t q) = resolve_palette q.
Proof.
  intros Hnone Hd Hl. unfold resolve_palette, if_dark, if_light, is_theme.
  cbn [theme with_theme bg_color title_color sub_title_color text_color
       username_color id_color cp_color ip_color div_color border_color
       progbar_bg progbar_color].
  rewrite Hnone.
  destruct (String.eqb_spec t "dark"); [contradiction |].
  destruct (String.eqb_spec t "light"); [contradiction |].
  reflexivity.
Qed.

(** X17.  A theme other than 'dark' and 'light' is no theme: the card is
    the one drawn when no theme is given, with every colour as supplied or
    at its default. *)
Theorem unknown_theme_is_ignored
    (userData : UserData) (gameData : jsdata) (q : query) (t : string) :
  theme q = None -> t <> "dark" -> t <> "light" ->
  createFullCanvas' userData gameData (with_theme t q)
  = createFullCanvas' userData gameData q.
Proof.
  intros Hnone Hd Hl. unfold createFullCanvas, draw_border.
  rewrite (unknown_theme_palette q t Hnone Hd Hl).
  reflexivity.
Qed.

(** X18.  A profile without a time of the last log-off, or with the time
    0, has the line "Last seen never" on its card, and a profile without a
    time of creation, or with the time 0, has the line "Unknown" in the
    place of the joining date. *)
Theorem missing_times_are_worded
    (userData : UserData) (gameData : jsdata) (q : query) (s s' : rstate)
    (b : list cmd) :
  createFullCanvas' userData gameData q s = (inr b, s') ->
  (lastLogOff userData = None \/ lastLogOff userData = Some 0 ->
   In (FillText "Last seen never" 43 257) b) /\
  (createdAt userData = None \/ createdAt userData = Some 0 ->
   In (FillText "Unknown" 43 283) b).
Proof.
  intros H. split; intros Hnone; eapply buffer_has; try exact H.
  - unfold createFullCanvas.
    do 5 (apply emits_later; [unfold_blocks; emits_any | intros ?]).
    apply emits_first;
      [| intros ?; unfold_blocks; unfold draw_stats; unfold_stats; emits_any].
    unfold draw_last_seen.
    assert (stamp (lastLogOff userData) = None) as ->
      by (destruct Hnone as [-> | ->]; reflexivity).
    do 4 (apply emits_later; [emits_any | intros ?]).
    apply emits_here.
  - unfold createFullCanvas.
    do 6 (apply emits_later; [unfold_blocks; emits_any | intros ?]).
    apply emits_first;
      [| intros ?; unfold_blocks; unfold draw_stats; unfold_stats; emits_any].
    unfold draw_created_at.
    assert (stamp (createdAt userData) = None) as ->
      by (destruct Hnone as [-> | ->]; reflexivity).
    do 4 (apply emits_later; [emits_any | intros ?]).
    apply emits_here.
Qed.

Lemma card_fonts_emits userData gameData q :
  emits_only (font_in "Geist") any_cache (createFullCanvas' userData gameData q).
Proof. unfold_blocks. unfold draw_stats. unfold_stats. emits_any. Qed.

(** X19.  Every text of the card is set in a font of the family Geist, in
    one of eight weights and sizes, and Geist is a family that
    [ensureFontsLoaded] registers. *)
Theorem card_fonts_are_registered
    (userData : UserData) (gameData : jsdata) (q : query)
    (images : gmap string (image * Z)) (b : list cmd) (s' : rstate) (v : string) :
  createFullCanvas' userData gameData q (fresh images) = (inr b, s') ->
  In (SetFont v) b ->
  In v (fonts_of "Geist") /\
  In "Geist" (map snd (registered (ensureFontsLoaded cwd no_fonts))).
Proof.
  intros H Hv. split; [| cbn; auto].
  pose proof (buffer_of_fresh _ _ _ _ _ _ _ _ _ _ _ _ _ H _ (card_fonts_emits _ _ _))
    as Hall.
  rewrite forallb_forall in Hall. specialize (Hall _ Hv). cbn [font_in] in Hall.
  apply existsb_exists in Hall as (f & Hf & Heq).
  apply String.eqb_eq in Heq. now subst.
Qed.

Lemma stat_block_value (pal : palette) (caption colour value : string)
    (x yc yv : float) :
  emits (FillText value x yv) (stat_block pal caption colour value x yc yv).
Proof.
  unfold stat_block.
  do 5 (apply emits_later; [emits_any | intros ?]).
  apply emits_here.
Qed.

Lemma Z_toString_zero : Z_toString 0 = "0".
Proof. reflexivity. Qed.

(** The texts of the stat blocks of a library. *)
Lemma stat_blocks_texts (pal : palette) (totals : Totals) (pc : PlayCount) :
  totalFinalFormatted totals <> "" ->
  totalInitialFormatted totals <> "" ->
  averagePlaytime totals <> "" ->
  totalPlaytimeHours totals <> "" ->
  let stats := draw_stat_blocks measureText pricePerHour pal (DGames totals pc) in
  emits (FillText "Current Price" 215 80) stats /\
  emits (FillText (totalFinalFormatted totals) 215 110) stats /\
  emits (FillText "Initial Price" 370 80) stats /\
  emits (FillText (totalInitialFormatted totals) 370 110) stats /\
  emits (FillText (Z_toString (totalGames totals)) 215 190) stats /\
  emits (FillText (averagePlaytime totals +:+ "h") 215 270) stats /\
  emits (FillText (totalPlaytimeHours totals +:+ "h") 370 270) stats.
Proof.
  intros Hf Hi Ha Hp.
  assert (Ef : or_default (Some (totalFinalFormatted totals)) "$0"
               = totalFinalFormatted totals).
  { cbn. now destruct (String.eqb_spec (totalFinalFormatted totals) ""). }
  assert (Ei : or_default (Some (totalInitialFormatted totals)) "$0"
               = totalInitialFormatted totals).
  { cbn. now destruct (String.eqb_spec (totalInitialFormatted totals) ""). }
  assert (Ea : or_default (Some (averagePlaytime totals)) "0"
               = averagePlaytime totals).
  { cbn. now destruct (String.eqb_spec (averagePlaytime totals) ""). }
  assert (Ep : or_default (Some (totalPlaytimeHours totals)) "0"
               = totalPlaytimeHours totals).
  { cbn. now destruct (String.eqb_spec (totalPlaytimeHours totals) ""). }
  assert (Eg : totalGames_text (DGames totals pc) = Z_toString (totalGames totals)).
  { unfold totalGames_text. cbn [totals_of].
    destruct (Z.eqb_spec (totalGames totals) 0) as [-> |]; reflexivity. }
  unfold draw_stat_blocks. cbv zeta.
  cbn [totals_of fmap option_fmap option_map].
  rewrite Ef, Ei, Ea, Ep, Eg.
  repeat split.
  - apply emits_first; [| intros ?; unfold_stats; emits_any].
    unfold stat_block. do 2 (apply emits_later; [emits_any | intros ?]).
    apply emits_first; [apply emits_here | intros ?; emits_any].
  - apply emits_first; [apply stat_block_value | intros ?; unfold_stats; emits_any].
  - apply emits_later; [unfold_stats; emits_any | intros ?].
    apply emits_first; [| intros ?; unfold_stats; emits_any].
    unfold stat_block. do 2 (apply emits_later; [emits_any | intros ?]).
    apply emits_first; [apply emits_here | intros ?; emits_any].
  - apply emits_later; [unfold_stats; emits_any | intros ?].
    apply emits_first; [apply stat_block_value | intros ?; unfold_stats; emits_any].
  - do 2 (apply emits_later; [unfold_stats; emits_any | intros ?]).
    apply emits_first; [apply stat_block_value | intros ?; unfold_stats; emits_any].
  - do 5 (apply emits_later; [unfold_stats; emits_any | intros ?]).
    apply emits_first; [apply stat_block_value | intros ?; unfold_stats; emits_any].
  - do 6 (apply emits_later; [unfold_stats; emits_any | intros ?]).
    apply emits_first; [apply stat_block_value | intros ?; unfold_stats; emits_any].
Qed.

(** What the stat blocks of a library draw is on its card. *)
Lemma stats_on_card userData totals pc q (c : cmd) :
  emits c (draw_stat_blocks measureText pricePerHour (resolve_palette q)
             (DGames totals pc)) ->
  emits c (createFullCanvas' userData (DGames totals pc) q).
Proof.
  intros Hc. unfold createFullCanvas.
  do 10 (apply emits_later; [unfold_blocks; emits_any | intros ?]).
  change (draw_stats measureText pricePerHour ?pal (DGames totals pc))
    with (draw_stat_blocks measureText pricePerHour pal (DGames totals pc)).
  apply emits_first; [exact Hc | intros ?; unfold_blocks; emits_any].
Qed.

(** X20.  The card of a library shows its totals where their captions
    are: the formatted total of the final prices under "Current Price", the
    formatted total of the initial prices under "Initial Price", the number
    of games under "Total Games", and the two playtimes with an "h" after
    them. *)
Theorem card_shows_totals
    (userData : UserData) (totals : Totals) (pc : PlayCount) (q : query)
    (s s' : rstate) (b : list cmd) :
  createFullCanvas' userData (DGames totals pc) q s = (inr b, s') ->
  totalFinalFormatted totals <> "" ->
  totalInitialFormatted totals <> "" ->
  averagePlaytime totals <> "" ->
  totalPlaytimeHours totals <> "" ->
  In (FillText "Current Price" 215 80) b /\
  In (FillText (totalFinalFormatted totals) 215 110) b /\
  In (FillText "Initial Price" 370 80) b /\
  In (FillText (totalInitialFormatted totals) 370 110) b /\
  In (FillText (Z_toString (totalGames totals)) 215 190) b /\
  In (FillText (averagePlaytime totals +:+ "h") 215 270) b /\
  In (FillText (totalPlaytimeHours totals +:+ "h") 370 270) b.
Proof.
  intros H Hf Hi Ha Hp.
  destruct (stat_blocks_texts (resolve_palette q) totals pc Hf Hi Ha Hp)
    as (H1 & H2 & H3 & H4 & H5 & H6 & H7).
  repeat split;
    (eapply buffer_has; [exact H | apply stats_on_card; assumption]).
Qed.

End Card.

(** ** Fonts *)

(** X21.  The fonts are registered once: the first call of
    [ensureFontsLoaded] registers the two font files of the application
    under the families Geist and Elgraine, and every further call changes
    nothing, however many requests are handled. *)
Theorem fonts_are_registered_once (cwd : string) (n : nat) :
  let f := Nat.iter (S n) (ensureFontsLoaded cwd) no_fonts in
  fontsLoaded f = true /\
  registered f = [(cwd +:+ "/public/GeistVF.woff2", "Geist");
                  (cwd +:+ "/public/Elgraine-Black-Italic.ttf", "Elgraine")] /\
  ensureFontsLoaded cwd f = f.
Proof.
  induction n as [| n (Hl & Hr & Hf)]; [repeat split |].
  cbn zeta. change (Nat.iter (S (S n)) (ensureFontsLoaded cwd) no_fonts)
    with (ensureFontsLoaded cwd (Nat.iter (S n) (ensureFontsLoaded cwd) no_fonts)).
  cbn zeta in Hl, Hr, Hf. rewrite Hf. auto.
Qed.

(** ** The order of the calls *)

Section Order.

Variable measureText : string -> string -> float.
Variable loadImage : string -> exn + image.
Variable cwd : string.
Variable Date_now : Z.
Variable moment_fromNow : Z -> string.
Variable getRelativeTimeImprecise : Z -> string.
Variable pricePerHour : option string -> option string -> string.

#[local] Abbreviation createFullCanvas' :=
  (createFullCanvas measureText loadImage cwd Date_now moment_fromNow
     getRelativeTimeImprecise pricePerHour).
#[local] Abbreviation getCachedImage' := (getCachedImage loadImage Date_now).

(** Loading an image draws nothing. *)
Lemma image_keeps_log (path : string) (isAvatar : bool) (s s' : rstate)
    (r : exn + image) :
  getCachedImage' path isAvatar s = (r, s') -> log s' = log s.
Proof.
  intros H.
  destruct (emits_image (fun _ => false) any_cache loadImage Date_now path isAvatar
              ltac:(intros; exact I) _ _ _ H I) as (_ & l & Hl & Hall).
  destruct l as [| c l]; [exact Hl | discriminate Hall].
Qed.

(** What the watermark adds. *)
Lemma watermark_calls (s s' : rstate) (a : unit) :
  draw_watermark loadImage cwd Date_now s = (inr a, s') ->
  exists watermarkImage,
    log s' = rev [SetGlobalAlpha watermark_alpha; SetFillStyle "#737373";
                  SetFont "16px Geist";
                  FillText "steeeam.vercel.app" (canvas_width - 155)
                    (canvas_height - 17);
                  DrawImage watermarkImage (canvas_width - 180) (canvas_height - 32);
                  SetGlobalAlpha 1] ++ log s.
Proof.
  unfold draw_watermark. intros H.
  do 4 (apply bind_ok in H as (? & ? & [= <- <-] & H)).
  apply bind_ok in H as (img & s1 & E & H).
  apply image_keeps_log in E. cbn [log] in E.
  apply bind_ok in H as (? & ? & [= <- <-] & H).
  injection H as _ <-. cbn [log rev app]. rewrite E.
  exists img. reflexivity.
Qed.

(** X22.  Only the watermark is drawn translucent.  Every image begins
    with the background, then the transparency is set to 0.4, the watermark
    text and its image are drawn and the transparency is set back to 1;
    nothing that follows changes the transparency. *)
Theorem watermark_alone_is_translucent
    (userData : UserData) (gameData : jsdata) (q : query) (s s' : rstate)
    (b : list cmd) :
  createFullCanvas' userData gameData q s = (inr b, s') ->
  exists watermarkImage rest,
    b = rev (log s) ++
        [SetFillStyle ("#" +:+ p_bg (resolve_palette q));
         FillRect 0 0 canvas_width canvas_height;
         SetGlobalAlpha watermark_alpha; SetFillStyle "#737373";
         SetFont "16px Geist";
         FillText "steeeam.vercel.app" (canvas_width - 155) (canvas_height - 17);
         DrawImage watermarkImage (canvas_width - 180) (canvas_height - 32);
         SetGlobalAlpha 1] ++ rest /\
    forallb no_alpha rest = true.
Proof.
  intros H. pose proof (render_buffer _ _ _ _ _ _ _ _ _ _ _ _ _ H) as ->.
  unfold createFullCanvas in H.
  apply bind_ok in H as (? & s1 & E1 & H).
  apply bind_ok in H as (? & s2 & E2 & H).
  unfold draw_background in E1.
  apply bind_ok in E1 as (? & ? & [= <- <-] & E1). injection E1 as _ <-.
  apply watermark_calls in E2 as (img & E2). cbn [log] in E2.
  assert (Hrest : emits_only no_alpha any_cache
            (draw_username measureText (resolve_palette q) userData;;
             draw_steamid (resolve_palette q) userData;;
             draw_location loadImage cwd Date_now (resolve_palette q) userData;;
             draw_last_seen loadImage cwd Date_now moment_fromNow
               (resolve_palette q) userData;;
             draw_created_at loadImage cwd Date_now getRelativeTimeImprecise
               (resolve_palette q) userData;;
             draw_vertical_divider (resolve_palette q);;
             draw_stats_header loadImage cwd Date_now (resolve_palette q);;
             draw_horizontal_divider (resolve_palette q);;
             draw_stats measureText pricePerHour (resolve_palette q) gameData;;
             draw_avatar loadImage Date_now userData;;
             draw_border q (resolve_palette q);;
             toBuffer)).
  { unfold_blocks. unfold draw_stats. unfold_stats. emits_any. }
  destruct (Hrest _ _ _ H I) as (_ & l & Hl & Hall).
  exists img, (rev l). split; [| now apply forallb_rev].
  rewrite Hl, E2. cbn [rev app]. rewrite !rev_app_distr. cbn [rev app].
  rewrite <- !app_assoc. reflexivity.
Qed.

(** What the avatar adds: nothing, or the clipped drawing of an image. *)
Lemma avatar_adds (userData : UserData) (s s' : rstate) (a : unit) :
  draw_avatar loadImage Date_now userData s = (inr a, s') ->
  log s' = log s \/
  exists img w h r, log s' = rev (avatar_calls img 35 20 w h r) ++ log s.
Proof.
  unfold draw_avatar, when.
  destruct (negb (String.eqb (avatar userData) ""));
    [| intros [= <- <-]; now left].
  unfold drawCenteredRoundedImage, try_catch, mbind, M_bind at 1.
  destruct (getCachedImage' (avatar userData) true s) as [[e | img] s1] eqn:E;
    apply image_keeps_log in E.
  - intros [= <- <-]. now left.
  - cbv zeta.
    match goal with
    | |- context [?m s1] =>
        match type of m with
        | M unit => destruct (m s1) as [[e | u] s2] eqn:B
        end
    end.
    + exfalso. revert B. unfold emit, mbind, M_bind. discriminate.
    + intros [= <- <-]. right.
      revert B. unfold emit, mbind, M_bind. intros B. injection B as _ <-. cbn [log].
      rewrite E. eexists _, _, _, _. reflexivity.
Qed.

(** X23.  The clipping of the avatar never reaches what is drawn after it.
    An image either has no clipped drawing at all (no avatar address, or an
    avatar that failed to load), or exactly one: a [save], the rounded
    path, [clip], the avatar drawn to its size and [restore], with no
    [save], [clip] or [restore] before it and none after it. *)
Theorem avatar_clip_is_undone
    (userData : UserData) (gameData : jsdata) (q : query)
    (images : gmap string (image * Z)) (s' : rstate) (b : list cmd) :
  createFullCanvas' userData gameData q (fresh images) = (inr b, s') ->
  forallb no_avatar b = true \/
  exists img w h r before after,
    b = before ++ avatar_calls img 35 20 w h r ++ after /\
    forallb no_avatar before = true /\ forallb no_avatar after = true.
Proof.
  intros H. pose proof (render_buffer _ _ _ _ _ _ _ _ _ _ _ _ _ H) as ->.
  unfold createFullCanvas in H.
  assert (Hacc : exists l, log (fresh images) = l ++ log (fresh images)
                           /\ forallb no_avatar l = true) by (exists []; auto).
  do 11 (let E := fresh "E" in
         apply bind_ok in H as (? & ? & E & H);
         eapply (emits_chain no_avatar) in Hacc;
         [| | exact E];
         [clear E | unfold_canvas; unfold draw_stats; unfold_stats; emits_any]).
  destruct Hacc as (l & Hl & Hall). cbn [fresh log] in Hl. rewrite app_nil_r in Hl.
  apply bind_ok in H as (? & sa & Ea & H).
  apply bind_ok in H as (? & sb & Eb & H).
  injection H as _ <-.
  assert (Hb : emits_only no_avatar any_cache (draw_border q (resolve_palette q)))
    by (unfold draw_border; emits_any).
  destruct (Hb _ _ _ Eb I) as (_ & lb & Lb & Fb).
  apply avatar_adds in Ea as [Ea | (img & w & h & r & Ea)].
  - left. rewrite Lb, Ea, Hl. rewrite rev_app_distr, forallb_app.
    now rewrite !forallb_rev.
  - right. exists img, w, h, r, (rev l), (rev lb).
    rewrite Lb, Ea, Hl. rewrite !rev_app_distr, rev_involutive.
    split; [now rewrite <- app_assoc |].
    split; now apply forallb_rev.
Qed.

End Order.

(** ** What stays in the caches and what a fetch ends in *)

Section Kept.

Variable formatter_format : float -> string.
Variable getAverage : list Z -> float.
Variable minutesToHoursCompact : Z -> string.
Variable minutesToHoursPrecise : float -> string.

#[local] Abbreviation continue' :=
  (continue formatter_format getAverage minutesToHoursCompact minutesToHoursPrecise).
#[local] Abbreviation step' :=
  (step formatter_format getAverage minutesToHoursCompact minutesToHoursPrecise).
#[local] Abbreviation run' :=
  (run formatter_format getAverage minutesToHoursCompact minutesToHoursPrecise).
#[local] Abbreviation call_cases' :=
  (call_cases formatter_format getAverage minutesToHoursCompact minutesToHoursPrecise).

Lemma continue_keeps (p : nat) (s : stage) (resp : response) (now : Z) (st : state)
    (k : string) :
  is_Some (cache st !! k) -> is_Some (cache (continue' p s resp now st) !! k).
Proof.
  intros Hk.
  destruct s, resp as [[e | id] | [e | summary] info | [e | games] | rs];
    cbn [continue cache settle suspend send set_cache];
    rewrite ?lookup_insert_is_Some'; auto.
Qed.

Lemma step_keeps (st : state) (e : event) (k : string) :
  is_Some (cache st !! k) -> is_Some (cache (step' st e) !! k).
Proof.
  intros Hk. destruct e as [uid now | uid cc now | p resp now].
  - destruct (call_cases' (CallUser uid now) _ st eq_refl)
      as [(_ & _ & ->) | [(_ & p & _ & _ & ->) | (_ & _ & s & rs & _ & _ & _ & ->)]];
      exact Hk.
  - destruct (call_cases' (CallGames uid cc now) _ st eq_refl)
      as [(_ & _ & ->) | [(_ & p & _ & _ & ->) | (_ & _ & s & rs & _ & _ & _ & ->)]];
      exact Hk.
  - cbn [step]. unfold resume.
    destruct (promises st !! p) as [[s | d] |]; [| exact Hk | exact Hk].
    now apply continue_keeps.
Qed.

(** X24.  Nothing is ever taken out of the cache of the fetchers: a key
    that holds a value holds one after any further calls and deliveries.
    An entry that has expired stays where it is until a later fetch of the
    same key writes over it. *)
Theorem cache_never_forgets (st : state) (es : list event) (k : string) :
  is_Some (cache st !! k) -> is_Some (cache (run' st es) !! k).
Proof.
  revert st. induction es as [| e es IH]; intros st Hk; [exact Hk |].
  cbn [run fold_left]. apply IH, step_keeps, Hk.
Qed.

(** The values a promise can hold once it has settled. *)
Lemma continue_settles (p : nat) (s : stage) (resp : response) (now : Z) (st : state)
    (q : nat) (d : jsdata) :
  promises (continue' p s resp now st) !! q = Some (Settled d) ->
  promises st !! q = Some (Settled d) \/
  (exists u, d = DUser u) \/ (exists totals pc, d = DGames totals pc) \/
  d = DError "no user" \/ d = DError "private games".
Proof.
  destruct s, resp as [[e | id] | [e | summary] info | [e | games] | rs];
    cbn [continue promises settle suspend send set_cache]; auto;
    intros H; apply list_lookup_insert_Some in H as [(_ & H & _) | [_ H]]; auto;
    first [discriminate H | injection H as <-; unfold make_gameData; eauto 8].
Qed.

Lemma step_settles (st : state) (e : event) (q : nat) (d : jsdata) :
  promises (step' st e) !! q = Some (Settled d) ->
  promises st !! q = Some (Settled d) \/
  (exists u, d = DUser u) \/ (exists totals pc, d = DGames totals pc) \/
  d = DError "no user" \/ d = DError "private games".
Proof.
  destruct e as [uid now | uid cc now | p resp now].
  - destruct (call_cases' (CallUser uid now) _ st eq_refl)
      as [(_ & _ & ->) | [(_ & p & _ & _ & ->) | (_ & _ & s & rs & _ & _ & _ & ->)]];
      auto.
    cbn [promises]. intros H.
    apply lookup_snoc_Some in H as [[_ H] | [_ H]]; [auto | discriminate H].
  - destruct (call_cases' (CallGames uid cc now) _ st eq_refl)
      as [(_ & _ & ->) | [(_ & p & _ & _ & ->) | (_ & _ & s & rs & _ & _ & _ & ->)]];
      auto.
    cbn [promises]. intros H.
    apply lookup_snoc_Some in H as [[_ H] | [_ H]]; [auto | discriminate H].
  - cbn [step]. unfold resume.
    destruct (promises st !! p) as [[s | d'] |]; auto.
    apply continue_settles.
Qed.

(** X25.  A fetch ends in one of four ways, whatever has happened: with a
    profile, with totals, or with one of the two error markers 'no user'
    and 'private games'.  No promise ever settles with a missing value or
    with another message. *)
Theorem fetches_end_in_data_or_marker (es : list event) (p : nat) (d : jsdata) :
  promises (run' init es) !! p = Some (Settled d) ->
  (exists u, d = DUser u) \/ (exists totals pc, d = DGames totals pc) \/
  d = DError "no user" \/ d = DError "private games".
Proof.
  induction es as [| e es IH] using rev_ind.
  - cbn. rewrite lookup_nil. discriminate.
  - unfold run. rewrite fold_left_app. cbn [fold_left]. intros H.
    apply step_settles in H as [H | H]; [now apply IH | exact H].
Qed.

End Kept.

Section KeptImages.

Variable measureText : string -> string -> float.
Variable loadImage : string -> exn + image.
Variable cwd : string.
Variable Date_now : Z.
Variable moment_fromNow : Z -> string.
Variable getRelativeTimeImprecise : Z -> string.
Variable pricePerHour : option string -> option string -> string.

Lemma canvas_keeps (k : string) userData gameData q :
  emits_only any_call (fun images => is_Some (images !! k))
    (createFullCanvas measureText loadImage cwd Date_now moment_fromNow
       getRelativeTimeImprecise pricePerHour userData gameData q).
Proof.
  unfold_blocks. unfold draw_stats. unfold_stats.
  emits_with ltac:(intros; rewrite lookup_insert_is_Some'; auto).
Qed.

(** X26.  Nothing is ever taken out of the image cache either: an image
    that is cached before a request is cached after it, whether the request
    ends in an image or in the answer 500. *)
Theorem image_cache_never_forgets
    (userData gameData : jsdata) (q : query) (images : gmap string (image * Z))
    (k : string) :
  is_Some (images !! k) ->
  is_Some (snd (handler_respond measureText loadImage cwd Date_now moment_fromNow
                  getRelativeTimeImprecise pricePerHour userData gameData q images)
           !! k).
Proof.
  intros Hk. unfold handler_respond.
  destruct userData as [u | totals pc | m |]; try exact Hk.
  destruct (createFullCanvas _ _ _ _ _ _ _ u gameData q (fresh images))
    as [[e | b] s'] eqn:E; cbn [snd];
    now destruct (canvas_keeps k u gameData q _ _ _ E Hk).
Qed.

End KeptImages.

(** ** The card of the sample user *)

(** A card without border. *)
Lemma hidden_border_is_not_drawn_witness :
  let q := with_hide_border "true" (plain_query "gabe") in
  hide_border q = Some "true" /\
  exists b,
    Sample.render Sample.loadImage (Sample.games 2 3) q = inr b /\
    forallb no_border b = true /\
    Sample.render Sample.loadImage (Sample.games 2 3)
      (with_border_width "8" (with_border_color "ff0000" q)) = inr b.
Proof.
  cbv zeta.
  assert (H : hide_border (with_hide_border "true" (plain_query "gabe")) = Some "true")
    by reflexivity.
  split; [exact H |].
  assert (Hok : succeeded (Sample.render Sample.loadImage (Sample.games 2 3)
                             (with_hide_border "true" (plain_query "gabe"))) = true)
    by (vm_compute; reflexivity).
  destruct (hidden_border_is_not_drawn Sample.measureText Sample.loadImage Sample.cwd
              1700000500000 Sample.fromNow Sample.relative Sample.pricePerHour
              Sample.user (Sample.games 2 3) _ ∅ H) as [Hno Hsame].
  unfold Sample.render in *. rewrite Hsame.
  destruct (createFullCanvas Sample.measureText Sample.loadImage Sample.cwd
              1700000500000 Sample.fromNow Sample.relative Sample.pricePerHour
              Sample.user (Sample.games 2 3)
              (with_hide_border "true" (plain_query "gabe")) (fresh ∅))
    as [[x | b] s'] eqn:E; [discriminate Hok |].
  exists b. split; [reflexivity |]. split; [exact (Hno b s' eq_refl) | reflexivity].
Defined.

(** A theme that does not exist. *)
Lemma unknown_theme_is_ignored_witness :
  theme (plain_query "gabe") = None /\ "blue" <> "dark" /\ "blue" <> "light" /\
  Sample.render Sample.loadImage (Sample.games 2 3) (with_theme "blue" (plain_query "gabe"))
  = Sample.render Sample.loadImage (Sample.games 2 3) (plain_query "gabe").
Proof.
  assert (H1 : theme (plain_query "gabe") = None) by reflexivity.
  assert (H2 : "blue" <> "dark") by discriminate.
  assert (H3 : "blue" <> "light") by discriminate.
  split; [exact H1 |]. split; [exact H2 |]. split; [exact H3 |].
  unfold Sample.render.
  now rewrite (unknown_theme_is_ignored Sample.measureText Sample.loadImage Sample.cwd
                 1700000500000 Sample.fromNow Sample.relative Sample.pricePerHour
                 Sample.user (Sample.games 2 3) (plain_query "gabe") "blue" H1 H2 H3).
Defined.

(** A profile that shows neither its last log-off nor its creation. *)
Lemma missing_times_are_worded_witness :
  let hidden :=
    {| steamId := "76561198000000000"; personaName := "gabe"; visible := false;
       avatar := ""; lastLogOff := Some 0; createdAt := None;
       countryCode := None; stateCode := None; onlineState := None;
       location := None |} in
  exists b s',
    createFullCanvas Sample.measureText Sample.loadImage Sample.cwd 1700000500000
      Sample.fromNow Sample.relative Sample.pricePerHour hidden
      (DError "private games") (plain_query "gabe") (fresh ∅) = (inr b, s') /\
    In (FillText "Last seen never" 43 257) b /\
    In (FillText "Unknown" 43 283) b.
Proof.
  cbv zeta.
  match goal with
  | |- exists b s', ?r = _ /\ _ =>
      assert (Hok : succeeded (fst r) = true) by (vm_compute; reflexivity);
      destruct r as [[x | b] s'] eqn:E; [discriminate Hok |]
  end.
  exists b, s'. split; [reflexivity |].
  destruct (missing_times_are_worded _ _ _ _ _ _ _ _ _ _ _ _ _ E) as [Hseen Hjoin].
  split; [apply Hseen; now right | apply Hjoin; now left].
Defined.

(** The font of the name on the sample card. *)
Lemma card_fonts_are_registered_witness :
  exists b s',
    createFullCanvas Sample.measureText Sample.loadImage Sample.cwd 1700000500000
      Sample.fromNow Sample.relative Sample.pricePerHour Sample.user
      (Sample.games 2 3) (plain_query "gabe") (fresh ∅) = (inr b, s') /\
    In (SetFont "700 20px Geist") b /\
    In "700 20px Geist" (fonts_of "Geist") /\
    In "Geist" (map snd (registered (ensureFontsLoaded Sample.cwd no_fonts))).
Proof.
  match goal with
  | |- exists b s', ?r = _ /\ _ =>
      assert (Hok : draws (is_SetFont "700 20px Geist") (fst r) = true)
        by (vm_compute; reflexivity);
      destruct r as [[x | b] s'] eqn:E; [discriminate Hok |]
  end.
  exists b, s'. split; [reflexivity |].
  cbn [draws fst] in Hok. apply existsb_exists in Hok as (c & Hc & Hv).
  destruct c; try discriminate Hv. cbn [is_SetFont] in Hv.
  apply String.eqb_eq in Hv. subst v.
  split; [exact Hc |].
  exact (card_fonts_are_registered _ _ _ _ _ _ _ _ _ _ _ _ _ _ E Hc).
Defined.

(** The first calls of the sample card. *)
Lemma watermark_alone_is_translucent_witness :
  exists b s' watermarkImage rest,
    createFullCanvas Sample.measureText Sample.loadImage Sample.cwd 1700000500000
      Sample.fromNow Sample.relative Sample.pricePerHour Sample.user
      (Sample.games 2 3) (plain_query "gabe") (fresh ∅) = (inr b, s') /\
    b = [SetFillStyle "#0b0b0b"; FillRect 0 0 canvas_width canvas_height;
         SetGlobalAlpha watermark_alpha; SetFillStyle "#737373";
         SetFont "16px Geist";
         FillText "steeeam.vercel.app" (canvas_width - 155) (canvas_height - 17);
         DrawImage watermarkImage (canvas_width - 180) (canvas_height - 32);
         SetGlobalAlpha 1] ++ rest /\
    forallb no_alpha rest = true.
Proof.
  match goal with
  | |- exists b s' _ _, ?r = _ /\ _ =>
      assert (Hok : succeeded (fst r) = true) by (vm_compute; reflexivity);
      destruct r as [[x | b] s'] eqn:E; [discriminate Hok |]
  end.
  destruct (watermark_alone_is_translucent _ _ _ _ _ _ _ _ _ _ _ _ _ E)
    as (img & rest & Hb & Hrest).
  exists b, s', img, rest. split; [reflexivity |]. split; [exact Hb | exact Hrest].
Defined.

(** The avatar of the sample card. *)
Lemma avatar_clip_is_undone_witness :
  exists b s',
    createFullCanvas Sample.measureText Sample.loadImage Sample.cwd 1700000500000
      Sample.fromNow Sample.relative Sample.pricePerHour Sample.user
      (Sample.games 2 3) (plain_query "gabe") (fresh ∅) = (inr b, s') /\
    (forallb no_avatar b = true \/
     exists img w h r before after,
       b = before ++ avatar_calls img 35 20 w h r ++ after /\
       forallb no_avatar before = true /\ forallb no_avatar after = true).
Proof.
  match goal with
  | |- exists b s', ?r = _ /\ _ =>
      assert (Hok : succeeded (fst r) = true) by (vm_compute; reflexivity);
      destruct r as [[x | b] s'] eqn:E; [discriminate Hok |]
  end.
  exists b, s'. split; [reflexivity |].
  exact (avatar_clip_is_undone _ _ _ _ _ _ _ _ _ _ _ _ _ E).
Defined.

(** The card of a library of three games. *)
Lemma card_shows_totals_witness :
  let totals :=
    {| totalInitialFormatted := "$129.95"; totalFinalFormatted := "$99.50";
       averageGamePrice := "$43.32"; totalPlaytimeHours := "12";
       averagePlaytime := "6.0"; totalGames := 3 |} in
  let pc := {| playedCount := 2; unplayedCount := 1; totalPlaytime := 720 |} in
  totalFinalFormatted totals <> "" /\ totalInitialFormatted totals <> "" /\
  averagePlaytime totals <> "" /\ totalPlaytimeHours totals <> "" /\
  exists b s',
    createFullCanvas Sample.measureText Sample.loadImage Sample.cwd 1700000500000
      Sample.fromNow Sample.relative Sample.pricePerHour Sample.user
      (DGames totals pc) (plain_query "gabe") (fresh ∅) = (inr b, s') /\
    In (FillText "$99.50" 215 110) b /\
    In (FillText "$129.95" 370 110) b /\
    In (FillText "3" 215 190) b /\
    In (FillText "12h" 370 270) b.
Proof.
  cbv zeta.
  match goal with |- ?P /\ _ => assert (H1 : P) by discriminate end.
  split; [exact H1 |].
  match goal with |- ?P /\ _ => assert (H2 : P) by discriminate end.
  split; [exact H2 |].
  match goal with |- ?P /\ _ => assert (H3 : P) by discriminate end.
  split; [exact H3 |].
  match goal with |- ?P /\ _ => assert (H4 : P) by discriminate end.
  split; [exact H4 |].
  match goal with
  | |- exists b s', ?r = _ /\ _ =>
      assert (Hok : succeeded (fst r) = true) by (vm_compute; reflexivity);
      destruct r as [[x | b] s'] eqn:E; [discriminate Hok |]
  end.
  exists b, s'. split; [reflexivity |].
  destruct (card_shows_totals _ _ _ _ _ _ _ _ _ _ _ _ _ _ E H1 H2 H3 H4)
    as (_ & Hf & _ & Hi & Hg & _ & Hp).
  split; [exact Hf |]. split; [exact Hi |]. split; [exact Hg | exact Hp].
Defined.

(** ** Runs of the sample user *)

(** A profile that has expired, and a fetch after it that fails. *)
Lemma cache_never_forgets_witness :
  let summary :=
    {| nickname := "gabe"; us_visible := true;
       avatar_large := "https://avatars.example/full.jpg";
       lastLogOffTimestamp := Some 1700000000; createdTimestamp := Some 1100000000;
       us_countryCode := Some "US"; us_stateCode := None |} in
  let st := Sample.run init
              [CallUser "gabe" 1000; Deliver 0 (RespResolve (inr "7656")) 1500;
               Deliver 0 (RespSummaries (inr summary) (inl "unavailable")) 2000] in
  let es := [CallUser "gabe" 10000000;
             Deliver 1 (RespSummaries (inl "unavailable") (inl "unavailable")) 10000500] in
  is_Some (cache st !! user_key "gabe") /\
  is_Some (cache (Sample.run st es) !! user_key "gabe").
Proof.
  cbv zeta.
  match goal with
  | |- ?P /\ _ => assert (H : P) by (vm_compute; eexists; reflexivity)
  end.
  split; [exact H |].
  exact (cache_never_forgets Sample.format Sample.average Sample.compact
           Sample.precise _ _ _ H).
Defined.

(** A library fetch that fails at the owned games. *)
Lemma fetches_end_in_data_or_marker_witness :
  let es := [CallGames "gabe" "US" 1000; Deliver 0 (RespResolve (inr "7656")) 1500;
             Deliver 0 (RespOwned (inl "Forbidden")) 2000] in
  let d := DError "private games" in
  promises (Sample.run init es) !! 0%nat = Some (Settled d) /\
  ((exists u, d = DUser u) \/ (exists totals pc, d = DGames totals pc) \/
   d = DError "no user" \/ d = DError "private games").
Proof.
  cbv zeta.
  match goal with
  | |- ?P /\ _ => assert (H : P) by (vm_compute; reflexivity)
  end.
  split; [exact H |].
  exact (fetches_end_in_data_or_marker Sample.format Sample.average Sample.compact
           Sample.precise _ _ _ H).
Defined.

(** An image cached before a request that ends in the answer 500. *)
Lemma image_cache_never_forgets_witness :
  let img := {| src := "/app/public/canvas/loc-icon.png";
                img_width := 16; img_height := 16 |} in
  let images : gmap string (image * Z) :=
    {[ "img_/app/public/canvas/loc-icon.png" := (img, 0) ]} in
  is_Some (images !! "img_/app/public/canvas/loc-icon.png") /\
  is_Some (snd (handler_respond Sample.measureText Sample.loadNoWatermark Sample.cwd
                  1700000500000 Sample.fromNow Sample.relative Sample.pricePerHour
                  (DUser Sample.user) (Sample.games 2 3) (plain_query "gabe") images)
           !! "img_/app/public/canvas/loc-icon.png").
Proof.
  cbv zeta.
  match goal with
  | |- ?P /\ _ => assert (H : P) by (vm_compute; eexists; reflexivity)
  end.
  split; [exact H |].
  exact (image_cache_never_forgets Sample.measureText Sample.loadNoWatermark
           Sample.cwd 1700000500000 Sample.fromNow Sample.relative
           Sample.pricePerHour _ _ _ _ _ H).
Defined.
